(** * BrainZag adaptive n-back engine: shallow embedding and verified properties

    The engine (the file that defines [NBackEngine], [WorkingMemoryTrainer],
    [AbilityModel], [DifficultyController], [SPRTStopper],
    [ColorSequenceGenerator] and [MatchGenerator]) is embedded class by class.

    Conventions of the embedding
    - A JavaScript number that carries a measurement (theta, entropy, rates,
      reaction times, random draws) is a real number: [Math.exp], [Math.log]
      and [Math.sqrt] are [exp], [ln] and [sqrt]; rounding of IEEE doubles is
      not modelled.  Counters and colour counts are integers ([Z]); the n of
      the task is a [nat].
    - A colour slot holds a JavaScript value: a string, [null] or
      [undefined] ([jsval]).
    - [Math.random()] is the next element of a stream [rnd : nat -> R]; code
      that draws threads the position in the stream.
    - Fields that are assigned once in a constructor and never again
      (gains, window sizes, bounds) are definitions; fields that depend on
      the constructor argument or are mutated are record fields.
    - Object state is passed explicitly: a method is a function from the
      object (and arguments) to the new object (and result). *)

From Stdlib Require Import String.
From Stdlib Require Import Reals Lra Lia ZArith List Bool Arith.
Import ListNotations.
Open Scope R_scope.

(** ** JavaScript helpers *)

Definition Rltb (x y : R) : bool := if Rlt_dec x y then true else false.
Definition Rleb (x y : R) : bool := if Rle_dec x y then true else false.
Definition Rgtb (x y : R) : bool := Rltb y x.
Definition Rgeb (x y : R) : bool := Rleb y x.
Definition Reqb (x y : R) : bool := if Req_dec_T x y then true else false.

(** [Math.floor] and [Math.round] (round half up). *)
Definition Math_floor (x : R) : Z := Int_part x.
Definition Math_round (x : R) : Z := Int_part (x + / 2).

(** [Array.prototype.push], [shift], [slice(-k)], [slice(0,k)]. *)
Definition push {A} (l : list A) (x : A) : list A := l ++ [x].
Definition shift {A} (l : list A) : list A := tl l.
Definition slice_last {A} (k : nat) (l : list A) : list A :=
  skipn (length l - k) l.
Definition slice_first {A} (k : nat) (l : list A) : list A := firstn k l.

(** A colour slot: a string, [null] or [undefined]. *)
Inductive jsval : Type :=
| JNull
| JUndefined
| JStr (s : string).

Definition jsval_eq_dec (a b : jsval) : {a = b} + {a <> b}.
Proof. decide equality. apply string_dec. Defined.

(** Strict equality [===] and truthiness on colour slots. *)
Definition js_eqb (a b : jsval) : bool :=
  if jsval_eq_dec a b then true else false.

Definition truthy (v : jsval) : bool :=
  match v with
  | JStr s => negb (String.eqb s EmptyString)
  | _ => false
  end.

(** [arr[i]] for an integer index: [undefined] out of range. *)
Definition js_index (arr : list jsval) (i : Z) : jsval :=
  if (i <? 0)%Z then JUndefined else nth (Z.to_nat i) arr JUndefined.

(** [new Set(arr)] in insertion order: first occurrences are kept. *)
Definition js_set (l : list jsval) : list jsval :=
  rev (nodup jsval_eq_dec (rev l)).

Definition set_size (l : list jsval) : nat := length (js_set l).

Definition js_includes (l : list jsval) (c : jsval) : bool :=
  existsb (js_eqb c) l.

(** ** WorkingMemoryState *)

Module WorkingMemoryState.

Record t : Type := mk {
  n : nat;
  recentColors : list jsval;
  currentLoad : nat
}.

Definition new (n0 : nat) : t := mk n0 [] 0.

Definition addColor (m : t) (color : jsval) : t :=
  let pushed := push (recentColors m) color in
  let trimmed :=
    if (n m + 1 <? length pushed)%nat then shift pushed else pushed in
  mk (n m) trimmed (set_size trimmed).

Definition getRecentColors (m : t) : list jsval := recentColors m.
Definition getCurrentLoad (m : t) : nat := currentLoad m.

End WorkingMemoryState.

(** ** computeDPrime *)

Definition invNorm (p : R) : R :=
  let a1 := -3.969683028665376e1 in
  let a2 := 2.209460984245205e2 in
  let a3 := -2.759285104469687e2 in
  let a4 := 1.383577518672690e2 in
  let a5 := -3.066479806614716e1 in
  let a6 := 2.506628277459239e0 in
  let b1 := -5.447609879822406e1 in
  let b2 := 1.615858368580409e2 in
  let b3 := -1.556989798598866e2 in
  let b4 := 6.680131188771972e1 in
  let b5 := -1.328068155288572e1 in
  let c1 := -7.784894002430293e-3 in
  let c2 := -3.223964580411365e-1 in
  let c3 := -2.400758277161838e0 in
  let c4 := -2.549732539343734e0 in
  let c5 := 4.374664141464968e0 in
  let c6 := 2.938163982698783e0 in
  let d1 := 7.784695709041462e-3 in
  let d2 := 3.224671290700398e-1 in
  let d3 := 2.445134137142996e0 in
  let d4 := 3.754408661907416e0 in
  let pLow := 0.02425 in
  let pHigh := 1 - pLow in
  if Rltb p pLow then
    let q := sqrt (-2 * ln p) in
    (((((c1 * q + c2) * q + c3) * q + c4) * q + c5) * q + c6)
    / ((((d1 * q + d2) * q + d3) * q + d4) * q + 1)
  else if Rleb p pHigh then
    let q := p - 0.5 in
    let r := q * q in
    (((((a1 * r + a2) * r + a3) * r + a4) * r + a5) * r + a6) * q
    / (((((b1 * r + b2) * r + b3) * r + b4) * r + b5) * r + 1)
  else
    let q := sqrt (-2 * ln (1 - p)) in
    - (((((c1 * q + c2) * q + c3) * q + c4) * q + c5) * q + c6)
    / ((((d1 * q + d2) * q + d3) * q + d4) * q + 1).

Definition computeDPrime (hitRate faRate : R) : R :=
  let cappedHitRate := Rmax 0.01 (Rmin 0.99 hitRate) in
  let cappedFaRate := Rmax 0.01 (Rmin 0.99 faRate) in
  invNorm cappedHitRate - invNorm cappedFaRate.

(** ** AbilityModel *)

Module AbilityModel.

Record outcome : Type := mkOutcome {
  wasMatch : bool;
  userClicked : bool
}.

Record t : Type := mk {
  trialWindow : list outcome;
  theta : R;
  thetaWindow : list R;
  rtWindow : list R;
  totalTrials : Z
}.

Definition windowSize : nat := 30.
Definition thetaAlpha : R := 0.15.
Definition thetaWindowSize : nat := 20.
Definition rtWindowSize : nat := 20.

Definition new : t := mk [] 1.5 [] [] 0.

Record sdt : Type := mkSdt {
  hits : Z;
  misses : Z;
  falseAlarms : Z;
  correctRejections : Z
}.

(** The counting loop shared by [recordTrial] and [getSDTCounts]. *)
Definition countOutcome (c : sdt) (o : outcome) : sdt :=
  if wasMatch o && userClicked o then
    mkSdt (hits c + 1) (misses c) (falseAlarms c) (correctRejections c)
  else if wasMatch o && negb (userClicked o) then
    mkSdt (hits c) (misses c + 1) (falseAlarms c) (correctRejections c)
  else if negb (wasMatch o) && userClicked o then
    mkSdt (hits c) (misses c) (falseAlarms c + 1) (correctRejections c)
  else
    mkSdt (hits c) (misses c) (falseAlarms c) (correctRejections c + 1).

Definition countWindow (w : list outcome) : sdt :=
  fold_left countOutcome w (mkSdt 0 0 0 0).

(** The raw sensitivity [recordTrial] computes from a trial window. *)
Definition rawDPrime (w : list outcome) : R :=
  let c := countWindow w in
  let targets := (hits c + misses c)%Z in
  let nonTargets := (falseAlarms c + correctRejections c)%Z in
  let hitRate := (IZR (hits c) + 0.5) / (IZR targets + 1) in
  let faRate := (IZR (falseAlarms c) + 0.5) / (IZR nonTargets + 1) in
  computeDPrime hitRate faRate.

Definition recordTrial (a : t) (wasMatch0 userClicked0 : bool)
    (reactionTime : R) : t :=
  let totalTrials' := (totalTrials a + 1)%Z in
  let pushed := push (trialWindow a) (mkOutcome wasMatch0 userClicked0) in
  let trialWindow' :=
    if (windowSize <? length pushed)%nat then shift pushed else pushed in
  let theta' :=
    theta a * (1 - thetaAlpha) + rawDPrime trialWindow' * thetaAlpha in
  let tpushed := push (thetaWindow a) theta' in
  let thetaWindow' :=
    if (thetaWindowSize <? length tpushed)%nat then shift tpushed
    else tpushed in
  let rtWindow' :=
    if Rgtb reactionTime 0 then
      let rpushed := push (rtWindow a) reactionTime in
      if (rtWindowSize * 2 <? length rpushed)%nat then shift rpushed
      else rpushed
    else rtWindow a in
  mk trialWindow' theta' thetaWindow' rtWindow' totalTrials'.

(** [for (let i = 0; i < n; i++) acc += f(i, h[i])]. *)
Definition sum_indexed (f : nat -> R -> R) (h : list R) : R :=
  fold_left (fun acc ix => acc + f (fst ix) (snd ix))
            (combine (seq 0 (length h)) h) 0.

Definition getThetaTrend (a : t) : R :=
  let h := thetaWindow a in
  if (length h <? 5)%nat then 0
  else
    let n := INR (length h) in
    let sumX := sum_indexed (fun i _ => INR i) h in
    let sumY := sum_indexed (fun _ y => y) h in
    let sumXY := sum_indexed (fun i y => INR i * y) h in
    let sumX2 := sum_indexed (fun i _ => INR i * INR i) h in
    let denom := n * sumX2 - sumX * sumX in
    if Reqb denom 0 then 0
    else (n * sumXY - sumX * sumY) / denom.

Record rtStats : Type := mkRtStats {
  median : R;
  p90 : R;
  cv : R
}.

(** [[...rts].sort((a, b) => a - b)]. *)
Fixpoint insert_sorted (x : R) (l : list R) : list R :=
  match l with
  | [] => [x]
  | y :: l' => if Rleb x y then x :: l else y :: insert_sorted x l'
  end.

Definition sort_ascending (l : list R) : list R :=
  fold_right insert_sorted [] l.

Definition num_index (arr : list R) (i : Z) : R := nth (Z.to_nat i) arr 0.

Definition getRTStats (a : t) : rtStats :=
  let rts := slice_last rtWindowSize (rtWindow a) in
  if (length rts <? 3)%nat then mkRtStats 800 1200 0.2
  else
    let sorted := sort_ascending rts in
    let len := INR (length sorted) in
    let median0 := num_index sorted (Math_floor (len / 2)) in
    let p900 := num_index sorted (Math_floor (len * 0.9)) in
    let mean := fold_left Rplus rts 0 / INR (length rts) in
    let variance :=
      fold_left (fun s rt => s + (rt - mean) ^ 2) rts 0
      / INR (length rts) in
    let cv0 := if Rgtb mean 0 then sqrt variance / mean else 0 in
    mkRtStats median0 p900 cv0.

Definition getFatigueIndex (a : t) : R :=
  let rt := getRTStats a in
  let trend := getThetaTrend a in
  let tailRatio := if Rgtb (median rt) 0 then p90 rt / median rt else 1.0 in
  let tailComponent := Rmax 0 ((tailRatio - 1.6) / 0.6) in
  let cvComponent := Rmax 0 ((cv rt - 0.4) / 0.3) in
  let trendComponent := Rmax 0 (- trend * 10) in
  Rmin 1.0 ((tailComponent + cvComponent + trendComponent) / 3).

Definition getFlowScore (a : t) : R :=
  let rt := getRTStats a in
  let trend := getThetaTrend a in
  let normalizedTheta := Rmax 0 (Rmin 1 (theta a / 2.5)) in
  let cvBonus := Rmax 0 (Rmin 1 (1 - Rmax 0 (cv rt - 0.15) / 0.45)) in
  let trendBonus := Rmax 0 (Rmin 1 (trend * 20)) in
  Rmin 1.0 (normalizedTheta * 0.55 + cvBonus * 0.25 + trendBonus * 0.20).

Definition getNormalizedPerformance (a : t) : R :=
  Rmax 0 (Rmin 1 (0.3 + theta a * 0.2)).

Definition getSDTCounts (a : t) : sdt := countWindow (trialWindow a).

Record stats : Type := mkStats {
  s_theta : R;
  s_thetaTrend : R;
  s_flowScore : R;
  s_fatigueIndex : R;
  s_rtMedian : R;
  s_rtP90 : R;
  s_rtCV : R;
  s_totalTrials : Z;
  s_hits : Z;
  s_misses : Z;
  s_falseAlarms : Z;
  s_correctRejections : Z
}.

Definition getStats (a : t) : stats :=
  let rt := getRTStats a in
  let sdt0 := getSDTCounts a in
  mkStats (theta a) (getThetaTrend a) (getFlowScore a) (getFatigueIndex a)
          (median rt) (p90 rt) (cv rt) (totalTrials a)
          (hits sdt0) (misses sdt0) (falseAlarms sdt0)
          (correctRejections sdt0).

Definition reset (a : t) : t := mk [] 1.5 [] [] 0.

End AbilityModel.

(** ** DifficultyController *)

Module DifficultyController.

Record t : Type := mk {
  n : nat;
  integral : R;
  targetEntropy : R;
  matchRate : R;
  stimulusInterval : R;
  tse : R;
  maxUniqueColors : Z;
  currentUniqueColors : Z;
  stepHoldIncrease : Z;
  stepHoldDecrease : Z;
  stepHoldCounter : Z;
  pendingUniqueColors : Z;
  entropyClimbRate : R;
  entropyDropRate : R
}.

Definition targetTheta : R := 1.8.
Definition Kp : R := 0.3.
Definition Ki : R := 0.05.
Definition integralMax : R := 3.0.
Definition tseClimbRate : R := 0.06.
Definition tseDropRate : R := 0.12.
Definition minUniqueColors : Z := 2.

(** The constructor divides by [colorRange = n - 1]: for n = 1 the source
    gets an infinite hold, the embedding a finite one; the candidate is
    then always 2 and the hold is never consulted. *)
Definition new (n0 : nat) : t :=
  let maxUnique := (Z.of_nat n0 + 1)%Z in
  let colorRange := (maxUnique - minUniqueColors)%Z in
  let climb := Rmin 0.12 (Rmax 0.06 (0.03 + 0.015 * IZR colorRange)) in
  mk n0 0 0.0 0.30 1.0 0.0 maxUnique 2
     (Z.max 2 (Math_round (6 / IZR colorRange)))
     (Z.max 1 (Math_round (3 / IZR colorRange)))
     0 2 climb (climb * 2).

(** The PI step of [update]: the clamped integral and the adjustment
    after the flow boost and the recovery override. *)
Definition piIntegral (d : t) (a : AbilityModel.t) : R :=
  let error := targetTheta - AbilityModel.theta a in
  Rmax (- integralMax) (Rmin integralMax (integral d + error)).

Definition piAdjustment (d : t) (a : AbilityModel.t) : R :=
  let theta := AbilityModel.theta a in
  let trend := AbilityModel.getThetaTrend a in
  let fatigue := AbilityModel.getFatigueIndex a in
  let error := targetTheta - theta in
  let adjustment := Kp * error + Ki * piIntegral d a in
  let adjustment :=
    if Rgtb theta 1.6 && Rgtb trend 0.005 then adjustment - 0.1
    else adjustment in
  let adjustment :=
    if Rltb trend (-0.01) && Rgtb fatigue 0.5 then adjustment + 0.15
    else adjustment in
  adjustment.

Definition nextEntropy (d : t) (adjustment : R) : R :=
  let entropyDelta :=
    if Rltb adjustment 0 then - adjustment * entropyClimbRate d
    else - adjustment * entropyDropRate d in
  Rmax 0 (Rmin 1 (targetEntropy d + entropyDelta)).

(** [candidateColors] as computed from the freshly updated entropy. *)
Definition candidateOfEntropy (d : t) (entropy : R) : Z :=
  let range := (maxUniqueColors d - minUniqueColors)%Z in
  let targetFloat := IZR minUniqueColors + entropy * IZR range in
  Math_round (Rmax (IZR minUniqueColors)
                   (Rmin (IZR (maxUniqueColors d)) targetFloat)).

(** The candidate that [update d a] feeds to the step-hold gate. *)
Definition candidateColors (d : t) (a : AbilityModel.t) : Z :=
  candidateOfEntropy d (nextEntropy d (piAdjustment d a)).

(** KNOB 1, the step-hold gate: returns the committed count, the pending
    candidate and the hold counter. *)
Definition stepHold (d : t) (candidate : Z) : Z * Z * Z :=
  if negb (candidate =? currentUniqueColors d)%Z then
    let '(pending, counter) :=
      if (candidate =? pendingUniqueColors d)%Z
      then (pendingUniqueColors d, (stepHoldCounter d + 1)%Z)
      else (candidate, 1%Z) in
    let requiredHold :=
      if (candidate >? currentUniqueColors d)%Z then stepHoldIncrease d
      else stepHoldDecrease d in
    if (counter >=? requiredHold)%Z then
      if (candidate >? currentUniqueColors d)%Z && Rltb (tse d) 0.5 then
        (currentUniqueColors d, pending, counter)
      else
        (candidate, pending, 0%Z)
    else
      (currentUniqueColors d, pending, counter)
  else
    (currentUniqueColors d, pendingUniqueColors d, 0%Z).

Definition update (d : t) (a : AbilityModel.t) : t :=
  let fatigue := AbilityModel.getFatigueIndex a in
  let flow := AbilityModel.getFlowScore a in
  let integral' := piIntegral d a in
  let adjustment := piAdjustment d a in
  let targetEntropy' := nextEntropy d adjustment in
  let candidate := candidateOfEntropy d targetEntropy' in
  let '(current', pending', counter') := stepHold d candidate in
  let matchAdj := Rmax (-0.05) (Rmin 0.10 (adjustment * 0.05)) in
  let matchRate' := Rmax 0.25 (Rmin 0.40 (0.30 + matchAdj)) in
  let stimulusInterval' :=
    if Rgtb flow 0.6 && Rltb fatigue 0.3 then 0.95
    else if Rgtb fatigue 0.6 then 1.05
    else 1.0 in
  let tseDelta :=
    if Rltb adjustment 0 then - adjustment * tseClimbRate
    else - adjustment * tseDropRate in
  let tse' := Rmax 0 (Rmin 1 (tse d + tseDelta)) in
  mk (n d) integral' targetEntropy' matchRate' stimulusInterval' tse'
     (maxUniqueColors d) current' (stepHoldIncrease d) (stepHoldDecrease d)
     counter' pending' (entropyClimbRate d) (entropyDropRate d).

Definition getTargetUniqueColors (d : t) : Z := currentUniqueColors d.
Definition getCurrentUniqueColors (d : t) : Z := currentUniqueColors d.
Definition getMaxUniqueColors (d : t) : Z := maxUniqueColors d.
Definition getMatchRate (d : t) : R := matchRate d.

Definition onSessionStopped (d : t) : t :=
  let targetEntropy' := Rmax 0 (targetEntropy d * 0.5) in
  let current' :=
    if (currentUniqueColors d >? minUniqueColors)%Z
    then (currentUniqueColors d - 1)%Z
    else currentUniqueColors d in
  let matchRate' := Rmin 0.40 (matchRate d + 0.05) in
  let tse' := Rmax 0 (tse d * 0.3) in
  mk (n d) 0 targetEntropy' matchRate' (stimulusInterval d) tse'
     (maxUniqueColors d) current' (stepHoldIncrease d) (stepHoldDecrease d)
     0 (pendingUniqueColors d) (entropyClimbRate d) (entropyDropRate d).

Record stats : Type := mkStats {
  s_currentUniqueColors : Z;
  s_maxUniqueColors : Z;
  s_minUniqueColors : Z;
  s_targetEntropy : R;
  s_tse : R;
  s_matchRate : R;
  s_stimulusInterval : R;
  s_piError : R;
  s_piIntegral : R
}.

Definition getStats (d : t) : stats :=
  mkStats (currentUniqueColors d) (maxUniqueColors d) minUniqueColors
          (targetEntropy d) (tse d) (matchRate d) (stimulusInterval d)
          (targetTheta - (integral d / Rmax 1 (Rabs (integral d)) * Ki))
          (integral d).

End DifficultyController.

(** ** SPRTStopper *)

Module SPRTStopper.

Inductive decision_t : Type := Continue | Stop.

Record t : Type := mk {
  logLR : R;
  decision : decision_t;
  trialsRecorded : Z
}.

Definition theta0 : R := 1.5.
Definition theta1 : R := 0.8.
Definition stopBound : R := ln ((1 - 0.10) / 0.05).
Definition acceptBound : R := ln (0.10 / (1 - 0.05)).

Definition new : t := mk 0 Continue 0.

Definition thetaToAccuracy (theta : R) (isTarget : bool) : R :=
  if isTarget then 1 / (1 + exp (- (theta - 0.5) * 1.5))
  else 1 / (1 + exp (- (theta - 0.2) * 1.5)).

(** The value of [this.logLR] after the accumulation step of
    [recordTrial], before the boundary check. *)
Definition accumulate (s : t) (correct wasMatch : bool) : R :=
  let p0 := thetaToAccuracy theta0 wasMatch in
  let p1 := thetaToAccuracy theta1 wasMatch in
  let pObserved0 := if correct then p0 else 1 - p0 in
  let pObserved1 := if correct then p1 else 1 - p1 in
  if Rgtb pObserved0 0 && Rgtb pObserved1 0
  then logLR s + ln (pObserved1 / pObserved0)
  else logLR s.

Definition recordTrial (s : t) (correct wasMatch : bool) : t * decision_t :=
  let trialsRecorded' := (trialsRecorded s + 1)%Z in
  let acc := accumulate s correct wasMatch in
  let s' :=
    if Rgeb acc stopBound then mk acc Stop trialsRecorded'
    else if Rleb acc acceptBound then mk 0 Continue trialsRecorded'
    else mk acc (decision s) trialsRecorded' in
  (s', decision s').

Definition decision_eqb (a b : decision_t) : bool :=
  match a, b with
  | Continue, Continue | Stop, Stop => true
  | _, _ => false
  end.

Definition shouldStop (s : t) : bool :=
  if (trialsRecorded s <? 8)%Z then false
  else decision_eqb (decision s) Stop.

Record status : Type := mkStatus {
  st_logLR : R;
  st_stopBound : R;
  st_acceptBound : R;
  st_decision : decision_t;
  st_trialsRecorded : Z
}.

Definition getStatus (s : t) : status :=
  mkStatus (logLR s) stopBound acceptBound (decision s) (trialsRecorded s).

Definition reset (s : t) : t := mk 0 Continue 0.

End SPRTStopper.

(** ** Code that draws random numbers *)

(** The source of [Math.random()]: a stream of draws and the position of
    the next one. *)
Record rng : Type := mkRng {
  stream : nat -> R;
  pos : nat
}.

(** A computation that may draw. *)
Definition Rand (A : Type) : Type := rng -> A * rng.

Definition ret {A} (x : A) : Rand A := fun k => (x, k).
Definition bind {A B} (m : Rand A) (f : A -> Rand B) : Rand B :=
  fun k => let '(x, k') := m k in f x k'.
Definition Math_random : Rand R :=
  fun k => (stream k (pos k), mkRng (stream k) (S (pos k))).

Notation "x <- m ;; f" := (bind m (fun x => f))
  (at level 61, m at next level, right associativity).

(** [arr[Math.floor(Math.random() * arr.length)]]. *)
Definition pickRandom (arr : list jsval) : Rand jsval :=
  r <- Math_random ;;
  ret (js_index arr (Math_floor (r * INR (length arr)))).

Record paletteColor : Type := mkPaletteColor {
  name : string;
  rank : Z
}.

(** [this.availableColors.map(c => c.name)]. *)
Definition colorNames (palette : list paletteColor) : list jsval :=
  map (fun c => JStr (name c)) palette.

(** ** ColorSequenceGenerator *)

Module ColorSequenceGenerator.

Record t : Type := mk {
  n : nat;
  availableColors : list paletteColor;
  memoryState : WorkingMemoryState.t;
  activeSet : option (list jsval);
  lastTarget : option Z
}.

Definition swapProbability : R := 0.7.

Definition new (n0 : nat) (colors : list paletteColor) : t :=
  mk n0 colors (WorkingMemoryState.new n0) None None.

Definition setActiveSet (g : t) (s : option (list jsval)) : t :=
  mk (n g) (availableColors g) (memoryState g) s (lastTarget g).

(** The window after [candidate] is appended: the last n+1 symbols. *)
Definition simulated (g : t) (currentWindow : list jsval)
    (candidate : jsval) : list jsval :=
  slice_last (n g + 1) (currentWindow ++ [candidate]).

Definition isValidMatchColor (g : t) (currentWindow : list jsval)
    (candidate : jsval) (target : Z) : bool :=
  (Z.of_nat (set_size (simulated g currentWindow candidate)) <=? target)%Z.

Definition isValidNextColor (g : t) (currentWindow : list jsval)
    (candidate : jsval) (target : Z) : bool :=
  (Z.of_nat (set_size (simulated g currentWindow candidate)) =? target)%Z.

Definition forceRepair (g : t) (currentWindow : list jsval)
    (target : Z) : Rand jsval :=
  let recentWindow := slice_last (n g + 1) currentWindow in
  let windowSet := js_set recentWindow in
  let available :=
    filter (fun c => negb (js_includes windowSet c))
           (colorNames (availableColors g)) in
  if (Z.of_nat (length windowSet) <? target)%Z
     && (0 <? length available)%nat
  then pickRandom available
  else ret (js_index windowSet 0).

Definition pickNextWithConstraint (g : t) (currentWindow : list jsval)
    (candidates : list jsval) (target : Z) : Rand jsval :=
  let valid :=
    filter (fun c => isValidNextColor g currentWindow c target)
           candidates in
  if (0 <? length valid)%nat then pickRandom valid
  else forceRepair g currentWindow target.

(** Palette names outside the window, except the excluded colour. *)
Definition freshCandidates (g : t) (currentWindow : list jsval)
    (excludeColor : jsval) : list jsval :=
  filter (fun c => negb (js_includes (js_set currentWindow) c)
                   && negb (js_eqb c excludeColor))
         (colorNames (availableColors g)).

(** [excludeColor ? activeSet.filter(c => c !== excludeColor) : activeSet]. *)
Definition withoutExcluded (active : list jsval) (excludeColor : jsval)
    : list jsval :=
  if truthy excludeColor
  then filter (fun c => negb (js_eqb c excludeColor)) active
  else active.

Definition activeOrEmpty (g : t) : list jsval :=
  match activeSet g with Some s => s | None => [] end.

(** [!this.activeSet || this.activeSet.length !== k]. *)
Definition activeSetStale (g : t) (k : Z) : bool :=
  match activeSet g with
  | None => true
  | Some s => negb (Z.of_nat (length s) =? k)%Z
  end.

Definition generateForMinLoad (g : t) (currentWindow : list jsval)
    (excludeColor : jsval) (target : Z) : Rand (jsval * t) :=
  let uniqueColors := js_set currentWindow in
  let candidates := freshCandidates g currentWindow excludeColor in
  if (length uniqueColors <? 2)%nat && (0 <? length candidates)%nat then
    newColor <- pickNextWithConstraint g currentWindow candidates target ;;
    let active :=
      if (length uniqueColors =? 1)%nat
      then [js_index uniqueColors 0; newColor]
      else [newColor] in
    ret (newColor, setActiveSet g (Some active))
  else
    let g1 :=
      if activeSetStale g 2
      then setActiveSet g (Some (slice_first 2 uniqueColors))
      else g in
    let active := activeOrEmpty g1 in
    let normal :=
      c <- pickNextWithConstraint g1 currentWindow
             (withoutExcluded active excludeColor) target ;;
      ret (c, g1) in
    r <- Math_random ;;
    if Rltb r swapProbability then
      keep <- pickRandom active ;;
      let availableForSwap :=
        filter (fun c => negb (js_includes active c))
               (colorNames (availableColors g1)) in
      let validReplacements :=
        filter (fun c => isValidNextColor g1 currentWindow c target)
               availableForSwap in
      if (0 <? length availableForSwap)%nat
         && (0 <? length validReplacements)%nat
      then
        replacement <- pickRandom validReplacements ;;
        ret (replacement, setActiveSet g1 (Some [keep; replacement]))
      else normal
    else normal.

Definition generateForMaxLoad (g : t) (currentWindow : list jsval)
    (excludeColor : jsval) (target : Z) : Rand (jsval * t) :=
  c <- pickNextWithConstraint g currentWindow
         (freshCandidates g currentWindow excludeColor) target ;;
  ret (c, g).

(** [arr.filter((_, i) => i !== k)]. *)
Definition removeIndex (arr : list jsval) (k : Z) : list jsval :=
  map snd (filter (fun ix => negb (Z.of_nat (fst ix) =? k)%Z)
                  (combine (seq 0 (length arr)) arr)).

Definition generateForMidLoad (g : t) (currentWindow : list jsval)
    (excludeColor : jsval) (target : Z) : Rand (jsval * t) :=
  let uniqueColors := js_set currentWindow in
  let candidates := freshCandidates g currentWindow excludeColor in
  if (Z.of_nat (length uniqueColors) <? target)%Z
     && (0 <? length candidates)%nat
  then
    newColor <- pickNextWithConstraint g currentWindow candidates target ;;
    let active :=
      match activeSet g with
      | None => uniqueColors ++ [newColor]
      | Some s => slice_first (Z.to_nat target) (js_set (s ++ [newColor]))
      end in
    ret (newColor, setActiveSet g (Some active))
  else
    let g1 :=
      if activeSetStale g target
      then setActiveSet g
             (Some (slice_first (Z.to_nat target) uniqueColors))
      else g in
    let active := activeOrEmpty g1 in
    let normal :=
      c <- pickNextWithConstraint g1 currentWindow
             (withoutExcluded active excludeColor) target ;;
      ret (c, g1) in
    r <- Math_random ;;
    if Rltb r swapProbability then
      r2 <- Math_random ;;
      let keepIndex := Math_floor (r2 * INR (length active)) in
      let keep := removeIndex active keepIndex in
      let availableForSwap :=
        filter (fun c => negb (js_includes active c))
               (colorNames (availableColors g1)) in
      let validReplacements :=
        filter (fun c => isValidNextColor g1 currentWindow c target)
               availableForSwap in
      if (0 <? length availableForSwap)%nat
         && (0 <? length validReplacements)%nat
      then
        replacement <- pickRandom validReplacements ;;
        ret (replacement, setActiveSet g1 (Some (keep ++ [replacement])))
      else normal
    else normal.

(** The three load regimes at the end of [generateNextColor]. *)
Definition generateByRegime (g : t) (currentWindow : list jsval)
    (excludeColor : jsval) (target : Z) : Rand (jsval * t) :=
  if (target =? 2)%Z then
    generateForMinLoad g currentWindow excludeColor target
  else if (target =? Z.of_nat (n g) + 1)%Z then
    generateForMaxLoad g currentWindow excludeColor target
  else
    generateForMidLoad g currentWindow excludeColor target.

(** The TSE repeat-bias step followed by the regimes. *)
Definition generateNonMatch (g : t) (currentWindow : list jsval)
    (excludeColor : jsval) (target : Z) (tse : R) : Rand (jsval * t) :=
  let lastColor := last currentWindow JUndefined in
  if Rltb tse 1.0 && (0 <? length currentWindow)%nat
     && truthy lastColor && negb (js_eqb lastColor excludeColor)
  then
    let repeatProb := (1 - 1 / (INR (n g) + 1)) * (1 - tse) in
    r <- Math_random ;;
    if Rltb r repeatProb
       && isValidNextColor g currentWindow lastColor target
    then ret (lastColor, g)
    else generateByRegime g currentWindow excludeColor target
  else generateByRegime g currentWindow excludeColor target.

Definition generateNextColor (g : t) (targetUniqueColors : Z)
    (shouldMatch : bool) (nBackColor : jsval) (isForced : bool)
    (tse : R) : Rand (jsval * t) :=
  let currentWindow := WorkingMemoryState.recentColors (memoryState g) in
  let target := Z.max 2 targetUniqueColors in
  let resetActive :=
    match lastTarget g with
    | Some l => negb (l =? target)%Z
    | None => false
    end in
  let g0 :=
    mk (n g) (availableColors g) (memoryState g)
       (if resetActive then None else activeSet g) (Some target) in
  let excludeColor := if negb shouldMatch then nBackColor else JNull in
  if shouldMatch && truthy nBackColor then
    if isForced then ret (nBackColor, g0)
    else if isValidMatchColor g0 currentWindow nBackColor target
    then ret (nBackColor, g0)
    else generateNonMatch g0 currentWindow excludeColor target tse
  else generateNonMatch g0 currentWindow excludeColor target tse.

Definition updateMemoryState (g : t) (color : jsval) : t :=
  mk (n g) (availableColors g)
     (WorkingMemoryState.addColor (memoryState g) color)
     (activeSet g) (lastTarget g).

Definition getMemoryState (g : t) : WorkingMemoryState.t := memoryState g.

(** The property key under which the counting loop files a colour:
    [String(c)]. *)
Definition keyOf (c : jsval) : string :=
  match c with
  | JStr s => s
  | JNull => "null"
  | JUndefined => "undefined"
  end.

(** The names a plain object inherits from [Object.prototype]. *)
Definition objectPrototypeKeys : list string :=
  ["constructor"; "__defineGetter__"; "__defineSetter__"; "hasOwnProperty";
   "__lookupGetter__"; "__lookupSetter__"; "isPrototypeOf";
   "propertyIsEnumerable"; "toString"; "valueOf"; "__proto__";
   "toLocaleString"]%string.

Definition inheritedKey (key : string) : bool :=
  existsb (String.eqb key) objectPrototypeKeys.

(** The keys of [counts] in the order of their first use. *)
Definition countKeys (window : list jsval) : list string :=
  rev (nodup string_dec (rev (map keyOf window))).

(** [counts[key]] after the counting loop [counts[c] = (counts[c] || 0) + 1]
    on [counts = {}].  Under an inherited name the first read finds the
    inherited (truthy) value, so [+ 1] appends to a string and the entry
    never is a number: [None]. *)
Definition occurrences (key : string) (window : list jsval) : option nat :=
  if inheritedKey key then None
  else Some (length (filter (fun c => String.eqb (keyOf c) key) window)).

(** Shannon entropy of the window: the sum of [-p * log2(p)] over the keys
    of [counts].  An entry that is not a number gives [p = NaN], which
    fails [p > 0] and is skipped ([__proto__] is not even listed).  The
    order in which [for ... in] lists the keys does not change a sum of
    reals. *)
Definition computeEntropy (window : list jsval) : R :=
  match window with
  | [] => 0
  | _ =>
    let n := INR (length window) in
    fold_left
      (fun entropy key =>
         match occurrences key window with
         | Some count =>
           let p := INR count / n in
           if Rgtb p 0 then entropy - p * (ln p / ln 2) else entropy
         | None => entropy
         end)
      (countKeys window) 0
  end.

End ColorSequenceGenerator.


(** ** MatchGenerator *)

Module MatchGenerator.

Record t : Type := mk {
  targetRate : R;
  recentMatches : list bool;
  trialsSinceLastMatch : Z;
  maxGap : Z
}.

Definition windowSize : nat := 20.

Definition new (targetMatchRate : R) : t :=
  mk targetMatchRate [] 0 (Math_round (1 / targetMatchRate) * 2).

Definition setTargetRate (m : t) (rate : R) : t :=
  let targetRate' := Rmax 0.20 (Rmin 0.45 rate) in
  mk targetRate' (recentMatches m) (trialsSinceLastMatch m)
     (Math_round (1 / targetRate') * 2).

Record matchDecision : Type := mkDecision {
  shouldMatch : bool;
  isForced : bool
}.

(** [recentMatches.filter(Boolean).length / recentMatches.length], or the
    target rate on an empty history. *)
Definition recentRate (m : t) : R :=
  if (0 <? length (recentMatches m))%nat
  then INR (length (filter (fun b => b) (recentMatches m)))
       / INR (length (recentMatches m))
  else targetRate m.

(** The match probability and the forced flag before the draw. *)
Definition matchProbability (m : t) : R * bool :=
  let probability := targetRate m in
  let probability :=
    if Rltb (recentRate m) (targetRate m - 0.05) then probability + 0.15
    else if Rgtb (recentRate m) (targetRate m + 0.05)
         then probability - 0.15
    else probability in
  let '(probability, forced) :=
    if (trialsSinceLastMatch m >? maxGap m)%Z then (1.0, true)
    else (probability + IZR (trialsSinceLastMatch m) * 0.03, false) in
  (Rmin (Rmax probability 0) 1, forced).

Definition shouldCreateMatch (m : t) (memoryState : WorkingMemoryState.t)
    : Rand matchDecision :=
  if (length (WorkingMemoryState.recentColors memoryState)
      <? WorkingMemoryState.n memoryState)%nat
  then ret (mkDecision false false)
  else
    let '(probability, forced) := matchProbability m in
    r <- Math_random ;;
    let shouldMatch0 := Rltb r probability in
    ret (mkDecision shouldMatch0 (forced && shouldMatch0)).

Definition registerActualMatch (m : t) (didMatch : bool) : t :=
  let pushed := push (recentMatches m) didMatch in
  let recent :=
    if (windowSize <? length pushed)%nat then shift pushed else pushed in
  mk (targetRate m) recent
     (if didMatch then 0%Z else (trialsSinceLastMatch m + 1)%Z)
     (maxGap m).

Definition getNBackColor (memoryState : WorkingMemoryState.t) : jsval :=
  let colors := WorkingMemoryState.recentColors memoryState in
  if (length colors <? WorkingMemoryState.n memoryState)%nat then JNull
  else js_index colors
         (Z.of_nat (length colors)
          - Z.of_nat (WorkingMemoryState.n memoryState)).

Record stats : Type := mkStats {
  s_trialsSinceLastMatch : Z;
  s_maxGap : Z;
  s_recentRate : R;
  s_targetRate : R
}.

Definition getStats (m : t) : stats :=
  mkStats (trialsSinceLastMatch m) (maxGap m) (recentRate m) (targetRate m).

End MatchGenerator.

(** ** Persisted state: the shapes written by [toJSON] and read by
    [warmStart].  A field that may be [undefined] is an [option]. *)

Record Strategic : Type := mkStrategic {
  st_theta : option R;
  st_targetEntropy : option R;
  st_tse : option R;
  st_currentUniqueColors : option Z;
  st_integral : option R;
  st_matchRate : option R;
  st_totalTrials : option Z
}.

Record Recency : Type := mkRecency {
  rc_trialWindow : option (list AbilityModel.outcome);
  rc_thetaWindow : option (list R);
  rc_rtWindow : option (list R);
  rc_stepHoldCounter : option Z;
  rc_pendingUniqueColors : option Z
}.

Definition orElse {A} (o : option A) (d : A) : A :=
  match o with Some x => x | None => d end.

(** ** WorkingMemoryTrainer *)

Module WorkingMemoryTrainer.

Record position : Type := mkPosition {
  row : Z;
  col : Z
}.

Record tile : Type := mkTile {
  tl_color : jsval;
  tl_position : option position;
  tl_isMatch : bool;
  tl_currentLoad : nat;
  tl_targetLoad : Z;
  tl_targetUniqueColors : Z;
  tl_trialNumber : Z
}.

Record t : Type := mk {
  n : nat;
  colors : list paletteColor;
  abilityModel : AbilityModel.t;
  difficultyController : DifficultyController.t;
  sprtStopper : SPRTStopper.t;
  colorGenerator : ColorSequenceGenerator.t;
  matchGenerator : MatchGenerator.t;
  trialNumber : Z;
  currentTile : option tile;
  lastTrialCorrect : bool;
  excludedPositions : list position
}.

Definition new (n0 : nat) (colors0 : list paletteColor) : t :=
  mk n0 colors0 AbilityModel.new (DifficultyController.new n0)
     SPRTStopper.new (ColorSequenceGenerator.new n0 colors0)
     (MatchGenerator.new 0.30) 0 None true [].

Definition setExcludedPositions (tr : t) (positions : option (list position))
    : t :=
  mk (n tr) (colors tr) (abilityModel tr) (difficultyController tr)
     (sprtStopper tr) (colorGenerator tr) (matchGenerator tr)
     (trialNumber tr) (currentTile tr) (lastTrialCorrect tr)
     (orElse positions []).

Definition grid : list position :=
  flat_map (fun r => map (fun c => mkPosition r c) [0; 1; 2]%Z) [0; 1; 2]%Z.

Definition generatePosition (tr : t) : Rand (option position) :=
  let positions :=
    filter (fun p =>
              negb (existsb (fun e => (row e =? row p)%Z
                                      && (col e =? col p)%Z)
                            (excludedPositions tr)))
           grid in
  r <- Math_random ;;
  let i := Math_floor (r * INR (length positions)) in
  ret (if (i <? 0)%Z then None else nth_error positions (Z.to_nat i)).

Definition generateNextTrial (tr : t) : Rand (tile * t) :=
  let dc := difficultyController tr in
  let mg := MatchGenerator.setTargetRate (matchGenerator tr)
              (DifficultyController.getMatchRate dc) in
  let targetUniqueColors := DifficultyController.getTargetUniqueColors dc in
  let memoryState := ColorSequenceGenerator.getMemoryState
                       (colorGenerator tr) in
  matchDecision <- MatchGenerator.shouldCreateMatch mg memoryState ;;
  let shouldMatch := MatchGenerator.shouldMatch matchDecision in
  let isForced := MatchGenerator.isForced matchDecision in
  let nBackColor := MatchGenerator.getNBackColor memoryState in
  generated <- ColorSequenceGenerator.generateNextColor
                 (colorGenerator tr) targetUniqueColors shouldMatch
                 nBackColor isForced (DifficultyController.tse dc) ;;
  let color := fst generated in
  let cg := ColorSequenceGenerator.updateMemoryState (snd generated) color in
  let actuallyIsMatch := truthy nBackColor && js_eqb color nBackColor in
  let mg' := MatchGenerator.registerActualMatch mg actuallyIsMatch in
  position0 <- generatePosition tr ;;
  let tile0 :=
    mkTile color position0 actuallyIsMatch
           (WorkingMemoryState.getCurrentLoad
              (ColorSequenceGenerator.getMemoryState cg))
           targetUniqueColors targetUniqueColors (trialNumber tr) in
  ret (tile0,
       mk (n tr) (colors tr) (abilityModel tr) dc (sprtStopper tr) cg mg'
          (trialNumber tr + 1)%Z (Some tile0) (lastTrialCorrect tr)
          (excludedPositions tr)).

Definition isValidTrial (reactionTime : R) : bool :=
  if Rltb reactionTime 150 then false
  else if Rgtb reactionTime 5000 then false
  else true.

Definition generateFeedback (correct wasMatch : bool) : string :=
  if correct && wasMatch then "Correct match!"%string
  else if correct && negb wasMatch then "Correct - no match"%string
  else if negb correct && wasMatch then "Missed a match"%string
  else "False positive"%string.

Record response : Type := mkResponse {
  r_correct : bool;
  r_wasMatch : bool;
  r_feedback : string;
  r_isValid : bool
}.

Definition recordResponse (tr : t) (userClicked wasMatch : bool)
    (reactionTime : R) : response * t :=
  let correct := Bool.eqb userClicked wasMatch in
  let isValid := isValidTrial reactionTime in
  let tr' :=
    if isValid then
      let ab := AbilityModel.recordTrial (abilityModel tr) wasMatch
                  userClicked reactionTime in
      let dc := DifficultyController.update (difficultyController tr) ab in
      let sp := fst (SPRTStopper.recordTrial (sprtStopper tr) correct
                       wasMatch) in
      mk (n tr) (colors tr) ab dc sp (colorGenerator tr)
         (matchGenerator tr) (trialNumber tr) (currentTile tr) correct
         (excludedPositions tr)
    else tr in
  (mkResponse correct wasMatch (generateFeedback correct wasMatch) isValid,
   tr').

Record stats : Type := mkStats {
  s_n : nat;
  s_trialNumber : Z;
  s_currentLoad : nat;
  s_theta : R;
  s_thetaTrend : R;
  s_flowScore : R;
  s_fatigueIndex : R;
  s_targetEntropy : R;
  s_tse : R;
  s_windowEntropy : R;
  s_matchRate : R;
  s_stimulusInterval : R;
  s_sprtStatus : SPRTStopper.status;
  s_rtMedian : R;
  s_rtCV : R;
  s_hits : Z;
  s_misses : Z;
  s_falseAlarms : Z;
  s_correctRejections : Z;
  s_targetUniqueColors : Z;
  s_maxUniqueColors : Z;
  s_minUniqueColors : Z;
  s_performanceEMA : R;
  s_accuracy : R;
  s_recentAccuracy : R;
  s_totalTrials : Z;
  s_confidence : R;
  s_isRecovery : bool;
  s_piError : R;
  s_piIntegral : R
}.

Definition getStats (tr : t) : stats :=
  let ability := AbilityModel.getStats (abilityModel tr) in
  let difficulty := DifficultyController.getStats
                      (difficultyController tr) in
  let memoryState := ColorSequenceGenerator.getMemoryState
                       (colorGenerator tr) in
  let sprt := SPRTStopper.getStatus (sprtStopper tr) in
  let windowEntropy :=
    ColorSequenceGenerator.computeEntropy
      (WorkingMemoryState.getRecentColors memoryState) in
  let performance :=
    AbilityModel.getNormalizedPerformance (abilityModel tr) in
  mkStats (n tr) (trialNumber tr)
    (WorkingMemoryState.getCurrentLoad memoryState)
    (AbilityModel.s_theta ability) (AbilityModel.s_thetaTrend ability)
    (AbilityModel.s_flowScore ability)
    (AbilityModel.s_fatigueIndex ability)
    (DifficultyController.s_targetEntropy difficulty)
    (DifficultyController.s_tse difficulty)
    windowEntropy
    (DifficultyController.s_matchRate difficulty)
    (DifficultyController.s_stimulusInterval difficulty)
    sprt
    (AbilityModel.s_rtMedian ability) (AbilityModel.s_rtCV ability)
    (AbilityModel.s_hits ability) (AbilityModel.s_misses ability)
    (AbilityModel.s_falseAlarms ability)
    (AbilityModel.s_correctRejections ability)
    (DifficultyController.s_currentUniqueColors difficulty)
    (DifficultyController.s_maxUniqueColors difficulty)
    (DifficultyController.s_minUniqueColors difficulty)
    performance performance performance
    (AbilityModel.s_totalTrials ability)
    (AbilityModel.getFlowScore (abilityModel tr))
    (Rgtb (AbilityModel.getFatigueIndex (abilityModel tr)) 0.6)
    (DifficultyController.s_piError difficulty)
    (DifficultyController.s_piIntegral difficulty).

Definition reset (tr : t) : t :=
  mk (n tr) (colors tr) (AbilityModel.reset (abilityModel tr))
     (DifficultyController.new (n tr))
     (SPRTStopper.reset (sprtStopper tr))
     (ColorSequenceGenerator.new (n tr) (colors tr))
     (MatchGenerator.new 0.30) 0 None (lastTrialCorrect tr)
     (excludedPositions tr).

(** The assignments of [warmStart] to the ability model. *)
Definition warmAbility (ab : AbilityModel.t) (strategic : option Strategic)
    (recency : option Recency) : AbilityModel.t :=
  let theta' :=
    match strategic with
    | Some s => orElse (st_theta s) (AbilityModel.theta ab)
    | None => AbilityModel.theta ab
    end in
  let totalTrials' :=
    match strategic with
    | Some s => orElse (st_totalTrials s) (AbilityModel.totalTrials ab)
    | None => AbilityModel.totalTrials ab
    end in
  match recency with
  | Some r =>
    AbilityModel.mk
      (orElse (rc_trialWindow r) (AbilityModel.trialWindow ab))
      theta'
      (orElse (rc_thetaWindow r) (AbilityModel.thetaWindow ab))
      (orElse (rc_rtWindow r) (AbilityModel.rtWindow ab))
      totalTrials'
  | None =>
    AbilityModel.mk (AbilityModel.trialWindow ab) theta'
      (AbilityModel.thetaWindow ab) (AbilityModel.rtWindow ab) totalTrials'
  end.

(** The assignments of [warmStart] to the difficulty controller. *)
Definition warmController (dc : DifficultyController.t)
    (strategic : option Strategic) (recency : option Recency)
    : DifficultyController.t :=
  let pick {A} (f : Strategic -> option A) (d : A) : A :=
    match strategic with Some s => orElse (f s) d | None => d end in
  let pickR {A} (f : Recency -> option A) (d : A) : A :=
    match recency with Some r => orElse (f r) d | None => d end in
  DifficultyController.mk
    (DifficultyController.n dc)
    (pick st_integral (DifficultyController.integral dc))
    (pick st_targetEntropy (DifficultyController.targetEntropy dc))
    (pick st_matchRate (DifficultyController.matchRate dc))
    (DifficultyController.stimulusInterval dc)
    (pick st_tse (DifficultyController.tse dc))
    (DifficultyController.maxUniqueColors dc)
    (pick st_currentUniqueColors
          (DifficultyController.currentUniqueColors dc))
    (DifficultyController.stepHoldIncrease dc)
    (DifficultyController.stepHoldDecrease dc)
    (pickR rc_stepHoldCounter (DifficultyController.stepHoldCounter dc))
    (pickR rc_pendingUniqueColors
           (DifficultyController.pendingUniqueColors dc))
    (DifficultyController.entropyClimbRate dc)
    (DifficultyController.entropyDropRate dc).

Definition warmStart (tr : t) (strategic : option Strategic)
    (recency : option Recency) : t :=
  mk (n tr) (colors tr)
     (warmAbility (abilityModel tr) strategic recency)
     (warmController (difficultyController tr) strategic recency)
     (sprtStopper tr) (colorGenerator tr) (matchGenerator tr)
     (trialNumber tr) (currentTile tr) (lastTrialCorrect tr)
     (excludedPositions tr).

Definition getCurrentN (tr : t) : nat := n tr.

End WorkingMemoryTrainer.

(** ** NBackEngine (facade) *)

Module NBackEngine.

Record t : Type := mk {
  currentN : nat;
  colors : list paletteColor;
  trainer : WorkingMemoryTrainer.t;
  currentTile : option WorkingMemoryTrainer.tile
}.

(** [options.startN || 2] and [options.colors || []]. *)
Definition new (startN : option nat) (colors0 : option (list paletteColor))
    : t :=
  let n0 := match startN with
            | Some O | None => 2%nat
            | Some k => k
            end in
  let cs := orElse colors0 [] in
  mk n0 cs (WorkingMemoryTrainer.new n0 cs) None.

Definition setTrainer (e : t) (tr : WorkingMemoryTrainer.t) : t :=
  mk (currentN e) (colors e) tr (currentTile e).

Definition generateNextTile (e : t)
    : Rand (WorkingMemoryTrainer.tile * t) :=
  generated <- WorkingMemoryTrainer.generateNextTrial (trainer e) ;;
  ret (fst generated,
       mk (currentN e) (colors e) (snd generated) (Some (fst generated))).

(** [None] is the thrown [Error('No current tile')]. *)
Definition onUserResponse (e : t) (userClicked wasMatch : bool)
    (reactionTime : R) : option WorkingMemoryTrainer.response * t :=
  match currentTile e with
  | None => (None, e)
  | Some _ =>
    let '(result, tr) :=
      WorkingMemoryTrainer.recordResponse (trainer e) userClicked wasMatch
        reactionTime in
    (Some result, setTrainer e tr)
  end.

Definition getCurrentN (e : t) : nat := currentN e.

Definition setExcludedPositions (e : t)
    (positions : option (list WorkingMemoryTrainer.position)) : t :=
  setTrainer e (WorkingMemoryTrainer.setExcludedPositions (trainer e)
                  positions).

Definition onPoorPerformanceStop (e : t) : t :=
  let tr := trainer e in
  setTrainer e
    (WorkingMemoryTrainer.mk
       (WorkingMemoryTrainer.n tr) (WorkingMemoryTrainer.colors tr)
       (WorkingMemoryTrainer.abilityModel tr)
       (DifficultyController.onSessionStopped
          (WorkingMemoryTrainer.difficultyController tr))
       (SPRTStopper.reset (WorkingMemoryTrainer.sprtStopper tr))
       (WorkingMemoryTrainer.colorGenerator tr)
       (WorkingMemoryTrainer.matchGenerator tr)
       (WorkingMemoryTrainer.trialNumber tr)
       (WorkingMemoryTrainer.currentTile tr)
       (WorkingMemoryTrainer.lastTrialCorrect tr)
       (WorkingMemoryTrainer.excludedPositions tr)).

Definition shouldStopSession (e : t) : bool * t :=
  if negb (SPRTStopper.shouldStop
             (WorkingMemoryTrainer.sprtStopper (trainer e)))
  then (false, e)
  else (true, onPoorPerformanceStop e).

(** A trial of the caller's round history, as far as
    [shouldStopForErrors] reads it ([None] is [null]). *)
Record trial : Type := mkTrial {
  t_wasMatch : option bool;
  t_userClicked : option bool
}.

Definition isSome {A} (o : option A) : bool :=
  match o with Some _ => true | None => false end.

Definition isError (tr : trial) : bool :=
  let clicked := orElse (t_userClicked tr) false in
  let matched := orElse (t_wasMatch tr) false in
  (clicked && negb matched) || (negb clicked && matched).

Definition shouldStopForErrors (e : t) (recentTrials : list trial)
    (errorThreshold : Z) : bool * t :=
  let respondedTrials := filter (fun tr => isSome (t_wasMatch tr))
                                recentTrials in
  if (Z.of_nat (length respondedTrials)
      <? Z.of_nat (length recentTrials) - 1)%Z
  then (false, e)
  else
    let errors := length (filter isError respondedTrials) in
    if (Z.of_nat errors >=? errorThreshold)%Z
    then (true, onPoorPerformanceStop e)
    else (false, e).

Record workingMemoryStats : Type := mkWorkingMemoryStats {
  wm_currentLoad : nat;
  wm_targetUniqueColors : Z;
  wm_maxUniqueColors : Z;
  wm_minUniqueColors : Z;
  wm_performanceEMA : R;
  wm_progressToMax : R;
  wm_piError : R;
  wm_piIntegral : R
}.

Record stats : Type := mkStats {
  s_currentN : nat;
  s_accuracy : R;
  s_confidence : R;
  s_theta : R;
  s_thetaTrend : R;
  s_flowScore : R;
  s_fatigueIndex : R;
  s_targetEntropy : R;
  s_windowEntropy : R;
  s_matchRate : R;
  s_stimulusInterval : R;
  s_tse : R;
  s_sprtStatus : SPRTStopper.status;
  s_rtMedian : R;
  s_rtCV : R;
  s_workingMemory : workingMemoryStats;
  s_totalTrials : Z;
  s_isRecovery : bool
}.

Definition getStats (e : t) : stats :=
  let st := WorkingMemoryTrainer.getStats (trainer e) in
  mkStats (currentN e)
    (WorkingMemoryTrainer.s_accuracy st)
    (WorkingMemoryTrainer.s_confidence st)
    (WorkingMemoryTrainer.s_theta st)
    (WorkingMemoryTrainer.s_thetaTrend st)
    (WorkingMemoryTrainer.s_flowScore st)
    (WorkingMemoryTrainer.s_fatigueIndex st)
    (WorkingMemoryTrainer.s_targetEntropy st)
    (WorkingMemoryTrainer.s_windowEntropy st)
    (WorkingMemoryTrainer.s_matchRate st)
    (WorkingMemoryTrainer.s_stimulusInterval st)
    (WorkingMemoryTrainer.s_tse st)
    (WorkingMemoryTrainer.s_sprtStatus st)
    (WorkingMemoryTrainer.s_rtMedian st)
    (WorkingMemoryTrainer.s_rtCV st)
    (mkWorkingMemoryStats
       (WorkingMemoryTrainer.s_currentLoad st)
       (WorkingMemoryTrainer.s_targetUniqueColors st)
       (WorkingMemoryTrainer.s_maxUniqueColors st)
       (WorkingMemoryTrainer.s_minUniqueColors st)
       (WorkingMemoryTrainer.s_performanceEMA st)
       (IZR (WorkingMemoryTrainer.s_targetUniqueColors st)
        / IZR (WorkingMemoryTrainer.s_maxUniqueColors st))
       (WorkingMemoryTrainer.s_piError st)
       (WorkingMemoryTrainer.s_piIntegral st))
    (WorkingMemoryTrainer.s_totalTrials st)
    (WorkingMemoryTrainer.s_isRecovery st).

Definition reset (e : t) : t :=
  mk (currentN e) (colors e) (WorkingMemoryTrainer.reset (trainer e)) None.

Definition warmStart (e : t) (strategic : option Strategic)
    (recency : option Recency) : t :=
  mk (currentN e) (colors e)
     (WorkingMemoryTrainer.warmStart (trainer e) strategic recency) None.

Record json : Type := mkJson {
  j_currentN : nat;
  j_savedAt : R;
  j_strategic : Strategic;
  j_recency : Recency
}.

(** [now] is the value of [Date.now()]. *)
Definition toJSON (e : t) (now : R) : json :=
  let ab := WorkingMemoryTrainer.abilityModel (trainer e) in
  let dc := WorkingMemoryTrainer.difficultyController (trainer e) in
  mkJson (currentN e) now
    (mkStrategic
       (Some (AbilityModel.theta ab))
       (Some (DifficultyController.targetEntropy dc))
       (Some (DifficultyController.tse dc))
       (Some (DifficultyController.currentUniqueColors dc))
       (Some (DifficultyController.integral dc))
       (Some (DifficultyController.matchRate dc))
       (Some (AbilityModel.totalTrials ab)))
    (mkRecency
       (Some (AbilityModel.trialWindow ab))
       (Some (AbilityModel.thetaWindow ab))
       (Some (AbilityModel.rtWindow ab))
       (Some (DifficultyController.stepHoldCounter dc))
       (Some (DifficultyController.pendingUniqueColors dc))).

(** *** Public operations as data, and their effect on the engine *)

Inductive op : Type :=
| GenerateNextTile
| OnUserResponse (userClicked wasMatch : bool) (reactionTime : R)
| GetCurrentN
| SetExcludedPositions
    (positions : option (list WorkingMemoryTrainer.position))
| OnPoorPerformanceStop
| ShouldStopSession
| ShouldStopForErrors (recentTrials : list trial) (errorThreshold : Z)
| GetStats
| Reset
| WarmStart (strategic : option Strategic) (recency : option Recency)
| ToJSON (now : R).

Definition step (e : t) (o : op) : Rand t :=
  match o with
  | GenerateNextTile =>
    generated <- generateNextTile e ;; ret (snd generated)
  | OnUserResponse userClicked wasMatch reactionTime =>
    ret (snd (onUserResponse e userClicked wasMatch reactionTime))
  | GetCurrentN => ret e
  | SetExcludedPositions positions => ret (setExcludedPositions e positions)
  | OnPoorPerformanceStop => ret (onPoorPerformanceStop e)
  | ShouldStopSession => ret (snd (shouldStopSession e))
  | ShouldStopForErrors recentTrials errorThreshold =>
    ret (snd (shouldStopForErrors e recentTrials errorThreshold))
  | GetStats => ret e
  | Reset => ret (reset e)
  | WarmStart strategic recency => ret (warmStart e strategic recency)
  | ToJSON _ => ret e
  end.

Fixpoint run (e : t) (ops : list op) : Rand t :=
  match ops with
  | [] => ret e
  | o :: ops' => e' <- step e o ;; run e' ops'
  end.

(** The ability estimate read through the facade. *)
Definition thetaOf (e : t) : R :=
  AbilityModel.theta (WorkingMemoryTrainer.abilityModel (trainer e)).

End NBackEngine.

(** ** Vocabulary of the verified properties *)

(** The ranges the data model gives the controller's knobs; established by
    the constructor and kept by [update] and [onSessionStopped]. *)
Definition knobsInRange (d : DifficultyController.t) : Prop :=
  0 <= DifficultyController.targetEntropy d <= 1
  /\ 0 <= DifficultyController.tse d <= 1
  /\ 0.25 <= DifficultyController.matchRate d <= 0.40.

(** States of the stopper after a run of trials, oldest first. *)
Fixpoint sprtRun (s : SPRTStopper.t) (trials : list (bool * bool))
    : SPRTStopper.t :=
  match trials with
  | [] => s
  | (correct, wasMatch) :: rest =>
    sprtRun (fst (SPRTStopper.recordTrial s correct wasMatch)) rest
  end.

(** ** Fixed-point tools for bounding [exp] *)

(** [k] squarings of [y]: [y ^ (2 ^ k)]. *)
Fixpoint iterSquare (k : nat) (y : R) : R :=
  match k with
  | O => y
  | S k' => iterSquare k' (y * y)
  end.

(** The same on a numerator [m] over the denominator [scale], each square
    rounded down. *)
Fixpoint squareDown (k : nat) (m scale : Z) : Z :=
  match k with
  | O => m
  | S k' => squareDown k' (m * m / scale) scale
  end.

(** The stopper after seven correct target trials from a fresh start. *)
Definition sprtAfterSevenHits : SPRTStopper.t :=
  sprtRun SPRTStopper.new (repeat (true, true) 7).

(** ** Runs of the difficulty controller *)

(** The controller after a sequence of [update] calls, one ability-model
    snapshot per call, oldest first. *)
Fixpoint dcRun (d : DifficultyController.t) (inputs : list AbilityModel.t)
    : DifficultyController.t :=
  match inputs with
  | [] => d
  | a :: rest => dcRun (DifficultyController.update d a) rest
  end.

(** The controller on entry to call number [i] (counting from 0). *)
Definition dcBefore (d : DifficultyController.t)
    (inputs : list AbilityModel.t) (i : nat) : DifficultyController.t :=
  dcRun d (firstn i inputs).

(** The candidate colour count computed inside call number [i]. *)
Definition dcCandidateAt (d : DifficultyController.t)
    (inputs : list AbilityModel.t) (i : nat) : option Z :=
  match nth_error inputs i with
  | Some a => Some (DifficultyController.candidateColors
                      (dcBefore d inputs i) a)
  | None => None
  end.

(** An ability snapshot far above the target zone, with empty rolling
    windows: every [update] on it pushes the knobs to their maximum. *)
Definition strongInput : AbilityModel.t := AbilityModel.mk [] 102 [] [] 0.

(** ** How the facade may change theta *)

(** The palette of the application. *)
Definition palette : list paletteColor :=
  [ mkPaletteColor "blue" 1; mkPaletteColor "purple" 2;
    mkPaletteColor "green" 3; mkPaletteColor "yellow" 4;
    mkPaletteColor "orange" 5; mkPaletteColor "brown" 6;
    mkPaletteColor "red" 7; mkPaletteColor "black" 8 ].

(** A stream of draws that are all zero, read from position [p], and from
    its start. *)
Definition zeroDrawsFrom (p : nat) : rng := mkRng (fun _ => 0) p.
Definition zeroDraws : rng := zeroDrawsFrom 0.

(** The trial window behind the facade. *)
Definition trialWindowOf (e : NBackEngine.t) : list AbilityModel.outcome :=
  AbilityModel.trialWindow
    (WorkingMemoryTrainer.abilityModel (NBackEngine.trainer e)).

(** "theta is only ever updated through the EMA blend": an operation that
    takes the engine from [e] to [e'] leaves theta alone, or is [reset]
    and leaves the neutral prior, or is a response and blends the raw
    sensitivity of the updated window into theta with factor 0.15. *)
Definition thetaEmaOnly (e : NBackEngine.t) (o : NBackEngine.op)
    (e' : NBackEngine.t) : Prop :=
  NBackEngine.thetaOf e' = NBackEngine.thetaOf e
  \/ (o = NBackEngine.Reset /\ NBackEngine.thetaOf e' = 1.5)
  \/ (exists userClicked wasMatch reactionTime,
         o = NBackEngine.OnUserResponse userClicked wasMatch reactionTime
         /\ NBackEngine.thetaOf e'
            = (1 - 0.15) * NBackEngine.thetaOf e
              + 0.15 * AbilityModel.rawDPrime (trialWindowOf e')).

(** A persisted profile that only carries theta = 3. *)
Definition thetaOnlyProfile : Strategic :=
  mkStrategic (Some 3) None None None None None None.

(** ** A match generator starved of matches on a short window *)

(** [k] trials without a match, registered from [m]. *)
Fixpoint registerMisses (m : MatchGenerator.t) (k : nat) : MatchGenerator.t :=
  match k with
  | O => m
  | S k' => registerMisses (MatchGenerator.registerActualMatch m false) k'
  end.

(** The window after the colours of [cs] were shown, oldest first. *)
Definition windowAfter (n : nat) (cs : list jsval) : WorkingMemoryState.t :=
  fold_left WorkingMemoryState.addColor cs (WorkingMemoryState.new n).

(** Seven trials into a session at n = 8: no match was possible yet. *)
Definition starvedGenerator : MatchGenerator.t :=
  registerMisses (MatchGenerator.new 0.30) 7.

Definition sevenColors : WorkingMemoryState.t :=
  windowAfter 8 [JStr "blue"; JStr "purple"; JStr "green"; JStr "yellow";
                 JStr "orange"; JStr "brown"; JStr "red"].

(** ** The window check of the sequence generator *)

(** Distinct colours in the window once [c] is appended to [w]. *)
Definition distinctAfter (n : nat) (w : list jsval) (c : jsval) : Z :=
  Z.of_nat (set_size (slice_last (n + 1) (w ++ [c]))).

(** Every draw of the stream lies in [0, 1), as [Math.random] promises. *)
Definition drawsInRange (k : rng) : Prop :=
  forall i : nat, 0 <= stream k i < 1.

(** [c] is an output of the [forceRepair] fallback on window [w], for
    draws in [0, 1). *)
Definition fromRepair (g : ColorSequenceGenerator.t) (w : list jsval)
    (target : Z) (c : jsval) : Prop :=
  exists k0 : rng,
    drawsInRange k0
    /\ c = fst (ColorSequenceGenerator.forceRepair g w target k0).

(** The generator's window belongs to the same n and is capped at n + 1. *)
Definition windowCapped (g : ColorSequenceGenerator.t) : Prop :=
  WorkingMemoryState.n (ColorSequenceGenerator.memoryState g)
  = ColorSequenceGenerator.n g
  /\ (length (WorkingMemoryState.recentColors
                (ColorSequenceGenerator.memoryState g))
      <= ColorSequenceGenerator.n g + 1)%nat.

(** The generator state in the middle of a session at n = 2 whose target
    was 3: three distinct colours in the window. *)
Definition afterThreeColors : ColorSequenceGenerator.t :=
  ColorSequenceGenerator.mk 2 palette
    (windowAfter 2 [JStr "blue"; JStr "purple"; JStr "green"])
    None (Some 3%Z).

(** A stream whose draws are all 0.9. *)
Definition highDraws : rng := mkRng (fun _ => 0.9) 0.

(** [c] passed the window check for [target], or came from the repair
    fallback. *)
Definition checkedOrRepaired (g : ColorSequenceGenerator.t) (w : list jsval)
    (target : Z) (c : jsval) : Prop :=
  distinctAfter (ColorSequenceGenerator.n g) w c = target
  \/ fromRepair g w target c.

(** Two generator states that differ at most in the active set and the
    last target. *)
Definition sameSetting (g g' : ColorSequenceGenerator.t) : Prop :=
  ColorSequenceGenerator.n g' = ColorSequenceGenerator.n g
  /\ ColorSequenceGenerator.availableColors g'
     = ColorSequenceGenerator.availableColors g
  /\ ColorSequenceGenerator.memoryState g'
     = ColorSequenceGenerator.memoryState g.

(** *** Steady windows

    The window holds exactly [target] distinct colours. *)
Definition atTarget (g : ColorSequenceGenerator.t) (target : Z) : Prop :=
  Z.of_nat (set_size (WorkingMemoryState.recentColors
                        (ColorSequenceGenerator.memoryState g))) = target.

(** The oldest colour of the window occurs again later in the window. *)
Definition oldestRepeats (w : list jsval) : bool :=
  match w with
  | [] => false
  | oldest :: rest => js_includes rest oldest
  end.

(** What an n-back match can leave behind: a full window one colour short
    of [target] whose oldest colour occurs again, so that the next colour
    pushes out a duplicate. *)
Definition afterMatch (g : ColorSequenceGenerator.t) (target : Z) : Prop :=
  let w := WorkingMemoryState.recentColors
             (ColorSequenceGenerator.memoryState g) in
  Z.of_nat (set_size w) = (target - 1)%Z
  /\ length w = (ColorSequenceGenerator.n g + 1)%nat
  /\ oldestRepeats w = true.

(** The palette offers at least [target] different names. *)
Definition paletteOffers (g : ColorSequenceGenerator.t) (target : Z) : Prop :=
  (target
   <= Z.of_nat (set_size (colorNames
                            (ColorSequenceGenerator.availableColors g))))%Z.

(** A trial starts from a steady window: at the target, or right after a
    match with a palette that can supply the missing colour. *)
Definition steadyWindow (g : ColorSequenceGenerator.t) (target : Z) : Prop :=
  atTarget g target \/ (afterMatch g target /\ paletteOffers g target).

(** A session at n = 2 and target 3 right after an n-back match:
    the window [purple, green, purple]. *)
Definition afterMatchOnPurple : ColorSequenceGenerator.t :=
  ColorSequenceGenerator.mk 2 palette
    (windowAfter 2 [JStr "purple"; JStr "green"; JStr "purple"])
    None (Some 3%Z).

(** One trial of the generator alone: emit a colour and insert it. *)
Definition emit (g : ColorSequenceGenerator.t) (targetUniqueColors : Z)
    (shouldMatch : bool) (isForced : bool) (tse : R)
    : Rand ColorSequenceGenerator.t :=
  generated <- ColorSequenceGenerator.generateNextColor g targetUniqueColors
                 shouldMatch
                 (MatchGenerator.getNBackColor
                    (ColorSequenceGenerator.memoryState g))
                 isForced tse ;;
  ret (ColorSequenceGenerator.updateMemoryState (snd generated)
         (fst generated)).

(** ** A run of correct target trials *)

Definition hit : AbilityModel.outcome := AbilityModel.mkOutcome true true.

(** The ability model after [k] consecutive correct target trials
    ([wasMatch = true], [userClicked = true]) answered in 500 ms, from a
    freshly constructed model. *)
Fixpoint hitsRun (k : nat) : AbilityModel.t :=
  match k with
  | O => AbilityModel.new
  | S k' => AbilityModel.recordTrial (hitsRun k') true true 500
  end.

Definition thetaAfter (k : nat) : R := AbilityModel.theta (hitsRun k).

(** The raw sensitivity of a window of [k] hits. *)
Definition rawHits (k : nat) : R := AbilityModel.rawDPrime (repeat hit k).

(** Numerator and denominator of the tail branch of [invNorm]. *)
Definition tailNumerator (q : R) : R :=
  ((((-7.784894002430293e-3 * q + -3.223964580411365e-1) * q
     + -2.400758277161838e0) * q + -2.549732539343734e0) * q
   + 4.374664141464968e0) * q + 2.938163982698783e0.

Definition tailDenominator (q : R) : R :=
  (((7.784695709041462e-3 * q + 3.224671290700398e-1) * q
    + 2.445134137142996e0) * q + 3.754408661907416e0) * q + 1.

(** Bounds of the tail numerator on [qlo, qhi], term by term. *)
Definition tailNumeratorUpper (qlo qhi : R) : R :=
  -7.784894002430293e-3 * qlo ^ 5 + -3.223964580411365e-1 * qlo ^ 4
  + -2.400758277161838e0 * qlo ^ 3 + -2.549732539343734e0 * qlo ^ 2
  + 4.374664141464968e0 * qhi + 2.938163982698783e0.

Definition tailNumeratorLower (qlo qhi : R) : R :=
  -7.784894002430293e-3 * qhi ^ 5 + -3.223964580411365e-1 * qhi ^ 4
  + -2.400758277161838e0 * qhi ^ 3 + -2.549732539343734e0 * qhi ^ 2
  + 4.374664141464968e0 * qlo + 2.938163982698783e0.

(** * Further parts of the program *)

(** ** Runs of the ability model *)

(** A recorded trial: [wasMatch], [userClicked] and the reaction time. *)
Definition recorded : Type := (bool * bool * R)%type.

Definition outcomeOf (tr : recorded) : AbilityModel.outcome :=
  AbilityModel.mkOutcome (fst (fst tr)) (snd (fst tr)).

(** The ability model after a sequence of recorded trials, oldest first. *)
Definition abilityRun (a : AbilityModel.t) (trials : list recorded)
    : AbilityModel.t :=
  fold_left
    (fun a0 tr =>
       AbilityModel.recordTrial a0 (fst (fst tr)) (snd (fst tr)) (snd tr))
    trials a.

(** A list of numbers in ascending order. *)
Fixpoint ascending (l : list R) : Prop :=
  match l with
  | [] => True
  | x :: l' => Forall (Rle x) l' /\ ascending l'
  end.

(** ** Histories of the difficulty controller *)

(** The two calls that change a controller: [update] with the ability
    model of the moment, and [onSessionStopped]. *)
Inductive dcOp : Type :=
| DcUpdate (a : AbilityModel.t)
| DcSessionStopped.

Definition dcStep (d : DifficultyController.t) (o : dcOp)
    : DifficultyController.t :=
  match o with
  | DcUpdate a => DifficultyController.update d a
  | DcSessionStopped => DifficultyController.onSessionStopped d
  end.

(** The controller after a history of calls, oldest first. *)
Definition dcOps (d : DifficultyController.t) (ops : list dcOp)
    : DifficultyController.t :=
  fold_left dcStep ops d.

(** What every history keeps true of a controller. *)
Definition controllerInv (d : DifficultyController.t) : Prop :=
  knobsInRange d
  /\ -3 <= DifficultyController.integral d <= 3
  /\ (2 <= DifficultyController.currentUniqueColors d
      <= Z.max 2 (Z.of_nat (DifficultyController.n d) + 1))%Z
  /\ DifficultyController.maxUniqueColors d
     = (Z.of_nat (DifficultyController.n d) + 1)%Z
  /\ (0 <= DifficultyController.stepHoldCounter d)%Z
  /\ (DifficultyController.stimulusInterval d = 0.95
      \/ DifficultyController.stimulusInterval d = 1.0
      \/ DifficultyController.stimulusInterval d = 1.05)
  /\ 0.06 <= DifficultyController.entropyClimbRate d <= 0.12
  /\ DifficultyController.entropyDropRate d
     = DifficultyController.entropyClimbRate d * 2.

(** ** The presentation timing of the application *)

Definition DISPLAY_TIME : R := 500.
Definition INTERVAL_TIME : R := 2500.

(** [x || d] on numbers: 0 is falsy. *)
Definition numberOr (x d : R) : R := if Reqb x 0 then d else x.

(** [nbackEngine] is [null] before the first game ([None]). *)
Definition adaptiveFactor (nbackEngine : option NBackEngine.t) : R :=
  match nbackEngine with
  | Some e => numberOr (NBackEngine.s_stimulusInterval
                          (NBackEngine.getStats e)) 1.0
  | None => 1.0
  end.

Definition getAdaptiveInterval (nbackEngine : option NBackEngine.t) : R :=
  INTERVAL_TIME * adaptiveFactor nbackEngine.

Definition getAdaptiveDisplayTime (nbackEngine : option NBackEngine.t) : R :=
  DISPLAY_TIME * adaptiveFactor nbackEngine.

(** The speed multiplier behind the facade. *)
Definition stimulusIntervalOf (e : NBackEngine.t) : R :=
  DifficultyController.stimulusInterval
    (WorkingMemoryTrainer.difficultyController (NBackEngine.trainer e)).

(** A run of incorrect trials; [kinds] says for each one whether it was a
    target trial. *)
Definition errorsRun (kinds : list bool) : SPRTStopper.t :=
  sprtRun SPRTStopper.new (map (fun wasMatch => (false, wasMatch)) kinds).

(** ** Hidden cells of the application's grid *)

(** [deactivatedCells.map(index => ({ row: Math.floor(index / 3),
    col: index % 3 }))] on integer cell indices. *)
Definition getExcludedPositions (deactivatedCells : list Z)
    : list WorkingMemoryTrainer.position :=
  map (fun index =>
         WorkingMemoryTrainer.mkPosition (index / 3)%Z (Z.rem index 3))
      deactivatedCells.

(** [tile.position.row * 3 + tile.position.col]. *)
Definition cellIndex (p : WorkingMemoryTrainer.position) : Z :=
  (WorkingMemoryTrainer.row p * 3 + WorkingMemoryTrainer.col p)%Z.

(** A trainer at n = 1 that showed blue once and has gone nine trials
    without a match. *)
Definition droughtTrainer : WorkingMemoryTrainer.t :=
  WorkingMemoryTrainer.mk 1 palette AbilityModel.new
    (DifficultyController.new 1) SPRTStopper.new
    (ColorSequenceGenerator.mk 1 palette (windowAfter 1 [JStr "blue"])
       None None)
    (MatchGenerator.mk 0.30 [] 9 6) 1 None true [].

(** The speed multiplier is one of the three values [update] assigns. *)
Definition speedOk (e : NBackEngine.t) : Prop :=
  stimulusIntervalOf e = 0.95 \/ stimulusIntervalOf e = 1.0
  \/ stimulusIntervalOf e = 1.05.

(** ** Colours that come from the palette *)

Definition namesOf (g : ColorSequenceGenerator.t) : list jsval :=
  colorNames (ColorSequenceGenerator.availableColors g).

(** The palette is not empty, and the window and the active set hold
    palette names only. *)
Definition fromPalette (g : ColorSequenceGenerator.t) : Prop :=
  namesOf g <> []
  /\ incl (WorkingMemoryState.recentColors
             (ColorSequenceGenerator.memoryState g)) (namesOf g)
  /\ incl (ColorSequenceGenerator.activeOrEmpty g) (namesOf g).

(** What the output of a generation step must satisfy. *)
Definition paletteOut (g : ColorSequenceGenerator.t)
    (out : jsval * ColorSequenceGenerator.t) : Prop :=
  In (fst out) (namesOf g)
  /\ incl (ColorSequenceGenerator.activeOrEmpty (snd out)) (namesOf g)
  /\ sameSetting g (snd out).

(** Engines reachable from [e0] by public operations, each run on a
    source of draws in [0, 1). *)
Inductive reachableFrom (e0 : NBackEngine.t) : NBackEngine.t -> Prop :=
| reach_start : reachableFrom e0 e0
| reach_step (e : NBackEngine.t) (o : NBackEngine.op) (k : rng) :
    reachableFrom e0 e -> drawsInRange k ->
    reachableFrom e0 (fst (NBackEngine.step e o k)).

(** What every reachable engine keeps true of its generator, for the
    palette [colors] it was constructed with. *)
Definition engineInv (colors : list paletteColor) (e : NBackEngine.t)
    : Prop :=
  WorkingMemoryTrainer.colors (NBackEngine.trainer e) = colors
  /\ ColorSequenceGenerator.availableColors
       (WorkingMemoryTrainer.colorGenerator (NBackEngine.trainer e))
     = colors
  /\ fromPalette (WorkingMemoryTrainer.colorGenerator (NBackEngine.trainer e)).

(** One of the names [N], or [undefined]. *)
Definition nameOrUndefined (N : list jsval) (c : jsval) : Prop :=
  In c N \/ c = JUndefined.

(** What the output of a generation step satisfies on any draws. *)
Definition looseOut (N : list jsval) (g : ColorSequenceGenerator.t)
    (out : jsval * ColorSequenceGenerator.t) : Prop :=
  nameOrUndefined N (fst out)
  /\ Forall (nameOrUndefined N)
            (ColorSequenceGenerator.activeOrEmpty (snd out))
  /\ sameSetting g (snd out).

(** What every engine keeps true of its generator, for the palette
    [colors] it was constructed with, on any draws. *)
Definition looseInv (colors : list paletteColor) (e : NBackEngine.t)
    : Prop :=
  let g := WorkingMemoryTrainer.colorGenerator (NBackEngine.trainer e) in
  WorkingMemoryTrainer.colors (NBackEngine.trainer e) = colors
  /\ ColorSequenceGenerator.availableColors g = colors
  /\ Forall (nameOrUndefined (colorNames colors))
            (WorkingMemoryState.recentColors
               (ColorSequenceGenerator.memoryState g))
  /\ Forall (nameOrUndefined (colorNames colors))
            (ColorSequenceGenerator.activeOrEmpty g).

(** Engines reachable from [e0] by public operations on arbitrary sources
    of draws. *)
Inductive reachableAnyDraws (e0 : NBackEngine.t) : NBackEngine.t -> Prop :=
| reachAny_start : reachableAnyDraws e0 e0
| reachAny_step (e : NBackEngine.t) (o : NBackEngine.op) (k : rng) :
    reachableAnyDraws e0 e ->
    reachableAnyDraws e0 (fst (NBackEngine.step e o k)).

(** The controller after [k] session stops in a row. *)
Fixpoint stopsRun (d : DifficultyController.t) (k : nat)
    : DifficultyController.t :=
  match k with
  | O => d
  | S k' => DifficultyController.onSessionStopped (stopsRun d k')
  end.

(** * Verified properties *)

(** ** Comparisons on reals *)

Lemma Rltb_true (x y : R) : x < y -> Rltb x y = true.
Proof. intros H; unfold Rltb; destruct (Rlt_dec x y); [reflexivity | contradiction]. Qed.

Lemma Rltb_false (x y : R) : y <= x -> Rltb x y = false.
Proof. intros H; unfold Rltb; destruct (Rlt_dec x y); [lra | reflexivity]. Qed.

Lemma Rleb_true (x y : R) : x <= y -> Rleb x y = true.
Proof. intros H; unfold Rleb; destruct (Rle_dec x y); [reflexivity | contradiction]. Qed.

Lemma Rleb_false (x y : R) : y < x -> Rleb x y = false.
Proof. intros H; unfold Rleb; destruct (Rle_dec x y); [lra | reflexivity]. Qed.

(** ** Invalid reaction times (C3) *)

(** C3. A response whose reaction time is below 150 ms or above 5000 ms is
    classified invalid: [recordResponse] leaves the ability model, the
    difficulty controller and the stopper (indeed the whole trainer)
    unchanged, and still returns a result with [isValid = false] and the
    computed [correct], [wasMatch] and [feedback]. *)
Theorem recordResponse_invalid_leaves_state
    (tr : WorkingMemoryTrainer.t) (userClicked wasMatch : bool)
    (reactionTime : R) :
  reactionTime < 150 \/ reactionTime > 5000 ->
  let result := fst (WorkingMemoryTrainer.recordResponse tr userClicked
                       wasMatch reactionTime) in
  let tr' := snd (WorkingMemoryTrainer.recordResponse tr userClicked
                    wasMatch reactionTime) in
  WorkingMemoryTrainer.abilityModel tr' = WorkingMemoryTrainer.abilityModel tr
  /\ WorkingMemoryTrainer.difficultyController tr'
     = WorkingMemoryTrainer.difficultyController tr
  /\ WorkingMemoryTrainer.sprtStopper tr' = WorkingMemoryTrainer.sprtStopper tr
  /\ tr' = tr
  /\ WorkingMemoryTrainer.r_isValid result = false
  /\ WorkingMemoryTrainer.r_correct result = Bool.eqb userClicked wasMatch
  /\ WorkingMemoryTrainer.r_wasMatch result = wasMatch
  /\ WorkingMemoryTrainer.r_feedback result
     = WorkingMemoryTrainer.generateFeedback (Bool.eqb userClicked wasMatch)
         wasMatch.
Proof.
  intros Hrt.
  assert (Hinvalid : WorkingMemoryTrainer.isValidTrial reactionTime = false).
  { unfold WorkingMemoryTrainer.isValidTrial, Rgtb.
    destruct Hrt as [Hfast | Hslow].
    - rewrite Rltb_true by assumption. reflexivity.
    - rewrite (Rltb_false reactionTime 150) by lra.
      rewrite Rltb_true by lra. reflexivity. }
  unfold WorkingMemoryTrainer.recordResponse.
  rewrite Hinvalid. cbn. repeat split; reflexivity.
Qed.

Lemma recordResponse_invalid_leaves_state_witness :
  let tr := WorkingMemoryTrainer.new 2 [] in
  snd (WorkingMemoryTrainer.recordResponse tr true false 100) = tr
  /\ WorkingMemoryTrainer.r_isValid
       (fst (WorkingMemoryTrainer.recordResponse tr true false 100)) = false.
Proof.
  intros tr.
  assert (Hrt : 100 < 150 \/ 100 > 5000) by (left; lra).
  destruct (recordResponse_invalid_leaves_state tr true false 100 Hrt)
    as (_ & _ & _ & Hsame & Hvalid & _).
  split; assumption.
Defined.

(** ** The knob ranges are an invariant of the controller *)

Lemma clamp_range (lo hi x : R) :
  lo <= hi -> lo <= Rmax lo (Rmin hi x) <= hi.
Proof.
  intros Hle. unfold Rmax, Rmin.
  destruct (Rle_dec hi x); destruct (Rle_dec lo _); lra.
Qed.

Lemma knobsInRange_new (n : nat) : knobsInRange (DifficultyController.new n).
Proof. unfold knobsInRange; cbn; lra. Qed.

Lemma knobsInRange_update (d : DifficultyController.t) (a : AbilityModel.t) :
  knobsInRange (DifficultyController.update d a).
Proof.
  unfold knobsInRange, DifficultyController.update.
  destruct (DifficultyController.stepHold d _) as [[current pending] counter].
  cbn. unfold DifficultyController.nextEntropy.
  repeat split; apply clamp_range; lra.
Qed.

Lemma knobsInRange_onSessionStopped (d : DifficultyController.t) :
  knobsInRange d -> knobsInRange (DifficultyController.onSessionStopped d).
Proof.
  unfold knobsInRange, DifficultyController.onSessionStopped; cbn.
  intros ((He0 & He1) & (Ht0 & Ht1) & (Hm0 & Hm1)).
  unfold Rmax, Rmin.
  repeat match goal with
         | |- context [Rle_dec ?a ?b] => destruct (Rle_dec a b)
         end; lra.
Qed.

(** ** The fast difficulty reset (C8) *)

(** C8 (amended). On every controller whose committed unique-colour count
    is 4, [onSessionStopped] commits 3 colours whatever the hold counter,
    the pending candidate and the hold lengths are, zeroes the PI integral
    and the hold counter, and sets [matchRate] to the smaller of 0.40 and
    [matchRate + 0.05].  [targetEntropy] is halved exactly when it was not
    negative and [tse] is left at 30% of its value when it was not negative
    (a negative value is replaced by 0); the match rate is not lowered when
    it was at most 0.40 (a larger one drops to 0.40). *)
Theorem onSessionStopped_from_four (d : DifficultyController.t) :
  DifficultyController.currentUniqueColors d = 4%Z ->
  let d' := DifficultyController.onSessionStopped d in
  DifficultyController.currentUniqueColors d' = 3%Z
  /\ DifficultyController.integral d' = 0
  /\ DifficultyController.stepHoldCounter d' = 0%Z
  /\ DifficultyController.matchRate d'
     = Rmin 0.40 (DifficultyController.matchRate d + 0.05)
  /\ DifficultyController.matchRate d' <= 0.40
  /\ (0 <= DifficultyController.targetEntropy d ->
      DifficultyController.targetEntropy d'
      = DifficultyController.targetEntropy d / 2)
  /\ (0 <= DifficultyController.tse d ->
      DifficultyController.tse d' = 0.3 * DifficultyController.tse d)
  /\ (DifficultyController.matchRate d <= 0.40 ->
      DifficultyController.matchRate d <= DifficultyController.matchRate d')
  /\ (DifficultyController.targetEntropy d < 0 ->
      DifficultyController.targetEntropy d' = 0)
  /\ (DifficultyController.tse d < 0 -> DifficultyController.tse d' = 0)
  /\ (0.40 < DifficultyController.matchRate d ->
      DifficultyController.matchRate d' = 0.40).
Proof.
  intros Hfour.
  unfold DifficultyController.onSessionStopped; cbn.
  rewrite Hfour. cbn.
  repeat split; try reflexivity.
  - apply Rmin_l.
  - intros He. rewrite Rmax_right by lra. lra.
  - intros Ht. rewrite Rmax_right by lra. lra.
  - intros Hm. unfold Rmin; destruct (Rle_dec _ _); lra.
  - intros He. rewrite Rmax_left by lra. reflexivity.
  - intros Ht. rewrite Rmax_left by lra. reflexivity.
  - intros Hm. rewrite Rmin_left by lra. reflexivity.
Qed.

Lemma onSessionStopped_from_four_witness :
  let d := DifficultyController.mk 3 (-2) 0.8 0.30 1.0 0.6 4 4 3 2 2 3
             0.06 0.12 in
  DifficultyController.currentUniqueColors
    (DifficultyController.onSessionStopped d) = 3%Z
  /\ DifficultyController.targetEntropy
       (DifficultyController.onSessionStopped d) = 0.8 / 2.
Proof.
  intros d.
  destruct (onSessionStopped_from_four d eq_refl)
    as (Hcur & _ & _ & _ & _ & Hent & _).
  split; [assumption |]. apply Hent. unfold d; cbn. lra.
Defined.

(** C8, counterexample. [warmStart] assigns the persisted knobs unchecked:
    a new engine warm-started from a profile with [targetEntropy = -1],
    [tse = -1], [matchRate = 0.45] and 4 committed colours has a controller
    with [currentUniqueColors = 4] on which [onSessionStopped] leaves
    [targetEntropy] at 0 instead of half its value, [tse] at 0 instead of
    30% of its value, and lowers the match rate to 0.40. *)
Lemma onSessionStopped_from_four_after_warmStart :
  let profile := mkStrategic None (Some (-1)) (Some (-1)) (Some 4%Z) None
                   (Some 0.45) None in
  let e := NBackEngine.warmStart (NBackEngine.new (Some 3%nat) (Some palette))
             (Some profile) None in
  let d := WorkingMemoryTrainer.difficultyController (NBackEngine.trainer e) in
  let d' := DifficultyController.onSessionStopped d in
  DifficultyController.currentUniqueColors d = 4%Z
  /\ DifficultyController.targetEntropy d = -1
  /\ DifficultyController.targetEntropy d' = 0
  /\ DifficultyController.targetEntropy d'
     <> DifficultyController.targetEntropy d / 2
  /\ DifficultyController.tse d = -1
  /\ DifficultyController.tse d' = 0
  /\ DifficultyController.tse d' <> 0.3 * DifficultyController.tse d
  /\ DifficultyController.matchRate d = 0.45
  /\ DifficultyController.matchRate d' = 0.40
  /\ DifficultyController.matchRate d' < DifficultyController.matchRate d.
Proof.
  intros profile e d d'.
  assert (He : DifficultyController.targetEntropy d = -1) by reflexivity.
  assert (Ht : DifficultyController.tse d = -1) by reflexivity.
  assert (Hm : DifficultyController.matchRate d = 0.45) by reflexivity.
  assert (He' : DifficultyController.targetEntropy d' = 0).
  { unfold d', DifficultyController.onSessionStopped.
    cbn [DifficultyController.targetEntropy]. rewrite He.
    apply Rmax_left. lra. }
  assert (Ht' : DifficultyController.tse d' = 0).
  { unfold d', DifficultyController.onSessionStopped.
    cbn [DifficultyController.tse]. rewrite Ht. apply Rmax_left. lra. }
  assert (Hm' : DifficultyController.matchRate d' = 0.40).
  { unfold d', DifficultyController.onSessionStopped.
    cbn [DifficultyController.matchRate]. rewrite Hm. apply Rmin_left. lra. }
  rewrite He', Ht', Hm', He, Ht, Hm.
  repeat split; try reflexivity; lra.
Qed.

(** ** Persistence round trip (C5) *)

(** C5. Warm-starting a freshly constructed engine (any [startN], any
    palette, so in particular the same n) with the [strategic] and [recency]
    objects of [toJSON] reproduces the original engine's [theta],
    [targetEntropy], [tse] and committed unique-colour count as reported by
    [getStats]. *)
Theorem warmStart_toJSON_roundtrip
    (e : NBackEngine.t) (now : R) (startN : option nat)
    (colors : option (list paletteColor)) :
  let saved := NBackEngine.toJSON e now in
  let restored :=
    NBackEngine.warmStart (NBackEngine.new startN colors)
      (Some (NBackEngine.j_strategic saved))
      (Some (NBackEngine.j_recency saved)) in
  NBackEngine.s_theta (NBackEngine.getStats restored)
    = NBackEngine.s_theta (NBackEngine.getStats e)
  /\ NBackEngine.s_targetEntropy (NBackEngine.getStats restored)
     = NBackEngine.s_targetEntropy (NBackEngine.getStats e)
  /\ NBackEngine.s_tse (NBackEngine.getStats restored)
     = NBackEngine.s_tse (NBackEngine.getStats e)
  /\ NBackEngine.wm_targetUniqueColors
       (NBackEngine.s_workingMemory (NBackEngine.getStats restored))
     = NBackEngine.wm_targetUniqueColors
         (NBackEngine.s_workingMemory (NBackEngine.getStats e)).
Proof. cbn. repeat split; reflexivity. Qed.

(** The same four values come back when the caller drops the recency part. *)
Lemma warmStart_strategic_only
    (e : NBackEngine.t) (now : R) (startN : option nat)
    (colors : option (list paletteColor)) :
  let restored :=
    NBackEngine.warmStart (NBackEngine.new startN colors)
      (Some (NBackEngine.j_strategic (NBackEngine.toJSON e now))) None in
  NBackEngine.s_theta (NBackEngine.getStats restored)
    = NBackEngine.s_theta (NBackEngine.getStats e)
  /\ NBackEngine.s_targetEntropy (NBackEngine.getStats restored)
     = NBackEngine.s_targetEntropy (NBackEngine.getStats e)
  /\ NBackEngine.s_tse (NBackEngine.getStats restored)
     = NBackEngine.s_tse (NBackEngine.getStats e)
  /\ NBackEngine.wm_targetUniqueColors
       (NBackEngine.s_workingMemory (NBackEngine.getStats restored))
     = NBackEngine.wm_targetUniqueColors
         (NBackEngine.s_workingMemory (NBackEngine.getStats e)).
Proof. cbn. repeat split; reflexivity. Qed.

(** ** Rational bounds on [exp] and [ln]

    [exp x] is the [2^k]-th power of [exp (x / 2^k)], which is at least
    [1 + x / 2^k]; the power is taken by [k] squarings of a fixed-point
    lower bound ([squareDown]), each rounded down. *)

Lemma iterSquare_exp (k : nat) (y : R) :
  iterSquare k (exp y) = exp (2 ^ k * y).
Proof.
  revert y. induction k as [| k IH]; intros y; cbn.
  - f_equal. ring.
  - rewrite <- exp_plus, IH. f_equal. ring.
Qed.

Lemma iterSquare_mono (k : nat) (a b : R) :
  0 <= a <= b -> 0 <= iterSquare k a <= iterSquare k b.
Proof.
  revert a b. induction k as [| k IH]; intros a b Hab; cbn.
  - assumption.
  - apply IH. nra.
Qed.

Lemma squareDown_sound (k : nat) (m scale : Z) (a : R) :
  (0 <= m)%Z -> (0 < scale)%Z -> IZR m / IZR scale <= a ->
  (0 <= squareDown k m scale)%Z
  /\ IZR (squareDown k m scale) / IZR scale <= iterSquare k a.
Proof.
  revert m a. induction k as [| k IH]; intros m a Hm Hs Hle; cbn.
  - split; assumption.
  - assert (HsR : 0 < IZR scale) by (apply IZR_lt; assumption).
    assert (HmR : 0 <= IZR m) by (apply IZR_le; assumption).
    assert (Hq : 0 <= IZR m / IZR scale)
      by (apply Rle_mult_inv_pos; assumption).
    apply IH; [apply Z.div_pos; nia | assumption |].
    apply Rle_trans with (IZR m / IZR scale * (IZR m / IZR scale)); [| nra].
    assert (Hdiv : (scale * (m * m / scale) <= m * m)%Z)
      by (apply Z.mul_div_le; assumption).
    apply IZR_le in Hdiv. rewrite !mult_IZR in Hdiv.
    apply Rmult_le_reg_r with (IZR scale * IZR scale); [nra |].
    replace (IZR (m * m / scale) / IZR scale * (IZR scale * IZR scale))
      with (IZR scale * IZR (m * m / scale)) by (field; lra).
    replace (IZR m / IZR scale * (IZR m / IZR scale) * (IZR scale * IZR scale))
      with (IZR m * IZR m) by (field; lra).
    assumption.
Qed.

Lemma exp_lower_squares (x : R) (k : nat) (m scale : Z) :
  (0 <= m)%Z -> (0 < scale)%Z -> IZR m / IZR scale <= 1 + x / 2 ^ k ->
  IZR (squareDown k m scale) / IZR scale <= exp x.
Proof.
  intros Hm Hs Hle.
  assert (Hpow : 0 < 2 ^ k) by (apply pow_lt; lra).
  assert (HsR : 0 < IZR scale) by (apply IZR_lt; assumption).
  assert (HmR : 0 <= IZR m) by (apply IZR_le; assumption).
  assert (Hq : 0 <= IZR m / IZR scale)
    by (apply Rle_mult_inv_pos; assumption).
  destruct (squareDown_sound k m scale (1 + x / 2 ^ k) Hm Hs Hle)
    as [_ Hsq].
  eapply Rle_trans; [exact Hsq |].
  replace (exp x) with (iterSquare k (exp (x / 2 ^ k))).
  - apply iterSquare_mono. split; [lra | apply exp_ineq1_le].
  - rewrite iterSquare_exp. f_equal. field. lra.
Qed.

Lemma exp_upper_squares (x : R) (k : nat) (m scale : Z) :
  (0 <= m)%Z -> (0 < scale)%Z -> IZR m / IZR scale <= 1 - x / 2 ^ k ->
  (0 < squareDown k m scale)%Z ->
  exp x <= IZR scale / IZR (squareDown k m scale).
Proof.
  intros Hm Hs Hle Hpos.
  assert (Hlow : IZR (squareDown k m scale) / IZR scale <= exp (- x)).
  { apply exp_lower_squares; [assumption | assumption |].
    replace (1 + - x / 2 ^ k) with (1 - x / 2 ^ k); [assumption |].
    unfold Rdiv. ring. }
  assert (HsR : 0 < IZR scale) by (apply IZR_lt; assumption).
  assert (HdR : 0 < IZR (squareDown k m scale)) by (apply IZR_lt; assumption).
  rewrite exp_Ropp in Hlow.
  pose proof (exp_pos x) as Hexp.
  apply Rmult_le_reg_r with (IZR (squareDown k m scale) / IZR scale).
  - apply Rdiv_lt_0_compat; assumption.
  - replace (IZR scale / IZR (squareDown k m scale)
             * (IZR (squareDown k m scale) / IZR scale)) with 1
      by (field; lra).
    apply Rmult_le_reg_r with (/ exp x); [apply Rinv_0_lt_compat; assumption |].
    rewrite Rmult_assoc, (Rmult_comm _ (/ exp x)), <- Rmult_assoc.
    rewrite Rinv_r by lra. lra.
Qed.

Lemma ln_le_of_le_exp (y x : R) : 0 < y -> y <= exp x -> ln y <= x.
Proof.
  intros Hy Hle.
  destruct (Rle_lt_dec (ln y) x) as [H | H]; [assumption |].
  apply exp_increasing in H. rewrite exp_ln in H by assumption. lra.
Qed.

Lemma ln_ge_of_exp_le (y x : R) : exp x <= y -> x <= ln y.
Proof.
  intros Hle.
  assert (Hy : 0 < y) by (pose proof (exp_pos x); lra).
  destruct (Rle_lt_dec x (ln y)) as [H | H]; [assumption |].
  apply exp_increasing in H. rewrite exp_ln in H by assumption. lra.
Qed.

(** [exp_lower x p q] proves a goal [c <= exp x] and [exp_upper x p q] a
    goal [exp x <= c], for [x = p / q], by 20 squarings on 24 decimals. *)
Ltac evalSquareDown :=
  match goal with
  | |- context [squareDown ?k ?m ?s] =>
    let z := eval vm_compute in (squareDown k m s) in
    change (squareDown k m s) with z
  end.

Ltac exp_lower x p q :=
  let m := eval vm_compute in
    ((q * 2 ^ 20 + p) * 10 ^ 24 / (q * 2 ^ 20))%Z in
  eapply Rle_trans;
  [| apply (exp_lower_squares x 20 m 1000000000000000000000000%Z);
     [vm_compute; intro; discriminate | reflexivity | lra]];
  evalSquareDown; lra.

Ltac exp_upper x p q :=
  let m := eval vm_compute in
    ((q * 2 ^ 20 - p) * 10 ^ 24 / (q * 2 ^ 20))%Z in
  eapply Rle_trans;
  [apply (exp_upper_squares x 20 m 1000000000000000000000000%Z);
     [vm_compute; intro; discriminate | reflexivity | lra | reflexivity] |];
  evalSquareDown; lra.

Lemma exp_m1500_bounds : 0.2231 <= exp (-1.5) <= 0.2232.
Proof.
  split; [exp_lower (-1.5) (-15)%Z 10%Z | exp_upper (-1.5) (-15)%Z 10%Z].
Qed.

Lemma exp_m0450_bounds : 0.6376 <= exp (-0.45) <= 0.6377.
Proof.
  split; [exp_lower (-0.45) (-45)%Z 100%Z | exp_upper (-0.45) (-45)%Z 100%Z].
Qed.

(** ** The sequential stop test (C4, C7) *)

Lemma stopBound_value : SPRTStopper.stopBound = ln (0.90 / 0.05).
Proof. unfold SPRTStopper.stopBound. f_equal. lra. Qed.

Lemma acceptBound_value : SPRTStopper.acceptBound = ln (0.10 / 0.95).
Proof. unfold SPRTStopper.acceptBound. f_equal. lra. Qed.

Lemma stopBound_approx : 2.885 < SPRTStopper.stopBound < 2.895.
Proof.
  unfold SPRTStopper.stopBound.
  replace ((1 - 0.10) / 0.05) with 18 by lra.
  split.
  - apply Rlt_le_trans with 2.8851; [lra |].
    apply ln_ge_of_exp_le. exp_upper 2.8851 28851%Z 10000%Z.
  - apply Rle_lt_trans with 2.8949; [| lra].
    apply ln_le_of_le_exp; [lra |]. exp_lower 2.8949 28949%Z 10000%Z.
Qed.

Lemma acceptBound_approx : -2.255 < SPRTStopper.acceptBound < -2.245.
Proof.
  unfold SPRTStopper.acceptBound.
  replace (0.10 / (1 - 0.05)) with (2 / 19) by lra.
  split.
  - apply Rlt_le_trans with (-2.2549); [lra |].
    apply ln_ge_of_exp_le. exp_upper (-2.2549) (-22549)%Z 10000%Z.
  - apply Rle_lt_trans with (-2.2451); [| lra].
    apply ln_le_of_le_exp; [lra |]. exp_lower (-2.2451) (-22451)%Z 10000%Z.
Qed.

Lemma accept_below_stop : SPRTStopper.acceptBound < SPRTStopper.stopBound.
Proof.
  pose proof stopBound_approx. pose proof acceptBound_approx. lra.
Qed.

(** C4. [recordTrial] counts the trial, commits [decision = stop] exactly
    when the accumulated [logLR] reaches [stopBound = ln(0.90/0.05)]
    (about 2.89); when the accumulated value reaches
    [acceptBound = ln(0.10/0.95)] (about -2.25) it resets [logLR] to 0 with
    [decision = continue] and the trial count still incremented; and
    [shouldStop] is false below 8 recorded trials whatever [logLR] and
    [decision] are.  A [stop] committed by an earlier call stays until the
    lower bound is reached. *)
Theorem sprt_bounds_and_minimum_trials
    (s : SPRTStopper.t) (correct wasMatch : bool) :
  let acc := SPRTStopper.accumulate s correct wasMatch in
  let s' := fst (SPRTStopper.recordTrial s correct wasMatch) in
  (SPRTStopper.stopBound = ln (0.90 / 0.05)
   /\ 2.885 < SPRTStopper.stopBound < 2.895)
  /\ (SPRTStopper.acceptBound = ln (0.10 / 0.95)
      /\ -2.255 < SPRTStopper.acceptBound < -2.245)
  /\ SPRTStopper.trialsRecorded s' = (SPRTStopper.trialsRecorded s + 1)%Z
  /\ snd (SPRTStopper.recordTrial s correct wasMatch) = SPRTStopper.decision s'
  /\ (SPRTStopper.stopBound <= acc ->
      SPRTStopper.decision s' = SPRTStopper.Stop
      /\ SPRTStopper.logLR s' = acc)
  /\ (SPRTStopper.decision s = SPRTStopper.Continue ->
      (SPRTStopper.decision s' = SPRTStopper.Stop
       <-> SPRTStopper.stopBound <= acc))
  /\ (SPRTStopper.decision s' = SPRTStopper.Stop
      <-> SPRTStopper.stopBound <= acc
          \/ (SPRTStopper.decision s = SPRTStopper.Stop
              /\ SPRTStopper.acceptBound < acc))
  /\ (acc <= SPRTStopper.acceptBound ->
      SPRTStopper.logLR s' = 0
      /\ SPRTStopper.decision s' = SPRTStopper.Continue
      /\ SPRTStopper.trialsRecorded s' = (SPRTStopper.trialsRecorded s + 1)%Z)
  /\ (forall s0 : SPRTStopper.t,
         (SPRTStopper.trialsRecorded s0 < 8)%Z ->
         SPRTStopper.shouldStop s0 = false).
Proof.
  intros acc s'.
  pose proof accept_below_stop as Hbounds.
  split; [split; [apply stopBound_value | apply stopBound_approx] |].
  split; [split; [apply acceptBound_value | apply acceptBound_approx] |].
  assert (Hcases :
    (SPRTStopper.stopBound <= acc
     /\ s' = SPRTStopper.mk acc SPRTStopper.Stop
               (SPRTStopper.trialsRecorded s + 1))
    \/ (acc <= SPRTStopper.acceptBound
        /\ s' = SPRTStopper.mk 0 SPRTStopper.Continue
                  (SPRTStopper.trialsRecorded s + 1))
    \/ (SPRTStopper.acceptBound < acc < SPRTStopper.stopBound
        /\ s' = SPRTStopper.mk acc (SPRTStopper.decision s)
                  (SPRTStopper.trialsRecorded s + 1))).
  { unfold s', SPRTStopper.recordTrial, Rgeb. fold acc. cbn [fst].
    destruct (Rle_lt_dec SPRTStopper.stopBound acc) as [Hstop | Hstop].
    - left. rewrite Rleb_true by assumption. split; [assumption | reflexivity].
    - rewrite Rleb_false by assumption.
      destruct (Rle_lt_dec acc SPRTStopper.acceptBound) as [Hacc | Hacc].
      + right; left. rewrite Rleb_true by assumption.
        split; [assumption | reflexivity].
      + right; right. rewrite Rleb_false by assumption.
        split; [lra | reflexivity]. }
  split; [| split; [reflexivity |]].
  { destruct Hcases as [[_ ->] | [[_ ->] | [_ ->]]]; reflexivity. }
  split; [| split; [| split; [| split]]].
  - intros Hstop.
    destruct Hcases as [[_ ->] | [[H _] | [H _]]];
      [split; reflexivity | lra | lra].
  - intros Hcont.
    destruct Hcases as [[H ->] | [[H ->] | [H ->]]]; cbn; split; intros H';
      try reflexivity; try assumption; try discriminate; try lra.
    congruence.
  - destruct Hcases as [[H ->] | [[H ->] | [H ->]]]; cbn; split; intros H'.
    + left; assumption.
    + reflexivity.
    + discriminate.
    + destruct H' as [H' | [_ H']]; lra.
    + right. split; [assumption | lra].
    + destruct H' as [H' | [H' _]]; [lra | assumption].
  - intros Hacc.
    destruct Hcases as [[H _] | [[_ ->] | [H _]]];
      [lra | repeat split | lra].
  - intros s0 Hfew. unfold SPRTStopper.shouldStop.
    apply Z.ltb_lt in Hfew. rewrite Hfew. reflexivity.
Qed.

Lemma thetaToAccuracy_unfold (theta : R) (isTarget : bool) :
  SPRTStopper.thetaToAccuracy theta isTarget
  = / (1 + exp (- (theta - (if isTarget then 0.5 else 0.2)) * 1.5)).
Proof. unfold SPRTStopper.thetaToAccuracy. destruct isTarget; lra. Qed.

Lemma thetaToAccuracy_range (theta : R) (isTarget : bool) :
  0 < SPRTStopper.thetaToAccuracy theta isTarget < 1.
Proof.
  rewrite thetaToAccuracy_unfold.
  set (E := exp _). assert (HE : 0 < E) by apply exp_pos.
  split.
  - apply Rinv_0_lt_compat. lra.
  - rewrite <- Rinv_1. apply Rinv_lt_contravar; lra.
Qed.

Lemma thetaToAccuracy_increasing (x y : R) (isTarget : bool) :
  x < y ->
  SPRTStopper.thetaToAccuracy x isTarget
  < SPRTStopper.thetaToAccuracy y isTarget.
Proof.
  intros Hxy. rewrite !thetaToAccuracy_unfold.
  set (off := if isTarget then 0.5 else 0.2).
  assert (Hexp : exp (- (y - off) * 1.5) < exp (- (x - off) * 1.5))
    by (apply exp_increasing; lra).
  pose proof (exp_pos (- (y - off) * 1.5)).
  apply Rinv_lt_contravar; [nra | lra].
Qed.

Lemma poor_accuracy_lower (isTarget : bool) :
  SPRTStopper.thetaToAccuracy SPRTStopper.theta1 isTarget
  < SPRTStopper.thetaToAccuracy SPRTStopper.theta0 isTarget.
Proof.
  apply thetaToAccuracy_increasing.
  unfold SPRTStopper.theta0, SPRTStopper.theta1. lra.
Qed.

Lemma ln_neg (x : R) : 0 < x < 1 -> ln x < 0.
Proof. intros [H0 H1]. rewrite <- ln_1. apply ln_increasing; assumption. Qed.

Lemma ln_pos (x : R) : 1 < x -> 0 < ln x.
Proof. intros H. rewrite <- ln_1. apply ln_increasing; lra. Qed.

Lemma ratio_lt_1 (a b : R) : 0 < a < b -> 0 < a / b < 1.
Proof.
  intros [Ha Hab]. split.
  - apply Rdiv_lt_0_compat; lra.
  - apply Rmult_lt_reg_r with b; [lra |].
    unfold Rdiv. rewrite Rmult_assoc, Rinv_l by lra. lra.
Qed.

Lemma ratio_gt_1 (a b : R) : 0 < b < a -> 1 < a / b.
Proof.
  intros [Hb Hba].
  apply Rmult_lt_reg_r with b; [lra |].
  unfold Rdiv. rewrite Rmult_assoc, Rinv_l by lra. lra.
Qed.

(** The step of the log-likelihood ratio on a correct trial is negative, on
    an incorrect trial positive. *)
Lemma accumulate_correct (s : SPRTStopper.t) (wasMatch : bool) :
  SPRTStopper.accumulate s true wasMatch
  = SPRTStopper.logLR s
    + ln (SPRTStopper.thetaToAccuracy SPRTStopper.theta1 wasMatch
          / SPRTStopper.thetaToAccuracy SPRTStopper.theta0 wasMatch)
  /\ SPRTStopper.accumulate s true wasMatch < SPRTStopper.logLR s.
Proof.
  pose proof (thetaToAccuracy_range SPRTStopper.theta0 wasMatch) as H0.
  pose proof (thetaToAccuracy_range SPRTStopper.theta1 wasMatch) as H1.
  pose proof (poor_accuracy_lower wasMatch) as Hlt.
  unfold SPRTStopper.accumulate, Rgtb.
  rewrite !Rltb_true by lra. cbn [andb].
  split; [reflexivity |].
  assert (ln (SPRTStopper.thetaToAccuracy SPRTStopper.theta1 wasMatch
              / SPRTStopper.thetaToAccuracy SPRTStopper.theta0 wasMatch) < 0)
    by (apply ln_neg, ratio_lt_1; lra).
  lra.
Qed.

Lemma accumulate_incorrect (s : SPRTStopper.t) (wasMatch : bool) :
  SPRTStopper.logLR s < SPRTStopper.accumulate s false wasMatch.
Proof.
  pose proof (thetaToAccuracy_range SPRTStopper.theta0 wasMatch) as H0.
  pose proof (thetaToAccuracy_range SPRTStopper.theta1 wasMatch) as H1.
  pose proof (poor_accuracy_lower wasMatch) as Hlt.
  unfold SPRTStopper.accumulate, Rgtb.
  rewrite !Rltb_true by lra. cbn [andb].
  assert (0 < ln ((1 - SPRTStopper.thetaToAccuracy SPRTStopper.theta1 wasMatch)
                  / (1 - SPRTStopper.thetaToAccuracy SPRTStopper.theta0
                           wasMatch)))
    by (apply ln_pos, ratio_gt_1; lra).
  lra.
Qed.

(** The three outcomes of the boundary check. *)
Lemma recordTrial_cases (s : SPRTStopper.t) (correct wasMatch : bool) :
  let acc := SPRTStopper.accumulate s correct wasMatch in
  let s' := fst (SPRTStopper.recordTrial s correct wasMatch) in
  (SPRTStopper.stopBound <= acc /\ SPRTStopper.logLR s' = acc)
  \/ (acc <= SPRTStopper.acceptBound /\ SPRTStopper.logLR s' = 0)
  \/ (SPRTStopper.acceptBound < acc < SPRTStopper.stopBound
      /\ s' = SPRTStopper.mk acc (SPRTStopper.decision s)
                (SPRTStopper.trialsRecorded s + 1)).
Proof.
  intros acc s'. pose proof accept_below_stop as Hbounds.
  unfold s', SPRTStopper.recordTrial, Rgeb. fold acc. cbn [fst].
  destruct (Rle_lt_dec SPRTStopper.stopBound acc) as [Hstop | Hstop].
  - left. rewrite Rleb_true by assumption. split; [assumption | reflexivity].
  - rewrite Rleb_false by assumption.
    destruct (Rle_lt_dec acc SPRTStopper.acceptBound) as [Hacc | Hacc].
    + right; left. rewrite Rleb_true by assumption.
      split; [assumption | reflexivity].
    + right; right. rewrite Rleb_false by assumption.
      split; [lra | reflexivity].
Qed.

(** C7 (amended). At every [recordTrial] call with an incorrect outcome
    [logLR] strictly increases, for target and non-target trials.  At a call
    with a correct outcome [logLR] strictly decreases as long as the
    decreased value stays above [acceptBound]; when it reaches
    [acceptBound], [logLR] is reset to 0 instead. *)
Theorem sprt_logLR_monotone_until_reset
    (s : SPRTStopper.t) (wasMatch : bool) :
  SPRTStopper.logLR s
  < SPRTStopper.logLR (fst (SPRTStopper.recordTrial s false wasMatch))
  /\ (SPRTStopper.acceptBound < SPRTStopper.accumulate s true wasMatch ->
      SPRTStopper.logLR (fst (SPRTStopper.recordTrial s true wasMatch))
      < SPRTStopper.logLR s)
  /\ (SPRTStopper.accumulate s true wasMatch <= SPRTStopper.acceptBound ->
      SPRTStopper.logLR (fst (SPRTStopper.recordTrial s true wasMatch)) = 0).
Proof.
  pose proof acceptBound_approx as Hacc.
  split; [| split].
  - pose proof (accumulate_incorrect s wasMatch) as Hup.
    destruct (recordTrial_cases s false wasMatch)
      as [[_ ->] | [[Hlow ->] | [_ ->]]]; cbn; lra.
  - intros Habove.
    destruct (accumulate_correct s wasMatch) as [_ Hdown].
    destruct (recordTrial_cases s true wasMatch)
      as [[_ ->] | [[Hlow _] | [_ ->]]]; cbn; lra.
  - intros Hbelow. pose proof accept_below_stop.
    destruct (recordTrial_cases s true wasMatch)
      as [[Hstop _] | [[_ ->] | [Hmid _]]]; lra.
Qed.

Lemma le_div (a b c : R) : 0 < b -> c * b <= a -> c <= a / b.
Proof.
  intros Hb H. apply Rmult_le_reg_r with b; [assumption |].
  unfold Rdiv. rewrite Rmult_assoc, Rinv_l by lra. lra.
Qed.

Lemma div_le (a b c : R) : 0 < b -> a <= c * b -> a / b <= c.
Proof.
  intros Hb H. apply Rmult_le_reg_r with b; [assumption |].
  unfold Rdiv. rewrite Rmult_assoc, Rinv_l by lra. lra.
Qed.

(** The step of [logLR] on a correct target trial is about -0.29. *)
Lemma correct_target_step :
  -0.2999 <= ln (SPRTStopper.thetaToAccuracy SPRTStopper.theta1 true
                 / SPRTStopper.thetaToAccuracy SPRTStopper.theta0 true)
  <= -0.2851.
Proof.
  rewrite !thetaToAccuracy_unfold.
  unfold SPRTStopper.theta0, SPRTStopper.theta1.
  replace (- (0.8 - 0.5) * 1.5) with (-0.45) by lra.
  replace (- (1.5 - 0.5) * 1.5) with (-1.5) by lra.
  pose proof exp_m1500_bounds as H15. pose proof exp_m0450_bounds as H45.
  replace (/ (1 + exp (-0.45)) / / (1 + exp (-1.5)))
    with ((1 + exp (-1.5)) / (1 + exp (-0.45))) by (field; lra).
  split.
  - apply ln_ge_of_exp_le.
    apply Rle_trans with 0.7468; [exp_upper (-0.2999) (-2999)%Z 10000%Z |].
    apply le_div; lra.
  - apply ln_le_of_le_exp; [apply Rdiv_lt_0_compat; lra |].
    apply Rle_trans with 0.7470; [| exp_lower (-0.2851) (-2851)%Z 10000%Z].
    apply div_le; lra.
Qed.

Lemma sprt_logLR_monotone_until_reset_witness :
  SPRTStopper.logLR
    (fst (SPRTStopper.recordTrial SPRTStopper.new true true))
  < SPRTStopper.logLR SPRTStopper.new.
Proof.
  apply (sprt_logLR_monotone_until_reset SPRTStopper.new true).
  destruct (accumulate_correct SPRTStopper.new true) as [-> _].
  pose proof acceptBound_approx as Hacc.
  pose proof correct_target_step as Hstep.
  unfold SPRTStopper.new. cbn [SPRTStopper.logLR]. lra.
Defined.

(** A correct target trial that stays between the bounds only moves
    [logLR]. *)
Lemma recordTrial_hit_between (s : SPRTStopper.t) :
  let step := ln (SPRTStopper.thetaToAccuracy SPRTStopper.theta1 true
                  / SPRTStopper.thetaToAccuracy SPRTStopper.theta0 true) in
  SPRTStopper.acceptBound < SPRTStopper.logLR s + step
                          < SPRTStopper.stopBound ->
  fst (SPRTStopper.recordTrial s true true)
  = SPRTStopper.mk (SPRTStopper.logLR s + step) (SPRTStopper.decision s)
      (SPRTStopper.trialsRecorded s + 1).
Proof.
  intros step Hbetween.
  destruct (accumulate_correct s true) as [Hacc _]. fold step in Hacc.
  destruct (recordTrial_cases s true true) as [[H _] | [[H _] | [_ H]]].
  - rewrite Hacc in H. lra.
  - rewrite Hacc in H. lra.
  - rewrite H, Hacc. reflexivity.
Qed.

Lemma sprtRun_hits_between (k : nat) (s : SPRTStopper.t) :
  let step := ln (SPRTStopper.thetaToAccuracy SPRTStopper.theta1 true
                  / SPRTStopper.thetaToAccuracy SPRTStopper.theta0 true) in
  SPRTStopper.logLR s < SPRTStopper.stopBound ->
  SPRTStopper.acceptBound < SPRTStopper.logLR s + INR k * step ->
  sprtRun s (repeat (true, true) k)
  = SPRTStopper.mk (SPRTStopper.logLR s + INR k * step)
      (SPRTStopper.decision s)
      (SPRTStopper.trialsRecorded s + Z.of_nat k).
Proof.
  intros step. pose proof correct_target_step as Hstep. fold step in Hstep.
  revert s. induction k as [| k IH]; intros s Hup Hlow.
  - cbn. destruct s; cbn. f_equal; [lra | lia].
  - rewrite S_INR in Hlow.
    assert (0 <= INR k) by apply pos_INR.
    cbn [repeat sprtRun].
    rewrite recordTrial_hit_between by (fold step; nra).
    fold step. rewrite IH.
    + cbn [SPRTStopper.logLR SPRTStopper.decision
           SPRTStopper.trialsRecorded].
      rewrite S_INR. f_equal; [lra | lia].
    + cbn [SPRTStopper.logLR]. lra.
    + cbn [SPRTStopper.logLR]. lra.
Qed.

Lemma sprtAfterSevenHits_value :
  sprtAfterSevenHits
  = SPRTStopper.mk
      (7 * ln (SPRTStopper.thetaToAccuracy SPRTStopper.theta1 true
               / SPRTStopper.thetaToAccuracy SPRTStopper.theta0 true))
      SPRTStopper.Continue 7.
Proof.
  pose proof correct_target_step as Hstep.
  pose proof acceptBound_approx as Hacc.
  pose proof stopBound_approx as Hstop.
  unfold sprtAfterSevenHits.
  rewrite sprtRun_hits_between.
  - unfold SPRTStopper.new.
    cbn [SPRTStopper.logLR SPRTStopper.decision SPRTStopper.trialsRecorded].
    f_equal. replace (INR 7) with 7 by (cbn; lra). lra.
  - cbn [SPRTStopper.logLR SPRTStopper.new]. lra.
  - replace (INR 7) with 7 by (cbn; lra).
    cbn [SPRTStopper.logLR SPRTStopper.new]. lra.
Qed.

(** C7, counterexample.  After seven correct target trials from a fresh
    stopper [logLR] is negative; the eighth correct target trial does not
    decrease it: the accumulated value reaches [acceptBound] and [logLR] is
    reset to 0. *)
Lemma sprt_correct_run_not_decreasing :
  SPRTStopper.logLR sprtAfterSevenHits < 0
  /\ SPRTStopper.logLR
       (fst (SPRTStopper.recordTrial sprtAfterSevenHits true true)) = 0
  /\ ~ (SPRTStopper.logLR
          (fst (SPRTStopper.recordTrial sprtAfterSevenHits true true))
        < SPRTStopper.logLR sprtAfterSevenHits).
Proof.
  pose proof correct_target_step as Hstep.
  pose proof acceptBound_approx as Hacc.
  assert (Hreset :
    SPRTStopper.logLR
      (fst (SPRTStopper.recordTrial sprtAfterSevenHits true true)) = 0).
  { pose proof accept_below_stop as Hbounds.
    destruct (accumulate_correct sprtAfterSevenHits true) as [Hsum _].
    assert (Hlow : SPRTStopper.accumulate sprtAfterSevenHits true true
                   <= SPRTStopper.acceptBound).
    { rewrite Hsum, sprtAfterSevenHits_value. cbn [SPRTStopper.logLR]. lra. }
    destruct (recordTrial_cases sprtAfterSevenHits true true)
      as [[H _] | [[_ H] | [H _]]]; [lra | exact H | lra]. }
  assert (Hneg : SPRTStopper.logLR sprtAfterSevenHits < 0).
  { rewrite sprtAfterSevenHits_value. cbn [SPRTStopper.logLR]. lra. }
  split; [assumption | split; [assumption |]].
  rewrite Hreset. lra.
Qed.

(** ** The step-hold gate (C2) *)

Lemma dcRun_app (d : DifficultyController.t) (l1 l2 : list AbilityModel.t) :
  dcRun d (l1 ++ l2) = dcRun (dcRun d l1) l2.
Proof. revert d. induction l1 as [| a l1 IH]; intros d; cbn; auto. Qed.

Lemma firstn_S_nth_error {A} (l : list A) (i : nat) (a : A) :
  nth_error l i = Some a -> firstn (S i) l = firstn i l ++ [a].
Proof.
  revert i. induction l as [| x l IH]; intros [| i] H; cbn in *;
    try discriminate.
  - injection H as ->. reflexivity.
  - rewrite (IH i H). reflexivity.
Qed.

Lemma dcBefore_S (d : DifficultyController.t) (inputs : list AbilityModel.t)
    (i : nat) (a : AbilityModel.t) :
  nth_error inputs i = Some a ->
  dcBefore d inputs (S i)
  = DifficultyController.update (dcBefore d inputs i) a.
Proof.
  intros H. unfold dcBefore.
  rewrite (firstn_S_nth_error _ _ _ H), dcRun_app. reflexivity.
Qed.

(** What [update] does to the three fields of the gate. *)
Lemma update_gate (d : DifficultyController.t) (a : AbilityModel.t) :
  (DifficultyController.currentUniqueColors (DifficultyController.update d a),
   DifficultyController.pendingUniqueColors (DifficultyController.update d a),
   DifficultyController.stepHoldCounter (DifficultyController.update d a))
  = DifficultyController.stepHold d (DifficultyController.candidateColors d a).
Proof.
  unfold DifficultyController.update, DifficultyController.candidateColors.
  destruct (DifficultyController.stepHold d _) as [[c p] k]. reflexivity.
Qed.

Lemma update_holds (d : DifficultyController.t) (a : AbilityModel.t) :
  DifficultyController.stepHoldIncrease (DifficultyController.update d a)
  = DifficultyController.stepHoldIncrease d
  /\ DifficultyController.stepHoldDecrease (DifficultyController.update d a)
     = DifficultyController.stepHoldDecrease d.
Proof.
  unfold DifficultyController.update.
  destruct (DifficultyController.stepHold d _) as [[c p] k]. split; reflexivity.
Qed.

(** The gate, case by case. [cnt] is the hold counter after counting the
    current call. *)
Lemma stepHold_cases (d : DifficultyController.t) (k : Z) :
  let cur := DifficultyController.currentUniqueColors d in
  let cnt := if (k =? DifficultyController.pendingUniqueColors d)%Z
             then (DifficultyController.stepHoldCounter d + 1)%Z else 1%Z in
  let hold := if (k >? cur)%Z then DifficultyController.stepHoldIncrease d
              else DifficultyController.stepHoldDecrease d in
  (k = cur
   /\ DifficultyController.stepHold d k
      = (cur, DifficultyController.pendingUniqueColors d, 0%Z))
  \/ (k <> cur
      /\ (hold <= cnt)%Z /\ ((k > cur)%Z -> 0.5 <= DifficultyController.tse d)
      /\ DifficultyController.stepHold d k = (k, k, 0%Z))
  \/ (k <> cur
      /\ DifficultyController.stepHold d k = (cur, k, cnt)).
Proof.
  intros cur cnt hold. unfold DifficultyController.stepHold.
  fold cur.
  destruct (Z.eqb_spec k cur) as [Heq | Hne]; cbn [negb].
  - left. split; [assumption | reflexivity].
  - right.
    assert (Hpending :
      (if (k =? DifficultyController.pendingUniqueColors d)%Z
       then (DifficultyController.pendingUniqueColors d,
             (DifficultyController.stepHoldCounter d + 1)%Z)
       else (k, 1%Z)) = (k, cnt)).
    { unfold cnt.
      destruct (Z.eqb_spec k (DifficultyController.pendingUniqueColors d))
        as [-> | _]; reflexivity. }
    rewrite Hpending. fold hold.
    destruct (Z.geb_spec cnt hold) as [Hreached | Hshort].
    + destruct (Z.gtb_spec k cur) as [Hup | Hdown]; cbn [andb].
      * destruct (Rlt_dec (DifficultyController.tse d) 0.5) as [Hlow | Hok].
        -- right. rewrite Rltb_true by assumption.
           split; [assumption | reflexivity].
        -- left. rewrite Rltb_false by lra.
           repeat split; [assumption | lia | intros _; lra].
      * left. repeat split; [assumption | lia | intros Hgt; lia].
    + right. split; [assumption | reflexivity].
Qed.

Lemma dcRun_holds (d : DifficultyController.t) (inputs : list AbilityModel.t) :
  DifficultyController.stepHoldIncrease (dcRun d inputs)
  = DifficultyController.stepHoldIncrease d
  /\ DifficultyController.stepHoldDecrease (dcRun d inputs)
     = DifficultyController.stepHoldDecrease d.
Proof.
  revert d. induction inputs as [| a rest IH]; intros d; cbn.
  - split; reflexivity.
  - destruct (IH (DifficultyController.update d a)) as [-> ->].
    apply update_holds.
Qed.

(** The hold counter counts the most recent consecutive calls whose
    candidate was the pending one. *)
Lemma gate_invariant (d0 : DifficultyController.t)
    (inputs : list AbilityModel.t) (i : nat) :
  DifficultyController.stepHoldCounter d0 = 0%Z ->
  (i <= length inputs)%nat ->
  let s := dcBefore d0 inputs i in
  (0 <= DifficultyController.stepHoldCounter s <= Z.of_nat i)%Z
  /\ forall j : nat,
       (Z.of_nat i - DifficultyController.stepHoldCounter s
        <= Z.of_nat j < Z.of_nat i)%Z ->
       dcCandidateAt d0 inputs j
       = Some (DifficultyController.pendingUniqueColors s).
Proof.
  intros Hzero. induction i as [| i IH]; intros Hlen s.
  - unfold s, dcBefore. cbn. rewrite Hzero. split; [lia | intros j Hj; lia].
  - destruct (nth_error inputs i) as [a |] eqn:Ha;
      [| apply nth_error_None in Ha; lia].
    destruct IH as [Hcount Hlast]; [lia |].
    assert (Hcand : dcCandidateAt d0 inputs i
                    = Some (DifficultyController.candidateColors
                              (dcBefore d0 inputs i) a))
      by (unfold dcCandidateAt; rewrite Ha; reflexivity).
    unfold s. rewrite (dcBefore_S _ _ _ _ Ha).
    pose proof (update_gate (dcBefore d0 inputs i) a) as Hgate.
    set (prev := dcBefore d0 inputs i) in *.
    set (k := DifficultyController.candidateColors prev a) in *.
    destruct (stepHold_cases prev k)
      as [[_ Hsh] | [(_ & _ & _ & Hsh) | [_ Hsh]]];
      rewrite Hsh in Hgate; injection Hgate as _ Hp Hc; rewrite Hp, Hc.
    + split; [lia | intros j Hj; lia].
    + split; [lia | intros j Hj; lia].
    + destruct (Z.eqb_spec k (DifficultyController.pendingUniqueColors prev))
        as [Hsame | Hother].
      * split; [lia |]. intros j Hj.
        destruct (Nat.eq_dec j i) as [-> | Hji]; [assumption |].
        rewrite Hsame. apply Hlast. lia.
      * split; [lia |]. intros j Hj.
        assert (j = i) as -> by lia. assumption.
Qed.

(** C2. Along every sequence of [update] calls on a freshly constructed
    controller, a call that changes [currentUniqueColors] commits that
    call's candidate, and the same candidate was computed by each of the
    last [stepHoldIncrease] calls (for an increase) or [stepHoldDecrease]
    calls (for a decrease), this one included; an increase happens only on
    a call entered with [tse >= 0.5], from any controller state. *)
Theorem uniqueColors_change_needs_hold
    (n : nat) (inputs : list AbilityModel.t) (i : nat) (a : AbilityModel.t) :
  nth_error inputs i = Some a ->
  let before := dcBefore (DifficultyController.new n) inputs i in
  let after := DifficultyController.update before a in
  DifficultyController.currentUniqueColors after
  <> DifficultyController.currentUniqueColors before ->
  let hold :=
    if (DifficultyController.currentUniqueColors after
        >? DifficultyController.currentUniqueColors before)%Z
    then DifficultyController.stepHoldIncrease (DifficultyController.new n)
    else DifficultyController.stepHoldDecrease (DifficultyController.new n) in
  (1 <= hold <= Z.of_nat i + 1)%Z
  /\ (forall j : nat,
         (Z.of_nat i + 1 - hold <= Z.of_nat j <= Z.of_nat i)%Z ->
         dcCandidateAt (DifficultyController.new n) inputs j
         = Some (DifficultyController.currentUniqueColors after))
  /\ ((DifficultyController.currentUniqueColors after
       > DifficultyController.currentUniqueColors before)%Z ->
      0.5 <= DifficultyController.tse before)
  /\ (forall (d : DifficultyController.t) (a0 : AbilityModel.t),
         DifficultyController.tse d < 0.5 ->
         (DifficultyController.currentUniqueColors
            (DifficultyController.update d a0)
          <= DifficultyController.currentUniqueColors d)%Z).
Proof.
  intros Ha before after Hchanged hold.
  assert (Hlen : (i <= length inputs)%nat).
  { apply Nat.lt_le_incl, nth_error_Some. rewrite Ha. discriminate. }
  destruct (gate_invariant (DifficultyController.new n) inputs i eq_refl Hlen)
    as [Hcount Hlast]. fold before in Hcount, Hlast.
  assert (Hcand : dcCandidateAt (DifficultyController.new n) inputs i
                  = Some (DifficultyController.candidateColors before a))
    by (unfold dcCandidateAt; rewrite Ha; reflexivity).
  destruct (dcRun_holds (DifficultyController.new n) (firstn i inputs))
    as [Hinc Hdec]. fold (dcBefore (DifficultyController.new n) inputs i)
    in Hinc, Hdec. fold before in Hinc, Hdec.
  assert (Hmin : (1 <= hold)%Z).
  { unfold hold. destruct (_ >? _)%Z; cbn; lia. }
  pose proof (update_gate before a) as Hgate. fold after in Hgate.
  set (k := DifficultyController.candidateColors before a) in *.
  assert (Hlast4 : forall (d : DifficultyController.t) (a0 : AbilityModel.t),
             DifficultyController.tse d < 0.5 ->
             (DifficultyController.currentUniqueColors
                (DifficultyController.update d a0)
              <= DifficultyController.currentUniqueColors d)%Z).
  { intros d a0 Hlow. pose proof (update_gate d a0) as Hg.
    destruct (stepHold_cases d (DifficultyController.candidateColors d a0))
      as [[_ Hsh] | [(_ & _ & Htse & Hsh) | [_ Hsh]]];
      rewrite Hsh in Hg; injection Hg as Hc _ _; rewrite Hc; try lia.
    destruct (Z_gt_le_dec (DifficultyController.candidateColors d a0)
                (DifficultyController.currentUniqueColors d)) as [Hgt | Hle];
      [specialize (Htse Hgt); lra | lia]. }
  destruct (stepHold_cases before k)
    as [[_ Hsh] | [(Hne & Hreached & Htse & Hsh) | [_ Hsh]]];
    rewrite Hsh in Hgate; injection Hgate as Hc Hp Hn;
    try (exfalso; apply Hchanged; assumption).
  assert (Hhold : hold = if (k >? DifficultyController.currentUniqueColors
                                    before)%Z
                         then DifficultyController.stepHoldIncrease before
                         else DifficultyController.stepHoldDecrease before).
  { unfold hold. rewrite Hc, Hinc, Hdec. reflexivity. }
  rewrite <- Hhold in Hreached. clearbody hold. rewrite Hc.
  destruct (Z.eqb_spec k (DifficultyController.pendingUniqueColors before))
    as [Hsame | Hother].
  - repeat split; try lia; try assumption.
    intros j Hj. destruct (Nat.eq_dec j i) as [-> | Hji]; [assumption |].
    rewrite Hsame. apply Hlast. lia.
  - repeat split; try lia; try assumption.
    intros j Hj. assert (j = i) as -> by lia. assumption.
Qed.

Lemma Math_round_IZR (z : Z) : Math_round (IZR z) = z.
Proof.
  unfold Math_round. symmetry. apply Int_part_spec. lra.
Qed.

Lemma Math_round_between (x : R) (z : Z) :
  IZR z - / 2 <= x < IZR z + / 2 -> Math_round x = z.
Proof.
  intros H. unfold Math_round. symmetry. apply Int_part_spec. lra.
Qed.

Lemma new_3_fields :
  let d := DifficultyController.new 3 in
  DifficultyController.maxUniqueColors d = 4%Z
  /\ DifficultyController.entropyClimbRate d = 0.06
  /\ DifficultyController.stepHoldIncrease d = 3%Z
  /\ DifficultyController.stepHoldDecrease d = 2%Z.
Proof.
  cbn. repeat split.
  - replace (0.03 + 0.015 * 2) with 0.06 by lra.
    rewrite Rmax_left by lra. rewrite Rmin_right by lra. reflexivity.
  - rewrite (Math_round_between (6 / 2) 3) by lra. reflexivity.
  - rewrite (Math_round_between (3 / 2) 2) by lra. reflexivity.
Qed.

(** One [update] on [strongInput] for n = 3. *)
Lemma update_strongInput (d : DifficultyController.t) :
  DifficultyController.maxUniqueColors d = 4%Z ->
  DifficultyController.entropyClimbRate d = 0.06 ->
  -3 <= DifficultyController.integral d <= 3 ->
  knobsInRange d ->
  let d' := DifficultyController.update d strongInput in
  DifficultyController.candidateColors d strongInput = 4%Z
  /\ DifficultyController.maxUniqueColors d' = 4%Z
  /\ DifficultyController.entropyClimbRate d' = 0.06
  /\ DifficultyController.integral d' = -3
  /\ DifficultyController.tse d' = 1.
Proof.
  intros Hmax Hclimb Hint ((He0 & He1) & (Ht0 & Ht1) & _) d'.
  assert (Hpi : DifficultyController.piIntegral d strongInput = -3).
  { unfold DifficultyController.piIntegral, strongInput,
      DifficultyController.targetTheta, DifficultyController.integralMax.
    cbn [AbilityModel.theta].
    rewrite Rmin_right by lra. rewrite Rmax_left by lra. lra. }
  assert (Hadj : DifficultyController.piAdjustment d strongInput = -30.21).
  { unfold DifficultyController.piAdjustment. rewrite Hpi.
    unfold strongInput, AbilityModel.getThetaTrend, Rgtb,
      DifficultyController.targetTheta, DifficultyController.Kp,
      DifficultyController.Ki.
    cbn [AbilityModel.theta AbilityModel.thetaWindow length Nat.ltb Nat.leb].
    rewrite (Rltb_true 1.6 102) by lra.
    rewrite (Rltb_false 0.005 0) by lra.
    rewrite (Rltb_false 0 (-0.01)) by lra.
    cbn [andb]. lra. }
  assert (Hent : DifficultyController.nextEntropy d (-30.21) = 1).
  { unfold DifficultyController.nextEntropy.
    rewrite Rltb_true by lra. rewrite Hclimb.
    rewrite Rmin_left by lra. rewrite Rmax_right by lra. reflexivity. }
  assert (Hcand : DifficultyController.candidateColors d strongInput = 4%Z).
  { unfold DifficultyController.candidateColors. rewrite Hadj, Hent.
    unfold DifficultyController.candidateOfEntropy,
      DifficultyController.minUniqueColors. rewrite Hmax.
    replace (IZR 2 + 1 * IZR (4 - 2)) with 4 by (cbn; lra).
    rewrite Rmin_left by lra. rewrite Rmax_right by lra.
    apply (Math_round_IZR 4). }
  split; [assumption |].
  unfold d', DifficultyController.update.
  fold (DifficultyController.candidateColors d strongInput).
  rewrite Hpi, Hadj.
  destruct (DifficultyController.stepHold d _) as [[c p] k].
  cbn [DifficultyController.maxUniqueColors
       DifficultyController.entropyClimbRate DifficultyController.integral
       DifficultyController.tse].
  repeat split; try assumption.
  rewrite Rltb_true by lra. unfold DifficultyController.tseClimbRate.
  rewrite Rmin_left by lra. rewrite Rmax_right by lra. reflexivity.
Qed.

(** The gate after a call whose candidate is 4, from explicit field
    values. *)
Lemma stepHold_eval (d : DifficultyController.t) (cur pend cnt inc dec : Z) :
  DifficultyController.currentUniqueColors d = cur ->
  DifficultyController.pendingUniqueColors d = pend ->
  DifficultyController.stepHoldCounter d = cnt ->
  DifficultyController.stepHoldIncrease d = inc ->
  DifficultyController.stepHoldDecrease d = dec ->
  forall k : Z,
  DifficultyController.stepHold d k
  = DifficultyController.stepHold
      (DifficultyController.mk (DifficultyController.n d) 0 0 0 0
         (DifficultyController.tse d) 0 cur inc dec cnt pend 0 0) k.
Proof. intros <- <- <- <- <- k. reflexivity. Qed.

Lemma strong_run_commits :
  let d0 := DifficultyController.new 3 in
  let d1 := DifficultyController.update d0 strongInput in
  let d2 := DifficultyController.update d1 strongInput in
  let d3 := DifficultyController.update d2 strongInput in
  DifficultyController.currentUniqueColors d2 = 2%Z
  /\ DifficultyController.currentUniqueColors d3 = 4%Z.
Proof.
  intros d0 d1 d2 d3.
  destruct new_3_fields as (Hmax0 & Hclimb0 & Hinc0 & Hdec0).
  fold d0 in Hmax0, Hclimb0, Hinc0, Hdec0.
  assert (Hint0 : -3 <= DifficultyController.integral d0 <= 3)
    by (cbn; lra).
  destruct (update_strongInput d0 Hmax0 Hclimb0 Hint0 (knobsInRange_new 3))
    as (Hk0 & Hmax1 & Hclimb1 & Hint1 & Htse1). fold d1 in Hmax1, Hclimb1,
    Hint1, Htse1.
  assert (Hint1' : -3 <= DifficultyController.integral d1 <= 3)
    by (rewrite Hint1; lra).
  destruct (update_strongInput d1 Hmax1 Hclimb1 Hint1'
              (knobsInRange_update d0 strongInput))
    as (Hk1 & Hmax2 & Hclimb2 & Hint2 & Htse2). fold d2 in Hmax2, Hclimb2,
    Hint2, Htse2.
  assert (Hint2' : -3 <= DifficultyController.integral d2 <= 3)
    by (rewrite Hint2; lra).
  destruct (update_strongInput d2 Hmax2 Hclimb2 Hint2'
              (knobsInRange_update d1 strongInput))
    as (Hk2 & _).
  destruct (update_holds d0 strongInput) as [Hinc1 Hdec1].
  fold d1 in Hinc1, Hdec1. rewrite Hinc0 in Hinc1. rewrite Hdec0 in Hdec1.
  destruct (update_holds d1 strongInput) as [Hinc2 Hdec2].
  fold d2 in Hinc2, Hdec2. rewrite Hinc1 in Hinc2. rewrite Hdec1 in Hdec2.
  (* first call: the candidate 4 is new, the counter starts at 1 *)
  pose proof (update_gate d0 strongInput) as Hg1. fold d1 in Hg1.
  rewrite Hk0 in Hg1.
  rewrite (stepHold_eval d0 2 2 0 3 2 eq_refl eq_refl eq_refl Hinc0 Hdec0)
    in Hg1.
  cbn in Hg1. injection Hg1 as Hcur1 Hpend1 Hcnt1.
  (* second call: the same candidate, counter 2 *)
  pose proof (update_gate d1 strongInput) as Hg2. fold d2 in Hg2.
  rewrite Hk1 in Hg2.
  rewrite (stepHold_eval d1 2 4 1 3 2 Hcur1 Hpend1 Hcnt1 Hinc1 Hdec1) in Hg2.
  cbn in Hg2. injection Hg2 as Hcur2 Hpend2 Hcnt2.
  (* third call: counter 3 reaches the hold and tse is 1 *)
  pose proof (update_gate d2 strongInput) as Hg3. fold d3 in Hg3.
  rewrite Hk2 in Hg3.
  rewrite (stepHold_eval d2 2 4 2 3 2 Hcur2 Hpend2 Hcnt2 Hinc2 Hdec2) in Hg3.
  unfold DifficultyController.stepHold in Hg3.
  cbn [DifficultyController.currentUniqueColors
       DifficultyController.pendingUniqueColors
       DifficultyController.stepHoldCounter
       DifficultyController.stepHoldIncrease
       DifficultyController.stepHoldDecrease DifficultyController.tse] in Hg3.
  rewrite Htse2 in Hg3. rewrite (Rltb_false 1 0.5) in Hg3 by lra.
  cbn in Hg3. injection Hg3 as Hcur3 _ _.
  split; assumption.
Qed.

Lemma uniqueColors_change_needs_hold_witness :
  dcCandidateAt (DifficultyController.new 3)
    [strongInput; strongInput; strongInput] 0
  = Some 4%Z.
Proof.
  destruct strong_run_commits as [Hbefore Hafter].
  assert (Hchanged :
    DifficultyController.currentUniqueColors
      (DifficultyController.update
         (dcBefore (DifficultyController.new 3)
            [strongInput; strongInput; strongInput] 2) strongInput)
    <> DifficultyController.currentUniqueColors
         (dcBefore (DifficultyController.new 3)
            [strongInput; strongInput; strongInput] 2)).
  { unfold dcBefore. cbn [firstn dcRun]. rewrite Hbefore, Hafter. lia. }
  destruct (uniqueColors_change_needs_hold 3
              [strongInput; strongInput; strongInput] 2 strongInput
              eq_refl Hchanged) as (_ & Hheld & _).
  unfold dcBefore in Hheld. cbn [firstn dcRun] in Hheld.
  rewrite Hbefore, Hafter in Hheld. cbn [Z.gtb Z.compare Pos.compare
    Pos.compare_cont] in Hheld.
  destruct new_3_fields as (_ & _ & Hinc & _). rewrite Hinc in Hheld.
  apply Hheld. cbn. lia.
Defined.

(** ** Which operations change theta (C6) *)

Lemma generateNextTrial_keeps_ability (tr : WorkingMemoryTrainer.t) (k : rng) :
  WorkingMemoryTrainer.abilityModel
    (snd (fst (WorkingMemoryTrainer.generateNextTrial tr k)))
  = WorkingMemoryTrainer.abilityModel tr.
Proof.
  unfold WorkingMemoryTrainer.generateNextTrial, bind.
  destruct (MatchGenerator.shouldCreateMatch _ _ k) as [decision k1].
  destruct (ColorSequenceGenerator.generateNextColor _ _ _ _ _ _ k1)
    as [generated k2].
  destruct (WorkingMemoryTrainer.generatePosition tr k2) as [position k3].
  reflexivity.
Qed.

(** C6 (amended). Every public operation of the engine leaves theta
    unchanged, or is [reset] (theta becomes the prior 1.5), or is a valid
    response (theta becomes the EMA blend
    [(1 - 0.15) * theta + 0.15 * rawDPrime]), or is [warmStart] with a
    strategic object that carries a theta, which is then assigned to the
    ability model verbatim. *)
Theorem theta_changes_by_ema_reset_or_warmStart
    (e : NBackEngine.t) (o : NBackEngine.op) (k : rng) :
  let e' := fst (NBackEngine.step e o k) in
  thetaEmaOnly e o e'
  \/ (exists strategic recency restored,
         o = NBackEngine.WarmStart (Some strategic) recency
         /\ st_theta strategic = Some restored
         /\ NBackEngine.thetaOf e' = restored).
Proof.
  intros e'. unfold thetaEmaOnly.
  destruct o as [| userClicked wasMatch reactionTime | | positions | | |
                 trials threshold | | | strategic recency | now];
    unfold e'; cbn [NBackEngine.step]; unfold ret, bind; cbn [fst].
  - (* generateNextTile *)
    left; left. unfold NBackEngine.generateNextTile, bind, ret.
    pose proof (generateNextTrial_keeps_ability (NBackEngine.trainer e) k)
      as Hkeep.
    destruct (WorkingMemoryTrainer.generateNextTrial _ k) as [[tile tr] k1].
    cbn in *. unfold NBackEngine.thetaOf. cbn. rewrite Hkeep. reflexivity.
  - (* onUserResponse *)
    unfold NBackEngine.onUserResponse.
    destruct (NBackEngine.currentTile e) as [tile |]; [| left; left; reflexivity].
    unfold WorkingMemoryTrainer.recordResponse.
    destruct (WorkingMemoryTrainer.isValidTrial reactionTime);
      [| left; left; reflexivity].
    left; right; right. exists userClicked, wasMatch, reactionTime.
    split; [reflexivity |].
    unfold NBackEngine.thetaOf, trialWindowOf. cbn.
    unfold AbilityModel.thetaAlpha. ring.
  - left; left; reflexivity.
  - left; left; reflexivity.
  - left; left; reflexivity.
  - (* shouldStopSession *)
    left; left. unfold NBackEngine.shouldStopSession.
    destruct (negb _); reflexivity.
  - (* shouldStopForErrors *)
    left; left. unfold NBackEngine.shouldStopForErrors.
    destruct (_ <? _)%Z; [reflexivity |].
    destruct (_ >=? _)%Z; reflexivity.
  - left; left; reflexivity.
  - left; right; left. split; reflexivity.
  - (* warmStart *)
    destruct strategic as [strategic |]; [| left; left].
    + destruct (st_theta strategic) as [restored |] eqn:Htheta.
      * right. exists strategic, recency, restored.
        split; [reflexivity | split; [assumption |]].
        unfold NBackEngine.thetaOf. cbn.
        destruct recency; cbn; rewrite Htheta; reflexivity.
      * left; left. unfold NBackEngine.thetaOf. cbn.
        destruct recency; cbn; rewrite Htheta; reflexivity.
    + unfold NBackEngine.thetaOf. cbn. destruct recency; reflexivity.
  - left; left; reflexivity.
Qed.

Lemma invNorm_half : invNorm 0.5 = 0.
Proof.
  unfold invNorm. rewrite Rltb_false by lra. rewrite Rleb_true by lra.
  cbv zeta. replace (0.5 - 0.5) with 0 by lra. unfold Rdiv. ring.
Qed.

Lemma rawDPrime_empty : AbilityModel.rawDPrime [] = 0.
Proof.
  unfold AbilityModel.rawDPrime, AbilityModel.countWindow. cbn.
  unfold computeDPrime.
  replace ((0 + 0.5) / (0 + 1)) with 0.5 by lra.
  rewrite (Rmin_right 0.99 0.5) by lra. rewrite (Rmax_right 0.01 0.5) by lra.
  rewrite invNorm_half. lra.
Qed.

(** C6, counterexample. [warmStart] with a profile that carries theta = 3
    moves a fresh engine's theta from 1.5 to 3: not the prior, and not the
    EMA blend (which would be 1.275 on the empty trial window). *)
Lemma warmStart_assigns_theta_directly :
  let e := NBackEngine.new (Some 2%nat) (Some palette) in
  let o := NBackEngine.WarmStart (Some thetaOnlyProfile) None in
  NBackEngine.thetaOf (fst (NBackEngine.step e o zeroDraws)) = 3
  /\ (1 - 0.15) * NBackEngine.thetaOf e
     + 0.15 * AbilityModel.rawDPrime
                (trialWindowOf (fst (NBackEngine.step e o zeroDraws)))
     = 1.275
  /\ ~ thetaEmaOnly e o (fst (NBackEngine.step e o zeroDraws)).
Proof.
  intros e o.
  assert (Htheta : NBackEngine.thetaOf (fst (NBackEngine.step e o zeroDraws))
                   = 3) by reflexivity.
  split; [assumption |].
  split.
  { change (trialWindowOf (fst (NBackEngine.step e o zeroDraws)))
      with (@nil AbilityModel.outcome).
    rewrite rawDPrime_empty. unfold NBackEngine.thetaOf. cbn. lra. }
  unfold thetaEmaOnly. rewrite Htheta.
  intros [Hsame | [[Hreset _] | (uc & wm & rt & Hop & _)]].
  - unfold NBackEngine.thetaOf in Hsame. cbn in Hsame. lra.
  - discriminate.
  - discriminate.
Qed.

(** ** The match decision (C9) *)

Lemma maxGap_at_30_percent : MatchGenerator.maxGap (MatchGenerator.new 0.30) = 6%Z.
Proof.
  cbn. rewrite (Math_round_between (1 / 0.30) 3) by lra. reflexivity.
Qed.

Lemma registerMisses_fields (m : MatchGenerator.t) (k : nat) :
  MatchGenerator.maxGap (registerMisses m k) = MatchGenerator.maxGap m
  /\ MatchGenerator.trialsSinceLastMatch (registerMisses m k)
     = (MatchGenerator.trialsSinceLastMatch m + Z.of_nat k)%Z.
Proof.
  revert m. induction k as [| k IH]; intros m.
  - cbn. split; [reflexivity | lia].
  - cbn [registerMisses].
    destruct (IH (MatchGenerator.registerActualMatch m false)) as [-> ->].
    cbn [MatchGenerator.registerActualMatch MatchGenerator.maxGap
         MatchGenerator.trialsSinceLastMatch].
    split; [reflexivity | lia].
Qed.

(** C9 (amended). [shouldCreateMatch] returns
    [{shouldMatch: false, isForced: false}] without drawing whenever the
    window holds fewer than n symbols (so not on the first two trials at
    n = 2); and whenever the window holds at least n symbols and
    [trialsSinceLastMatch] exceeds [maxGap], it returns
    [shouldMatch = true] with [isForced = true] for every draw in [0, 1).
    [maxGap] is [round(1 / targetRate) * 2] after construction and after
    [setTargetRate]; it is 6 at the initial rate 0.30. *)
Theorem shouldCreateMatch_short_window_and_forced
    (m : MatchGenerator.t) (memoryState : WorkingMemoryState.t) (k : rng) :
  ((length (WorkingMemoryState.recentColors memoryState)
    < WorkingMemoryState.n memoryState)%nat ->
   MatchGenerator.shouldCreateMatch m memoryState k
   = (MatchGenerator.mkDecision false false, k))
  /\ (forall c : jsval,
         MatchGenerator.shouldCreateMatch m (WorkingMemoryState.new 2) k
         = (MatchGenerator.mkDecision false false, k)
         /\ MatchGenerator.shouldCreateMatch m
              (WorkingMemoryState.addColor (WorkingMemoryState.new 2) c) k
            = (MatchGenerator.mkDecision false false, k))
  /\ ((WorkingMemoryState.n memoryState
       <= length (WorkingMemoryState.recentColors memoryState))%nat ->
      (MatchGenerator.trialsSinceLastMatch m > MatchGenerator.maxGap m)%Z ->
      0 <= stream k (pos k) < 1 ->
      fst (MatchGenerator.shouldCreateMatch m memoryState k)
      = MatchGenerator.mkDecision true true)
  /\ (forall rate : R,
         MatchGenerator.maxGap (MatchGenerator.new rate)
         = (Math_round (1 / rate) * 2)%Z
         /\ MatchGenerator.maxGap (MatchGenerator.setTargetRate m rate)
            = (Math_round
                 (1 / MatchGenerator.targetRate
                        (MatchGenerator.setTargetRate m rate)) * 2)%Z)
  /\ MatchGenerator.maxGap (MatchGenerator.new 0.30) = 6%Z.
Proof.
  split; [| split; [| split; [| split]]].
  - intros Hshort. unfold MatchGenerator.shouldCreateMatch.
    apply Nat.ltb_lt in Hshort. rewrite Hshort. reflexivity.
  - intros c. split; reflexivity.
  - intros Hlong Hgap Hdraw. unfold MatchGenerator.shouldCreateMatch.
    apply Nat.ltb_ge in Hlong. rewrite Hlong.
    unfold MatchGenerator.matchProbability.
    assert (Hgt : (MatchGenerator.trialsSinceLastMatch m
                   >? MatchGenerator.maxGap m)%Z = true)
      by (apply Z.gtb_lt; lia).
    rewrite Hgt. unfold bind, Math_random, ret. cbn [fst].
    rewrite (Rmax_left 1.0 0) by lra. rewrite (Rmin_left 1.0 1) by lra.
    rewrite Rltb_true by lra. reflexivity.
  - intros rate. split; reflexivity.
  - apply maxGap_at_30_percent.
Qed.

Lemma shouldCreateMatch_short_window_and_forced_witness :
  let m := registerMisses (MatchGenerator.new 0.30) 7 in
  let window := windowAfter 2 [JStr "blue"; JStr "purple"; JStr "green"] in
  fst (MatchGenerator.shouldCreateMatch m window zeroDraws)
  = MatchGenerator.mkDecision true true.
Proof.
  intros m window.
  destruct (registerMisses_fields (MatchGenerator.new 0.30) 7) as [Hgap Hsince].
  rewrite maxGap_at_30_percent in Hgap.
  apply (shouldCreateMatch_short_window_and_forced m window zeroDraws).
  - cbn. lia.
  - fold m in Hgap, Hsince. rewrite Hgap, Hsince. cbn. lia.
  - cbn. lra.
Defined.

(** On the trainer: while the window holds fewer than n symbols there is
    no n-back colour, and the generated tile is never a match. *)
Lemma short_window_tile_is_no_match (tr : WorkingMemoryTrainer.t) (k : rng) :
  let memoryState := ColorSequenceGenerator.memoryState
                       (WorkingMemoryTrainer.colorGenerator tr) in
  (length (WorkingMemoryState.recentColors memoryState)
   < WorkingMemoryState.n memoryState)%nat ->
  WorkingMemoryTrainer.tl_isMatch
    (fst (fst (WorkingMemoryTrainer.generateNextTrial tr k))) = false.
Proof.
  intros memoryState Hshort.
  assert (HnBack : MatchGenerator.getNBackColor memoryState = JNull).
  { unfold MatchGenerator.getNBackColor.
    apply Nat.ltb_lt in Hshort. rewrite Hshort. reflexivity. }
  unfold WorkingMemoryTrainer.generateNextTrial, bind, ret.
  unfold ColorSequenceGenerator.getMemoryState. fold memoryState.
  rewrite HnBack.
  destruct (MatchGenerator.shouldCreateMatch _ _ k) as [decision k1].
  destruct (ColorSequenceGenerator.generateNextColor _ _ _ _ _ _ k1)
    as [generated k2].
  destruct (WorkingMemoryTrainer.generatePosition tr k2) as [position k3].
  reflexivity.
Qed.

(** C9, counterexample. Seven trials into a session at n = 8 the window
    holds 7 symbols and [trialsSinceLastMatch = 7] exceeds [maxGap = 6],
    yet [shouldCreateMatch] returns no match (and draws nothing). *)
Lemma shouldCreateMatch_gap_on_short_window :
  (MatchGenerator.trialsSinceLastMatch starvedGenerator
   > MatchGenerator.maxGap starvedGenerator)%Z
  /\ MatchGenerator.shouldCreateMatch starvedGenerator sevenColors zeroDraws
     = (MatchGenerator.mkDecision false false, zeroDraws)
  /\ fst (MatchGenerator.shouldCreateMatch starvedGenerator sevenColors
            zeroDraws)
     <> MatchGenerator.mkDecision true true.
Proof.
  destruct (registerMisses_fields (MatchGenerator.new 0.30) 7) as [Hgap Hsince].
  rewrite maxGap_at_30_percent in Hgap.
  fold starvedGenerator in Hgap, Hsince.
  assert (Hresult :
    MatchGenerator.shouldCreateMatch starvedGenerator sevenColors zeroDraws
    = (MatchGenerator.mkDecision false false, zeroDraws)) by reflexivity.
  split; [rewrite Hgap, Hsince; cbn; lia |].
  split; [assumption |].
  rewrite Hresult. cbn. discriminate.
Qed.

(** ** The sequence generator's window invariant (C1) *)

Lemma addColor_window (m : WorkingMemoryState.t) (c : jsval) :
  (length (WorkingMemoryState.recentColors m)
   <= WorkingMemoryState.n m + 1)%nat ->
  WorkingMemoryState.recentColors (WorkingMemoryState.addColor m c)
  = slice_last (WorkingMemoryState.n m + 1)
      (WorkingMemoryState.recentColors m ++ [c]).
Proof.
  intros Hcap. unfold WorkingMemoryState.addColor, push, shift, slice_last.
  cbn [WorkingMemoryState.recentColors].
  rewrite length_app. cbn [length].
  destruct (Nat.ltb_spec (WorkingMemoryState.n m + 1)
              (length (WorkingMemoryState.recentColors m) + 1)) as [Hfull | Hroom].
  - replace (length (WorkingMemoryState.recentColors m) + 1
             - (WorkingMemoryState.n m + 1))%nat with 1%nat by lia.
    reflexivity.
  - replace (length (WorkingMemoryState.recentColors m) + 1
             - (WorkingMemoryState.n m + 1))%nat with 0%nat by lia.
    reflexivity.
Qed.

Lemma Math_floor_index (r : R) (len : nat) :
  0 <= r < 1 -> (0 < len)%nat ->
  (0 <= Math_floor (r * INR len) < Z.of_nat len)%Z.
Proof.
  intros [Hr0 Hr1] Hlen. unfold Math_floor.
  assert (HlenR : 0 < INR len) by (apply lt_0_INR; assumption).
  destruct (base_Int_part (r * INR len)) as [Hle Hgt].
  assert (Hx0 : 0 <= r * INR len) by nra.
  assert (Hx1 : r * INR len < IZR (Z.of_nat len))
    by (rewrite <- INR_IZR_INZ; nra).
  split.
  - apply Z.lt_succ_r. apply lt_IZR. rewrite succ_IZR. lra.
  - apply lt_IZR. lra.
Qed.

Lemma pickRandom_In (arr : list jsval) (k : rng) :
  drawsInRange k -> (0 < length arr)%nat ->
  In (fst (pickRandom arr k)) arr.
Proof.
  intros Hdraws Hlen. unfold pickRandom, bind, Math_random, ret. cbn [fst].
  destruct (Math_floor_index (stream k (pos k)) (length arr) (Hdraws _) Hlen)
    as [H0 Hlt].
  unfold js_index. apply Z.ltb_ge in H0. rewrite H0.
  apply nth_In. apply Z.ltb_ge in H0. lia.
Qed.

Lemma forceRepair_same_palette (g g' : ColorSequenceGenerator.t)
    (w : list jsval) (target : Z) (k : rng) :
  ColorSequenceGenerator.n g' = ColorSequenceGenerator.n g ->
  ColorSequenceGenerator.availableColors g'
  = ColorSequenceGenerator.availableColors g ->
  ColorSequenceGenerator.forceRepair g' w target k
  = ColorSequenceGenerator.forceRepair g w target k.
Proof.
  intros Hn Hcolors. unfold ColorSequenceGenerator.forceRepair.
  rewrite Hn, Hcolors. reflexivity.
Qed.

Lemma isValidNextColor_distinct (g : ColorSequenceGenerator.t)
    (w : list jsval) (c : jsval) (target : Z) :
  ColorSequenceGenerator.isValidNextColor g w c target = true
  <-> distinctAfter (ColorSequenceGenerator.n g) w c = target.
Proof.
  unfold ColorSequenceGenerator.isValidNextColor, distinctAfter,
    ColorSequenceGenerator.simulated.
  apply Z.eqb_eq.
Qed.

(** [pickNextWithConstraint] returns a colour that passes the window check,
    or the output of [forceRepair]. *)
Lemma pickNextWithConstraint_cases (g : ColorSequenceGenerator.t)
    (w candidates : list jsval) (target : Z) (k : rng) :
  drawsInRange k ->
  let c := fst (ColorSequenceGenerator.pickNextWithConstraint g w candidates
                  target k) in
  distinctAfter (ColorSequenceGenerator.n g) w c = target
  \/ fromRepair g w target c.
Proof.
  intros Hdraws c. unfold c, ColorSequenceGenerator.pickNextWithConstraint.
  destruct (Nat.ltb_spec 0 (length (filter
              (fun c0 => ColorSequenceGenerator.isValidNextColor g w c0 target)
              candidates))) as [Hsome | Hnone].
  - left. apply isValidNextColor_distinct.
    pose proof (pickRandom_In _ k Hdraws Hsome) as Hin.
    apply filter_In in Hin. apply Hin.
  - right. exists k. split; [assumption | reflexivity].
Qed.

Lemma sameSetting_refl (g : ColorSequenceGenerator.t) : sameSetting g g.
Proof. repeat split. Qed.

Lemma sameSetting_setActiveSet (g : ColorSequenceGenerator.t)
    (s : option (list jsval)) :
  sameSetting g (ColorSequenceGenerator.setActiveSet g s).
Proof. repeat split. Qed.

Lemma sameSetting_trans (g1 g2 g3 : ColorSequenceGenerator.t) :
  sameSetting g1 g2 -> sameSetting g2 g3 -> sameSetting g1 g3.
Proof.
  intros (Hn & Hc & Hm) (Hn' & Hc' & Hm').
  repeat split; congruence.
Qed.

Lemma checkedOrRepaired_sameSetting (g g' : ColorSequenceGenerator.t)
    (w : list jsval) (target : Z) (c : jsval) :
  sameSetting g g' ->
  checkedOrRepaired g' w target c -> checkedOrRepaired g w target c.
Proof.
  intros (Hn & Hcolors & _) [Hok | (k0 & Hk0 & Hrep)].
  - left. rewrite <- Hn. assumption.
  - right. exists k0. split; [assumption |].
    rewrite <- (forceRepair_same_palette g g' w target k0 Hn Hcolors).
    assumption.
Qed.

Lemma pickNext_checkedOrRepaired (g : ColorSequenceGenerator.t)
    (w candidates : list jsval) (target : Z) (k : rng) :
  drawsInRange k ->
  checkedOrRepaired g w target
    (fst (ColorSequenceGenerator.pickNextWithConstraint g w candidates
            target k)).
Proof. intros Hdraws. apply pickNextWithConstraint_cases. assumption. Qed.

Lemma pickRandom_rng (arr : list jsval) (k : rng) :
  snd (pickRandom arr k) = mkRng (stream k) (S (pos k)).
Proof. reflexivity. Qed.

(** In a swap, the replacement is drawn among validated colours. *)
Lemma swap_replacement_checked (g : ColorSequenceGenerator.t)
    (w pool : list jsval) (target : Z) (k : rng) :
  drawsInRange k ->
  (0 < length (filter
        (fun c => ColorSequenceGenerator.isValidNextColor g w c target)
        pool))%nat ->
  distinctAfter (ColorSequenceGenerator.n g) w
    (fst (pickRandom
            (filter
               (fun c => ColorSequenceGenerator.isValidNextColor g w c target)
               pool) k))
  = target.
Proof.
  intros Hdraws Hsome. apply isValidNextColor_distinct.
  pose proof (pickRandom_In _ k Hdraws Hsome) as Hin.
  apply filter_In in Hin. apply Hin.
Qed.

Lemma generateForMinLoad_cases (g : ColorSequenceGenerator.t)
    (w : list jsval) (excludeColor : jsval) (target : Z) (k : rng) :
  drawsInRange k ->
  let out := fst (ColorSequenceGenerator.generateForMinLoad g w excludeColor
                    target k) in
  checkedOrRepaired g w target (fst out) /\ sameSetting g (snd out).
Proof.
  intros Hdraws out. unfold out, ColorSequenceGenerator.generateForMinLoad.
  destruct (_ && _).
  - unfold bind, ret.
    pose proof (pickNext_checkedOrRepaired g w
                  (ColorSequenceGenerator.freshCandidates g w excludeColor)
                  target k Hdraws) as Hpick.
    destruct (ColorSequenceGenerator.pickNextWithConstraint g w _ target k)
      as [c k1].
    cbn [fst snd] in *. split; [assumption | apply sameSetting_setActiveSet].
  - set (g1 := if ColorSequenceGenerator.activeSetStale g 2 then _ else g).
    assert (Hsame : sameSetting g g1).
    { unfold g1. destruct (ColorSequenceGenerator.activeSetStale g 2);
        [apply sameSetting_setActiveSet | apply sameSetting_refl]. }
    set (active := ColorSequenceGenerator.activeOrEmpty g1).
    set (swapPool := filter (fun c => negb (js_includes active c)) _).
    set (replacements := filter _ swapPool).
    set (normalPool := ColorSequenceGenerator.withoutExcluded active _).
    unfold bind, Math_random, ret.
    assert (Hdraws1 : drawsInRange (mkRng (stream k) (S (pos k))))
      by (intros i; apply Hdraws).
    assert (Hdraws2 : drawsInRange (mkRng (stream k) (S (S (pos k)))))
      by (intros i; apply Hdraws).
    assert (Hnormal : forall k0, drawsInRange k0 ->
      let res := ColorSequenceGenerator.pickNextWithConstraint g1 w
                   normalPool target k0 in
      checkedOrRepaired g w target (fst (fst (let '(c, k') := res in
                                              (c, g1, k'))))
      /\ sameSetting g (snd (fst (let '(c, k') := res in (c, g1, k'))))).
    { intros k0 Hk0 res.
      pose proof (pickNext_checkedOrRepaired g1 w normalPool target k0 Hk0)
        as Hpick. fold res in Hpick.
      destruct res as [c k3]. cbn [fst snd] in *. split; [| assumption].
      apply (checkedOrRepaired_sameSetting g g1); assumption. }
    destruct (Rltb (stream k (pos k)) ColorSequenceGenerator.swapProbability);
      [| apply Hnormal; assumption].
    rewrite (surjective_pairing (pickRandom active _)), pickRandom_rng.
    cbn [stream pos].
    destruct (Nat.ltb_spec 0 (length swapPool)); cbn [andb];
      [| apply Hnormal; assumption].
    destruct (Nat.ltb_spec 0 (length replacements)) as [Hvalid | Hnone];
      [| apply Hnormal; assumption].
    pose proof (swap_replacement_checked g1 w swapPool target _ Hdraws2 Hvalid)
      as Hchecked. fold replacements in Hchecked.
    destruct (pickRandom replacements _) as [replacement k3].
    cbn [fst snd] in *. split.
    + apply (checkedOrRepaired_sameSetting g g1); [assumption |].
      left. assumption.
    + apply (sameSetting_trans g g1); [assumption |].
      apply sameSetting_setActiveSet.
Qed.

Lemma generateForMaxLoad_cases (g : ColorSequenceGenerator.t)
    (w : list jsval) (excludeColor : jsval) (target : Z) (k : rng) :
  drawsInRange k ->
  let out := fst (ColorSequenceGenerator.generateForMaxLoad g w excludeColor
                    target k) in
  checkedOrRepaired g w target (fst out) /\ sameSetting g (snd out).
Proof.
  intros Hdraws out. unfold out, ColorSequenceGenerator.generateForMaxLoad.
  unfold bind, ret.
  pose proof (pickNext_checkedOrRepaired g w
                (ColorSequenceGenerator.freshCandidates g w excludeColor)
                target k Hdraws) as Hpick.
  destruct (ColorSequenceGenerator.pickNextWithConstraint g w _ target k)
    as [c k1].
  cbn [fst snd] in *. split; [assumption | apply sameSetting_refl].
Qed.

Lemma generateForMidLoad_cases (g : ColorSequenceGenerator.t)
    (w : list jsval) (excludeColor : jsval) (target : Z) (k : rng) :
  drawsInRange k ->
  let out := fst (ColorSequenceGenerator.generateForMidLoad g w excludeColor
                    target k) in
  checkedOrRepaired g w target (fst out) /\ sameSetting g (snd out).
Proof.
  intros Hdraws out. unfold out, ColorSequenceGenerator.generateForMidLoad.
  destruct (_ && _).
  - unfold bind, ret.
    pose proof (pickNext_checkedOrRepaired g w
                  (ColorSequenceGenerator.freshCandidates g w excludeColor)
                  target k Hdraws) as Hpick.
    destruct (ColorSequenceGenerator.pickNextWithConstraint g w _ target k)
      as [c k1].
    cbn [fst snd] in *. split; [assumption | apply sameSetting_setActiveSet].
  - set (g1 := if ColorSequenceGenerator.activeSetStale g target then _
               else g).
    assert (Hsame : sameSetting g g1).
    { unfold g1. destruct (ColorSequenceGenerator.activeSetStale g target);
        [apply sameSetting_setActiveSet | apply sameSetting_refl]. }
    set (active := ColorSequenceGenerator.activeOrEmpty g1).
    set (swapPool := filter (fun c => negb (js_includes active c)) _).
    set (replacements := filter _ swapPool).
    set (normalPool := ColorSequenceGenerator.withoutExcluded active _).
    unfold bind, Math_random, ret.
    assert (Hdraws1 : drawsInRange (mkRng (stream k) (S (pos k))))
      by (intros i; apply Hdraws).
    assert (Hdraws2 : drawsInRange (mkRng (stream k) (S (S (pos k)))))
      by (intros i; apply Hdraws).
    assert (Hnormal : forall k0, drawsInRange k0 ->
      let res := ColorSequenceGenerator.pickNextWithConstraint g1 w
                   normalPool target k0 in
      checkedOrRepaired g w target (fst (fst (let '(c, k') := res in
                                              (c, g1, k'))))
      /\ sameSetting g (snd (fst (let '(c, k') := res in (c, g1, k'))))).
    { intros k0 Hk0 res.
      pose proof (pickNext_checkedOrRepaired g1 w normalPool target k0 Hk0)
        as Hpick. fold res in Hpick.
      destruct res as [c k3]. cbn [fst snd] in *. split; [| assumption].
      apply (checkedOrRepaired_sameSetting g g1); assumption. }
    destruct (Rltb (stream k (pos k)) ColorSequenceGenerator.swapProbability);
      [| apply Hnormal; assumption].
    cbn [stream pos].
    destruct (Nat.ltb_spec 0 (length swapPool)); cbn [andb];
      [| apply Hnormal; assumption].
    destruct (Nat.ltb_spec 0 (length replacements)) as [Hvalid | Hnone];
      [| apply Hnormal; assumption].
    pose proof (swap_replacement_checked g1 w swapPool target _ Hdraws2 Hvalid)
      as Hchecked. fold replacements in Hchecked.
    destruct (pickRandom replacements _) as [replacement k3].
    cbn [fst snd] in *. split.
    + apply (checkedOrRepaired_sameSetting g g1); [assumption |].
      left. assumption.
    + apply (sameSetting_trans g g1); [assumption |].
      apply sameSetting_setActiveSet.
Qed.

Lemma generateByRegime_cases (g : ColorSequenceGenerator.t)
    (w : list jsval) (excludeColor : jsval) (target : Z) (k : rng) :
  drawsInRange k ->
  let out := fst (ColorSequenceGenerator.generateByRegime g w excludeColor
                    target k) in
  checkedOrRepaired g w target (fst out) /\ sameSetting g (snd out).
Proof.
  intros Hdraws. unfold ColorSequenceGenerator.generateByRegime.
  destruct (target =? 2)%Z; [apply generateForMinLoad_cases; assumption |].
  destruct (target =? _)%Z;
    [apply generateForMaxLoad_cases | apply generateForMidLoad_cases];
    assumption.
Qed.

Lemma generateNonMatch_cases (g : ColorSequenceGenerator.t)
    (w : list jsval) (excludeColor : jsval) (target : Z) (tse : R) (k : rng) :
  drawsInRange k ->
  let out := fst (ColorSequenceGenerator.generateNonMatch g w excludeColor
                    target tse k) in
  checkedOrRepaired g w target (fst out) /\ sameSetting g (snd out).
Proof.
  intros Hdraws. unfold ColorSequenceGenerator.generateNonMatch.
  destruct (_ && _); [| apply generateByRegime_cases; assumption].
  unfold bind, Math_random, ret.
  assert (Hdraws1 : drawsInRange (mkRng (stream k) (S (pos k))))
    by (intros i; apply Hdraws).
  destruct (Rltb _ _); cbn [andb];
    [| apply generateByRegime_cases; assumption].
  destruct (ColorSequenceGenerator.isValidNextColor g w _ target) eqn:Hvalid;
    [| apply generateByRegime_cases; assumption].
  cbn [fst snd]. split; [| apply sameSetting_refl].
  left. apply isValidNextColor_distinct. assumption.
Qed.

(** *** Counting distinct colours *)

Lemma length_nodup_snoc (l : list jsval) (x : jsval) :
  length (nodup jsval_eq_dec (l ++ [x]))
  = if in_dec jsval_eq_dec x l then length (nodup jsval_eq_dec l)
    else S (length (nodup jsval_eq_dec l)).
Proof.
  induction l as [| a l IH]; [reflexivity |].
  cbn [app nodup].
  destruct (in_dec jsval_eq_dec a (l ++ [x])) as [Hin | Hout];
    destruct (in_dec jsval_eq_dec a l) as [Hal | Hal];
    destruct (in_dec jsval_eq_dec x (a :: l)) as [Hxl | Hxl];
    destruct (in_dec jsval_eq_dec x l) as [Hx | Hx];
    cbn [length] in *; rewrite ?IH; try reflexivity; exfalso;
    rewrite ?in_app_iff in *; cbn [In] in *;
    intuition (subst; auto).
Qed.

Lemma set_size_snoc_seen (l : list jsval) (c : jsval) :
  In c l -> set_size (l ++ [c]) = set_size l.
Proof.
  intros Hin. unfold set_size, js_set. rewrite !length_rev, rev_app_distr.
  cbn [rev app nodup].
  destruct (in_dec jsval_eq_dec c (rev l)) as [_ | Hout]; [reflexivity |].
  exfalso. apply Hout. apply in_rev in Hin. assumption.
Qed.

Lemma set_size_cons (x : jsval) (l : list jsval) :
  (set_size l <= set_size (x :: l) <= S (set_size l))%nat.
Proof.
  unfold set_size, js_set. rewrite !length_rev. cbn [rev].
  rewrite length_nodup_snoc.
  destruct (in_dec jsval_eq_dec x (rev l)); lia.
Qed.

(** Replaying the n-back colour keeps the load or lowers it by one. *)
Lemma match_keeps_or_lowers_load (m : WorkingMemoryState.t) :
  (1 <= WorkingMemoryState.n m)%nat ->
  (WorkingMemoryState.n m <= length (WorkingMemoryState.recentColors m)
   <= WorkingMemoryState.n m + 1)%nat ->
  let w := WorkingMemoryState.recentColors m in
  let w' := WorkingMemoryState.recentColors
              (WorkingMemoryState.addColor m (MatchGenerator.getNBackColor m)) in
  (set_size w' <= set_size w <= S (set_size w'))%nat.
Proof.
  intros Hn [Hlow Hcap] w w'.
  unfold w', w. clear w w'. rewrite addColor_window by assumption.
  unfold MatchGenerator.getNBackColor.
  remember (WorkingMemoryState.recentColors m) as w eqn:Hw0. clear Hw0.
  destruct (Nat.ltb_spec (length w) (WorkingMemoryState.n m)) as [Hlt | _];
    [lia |].
  unfold js_index.
  assert (Hidx : (Z.of_nat (length w) - Z.of_nat (WorkingMemoryState.n m)
                  <? 0)%Z = false) by (apply Z.ltb_ge; lia).
  rewrite Hidx.
  replace (Z.to_nat (Z.of_nat (length w) - Z.of_nat (WorkingMemoryState.n m)))
    with (length w - WorkingMemoryState.n m)%nat by lia.
  set (c := nth (length w - WorkingMemoryState.n m) w JUndefined).
  unfold slice_last. rewrite length_app. cbn [length].
  destruct (Nat.eq_dec (length w) (WorkingMemoryState.n m)) as [Heq | Hne].
  - replace (length w + 1 - (WorkingMemoryState.n m + 1))%nat with 0%nat
      by lia.
    cbn [skipn]. rewrite set_size_snoc_seen; [lia |].
    apply nth_In. lia.
  - replace (length w + 1 - (WorkingMemoryState.n m + 1))%nat with 1%nat
      by lia.
    destruct w as [| x w0] eqn:Hw; [cbn in *; lia |].
    cbn [app skipn].
    assert (Hc : In c w0).
    { unfold c. cbn [length] in *.
      replace (S (length w0) - WorkingMemoryState.n m)%nat with 1%nat by lia.
      cbn [nth]. apply nth_In. lia. }
    rewrite set_size_snoc_seen by assumption.
    pose proof (set_size_cons x w0). lia.
Qed.

Lemma windowCapped_new (n : nat) (colors : list paletteColor) :
  windowCapped (ColorSequenceGenerator.new n colors).
Proof. split; cbn; [reflexivity | lia]. Qed.

Lemma addColor_capped (m : WorkingMemoryState.t) (c : jsval) :
  (length (WorkingMemoryState.recentColors m)
   <= WorkingMemoryState.n m + 1)%nat ->
  (length (WorkingMemoryState.recentColors (WorkingMemoryState.addColor m c))
   <= WorkingMemoryState.n m + 1)%nat.
Proof.
  intros Hcap. unfold WorkingMemoryState.addColor, push, shift.
  cbn [WorkingMemoryState.recentColors].
  destruct (Nat.ltb_spec (WorkingMemoryState.n m + 1)
              (length (WorkingMemoryState.recentColors m ++ [c])))
    as [Hfull | Hroom]; [| assumption].
  rewrite length_app in Hfull. cbn [length] in Hfull.
  destruct (WorkingMemoryState.recentColors m) as [| x w0]; cbn in *; [lia |].
  rewrite length_app. cbn. lia.
Qed.

Lemma windowCapped_updateMemoryState (g : ColorSequenceGenerator.t)
    (c : jsval) :
  windowCapped g -> windowCapped (ColorSequenceGenerator.updateMemoryState g c).
Proof.
  intros [Hn Hcap]. split; cbn; [assumption |].
  rewrite <- Hn. apply addColor_capped. rewrite Hn. assumption.
Qed.

(** *** Steady windows *)

Lemma length_nodup_le (l : list jsval) :
  (length (nodup jsval_eq_dec l) <= length l)%nat.
Proof.
  induction l as [| x l IH]; [apply Nat.le_refl |].
  cbn [nodup]. destruct (in_dec jsval_eq_dec x l); cbn [length]; lia.
Qed.

Lemma set_size_le (l : list jsval) : (set_size l <= length l)%nat.
Proof.
  unfold set_size, js_set. rewrite length_rev.
  pose proof (length_nodup_le (rev l)) as H. rewrite length_rev in H.
  assumption.
Qed.

Lemma js_includes_In (l : list jsval) (c : jsval) :
  js_includes l c = true <-> In c l.
Proof.
  unfold js_includes. rewrite existsb_exists. split.
  - intros (x & Hin & Heq). unfold js_eqb in Heq.
    destruct (jsval_eq_dec c x) as [-> | _]; [assumption | discriminate].
  - intros Hin. exists c. split; [assumption |]. unfold js_eqb.
    destruct (jsval_eq_dec c c); [reflexivity | contradiction].
Qed.

Lemma In_js_set (l : list jsval) (c : jsval) : In c (js_set l) <-> In c l.
Proof.
  unfold js_set. rewrite <- in_rev, nodup_In, <- in_rev. reflexivity.
Qed.

(** The distinct count only depends on which colours occur. *)
Lemma set_size_incl (l l' : list jsval) :
  incl l l' -> (set_size l <= set_size l')%nat.
Proof.
  intros Hincl. unfold set_size.
  apply NoDup_incl_length.
  - unfold js_set. apply NoDup_rev. apply NoDup_nodup.
  - intros x Hx. apply (proj2 (In_js_set l' x)). apply Hincl.
    apply (proj1 (In_js_set l x)). assumption.
Qed.

Lemma set_size_same (l l' : list jsval) :
  incl l l' -> incl l' l -> set_size l = set_size l'.
Proof.
  intros H1 H2. apply Nat.le_antisymm; apply set_size_incl; assumption.
Qed.

Lemma set_size_snoc_new (l : list jsval) (c : jsval) :
  ~ In c l -> set_size (l ++ [c]) = S (set_size l).
Proof.
  intros Hout. unfold set_size, js_set. rewrite !length_rev, rev_app_distr.
  cbn [rev app nodup].
  destruct (in_dec jsval_eq_dec c (rev l)) as [Hin | _]; [| reflexivity].
  exfalso. apply Hout. apply in_rev. assumption.
Qed.

Lemma nodup_snoc_last (l : list jsval) (x : jsval) :
  exists m, nodup jsval_eq_dec (l ++ [x]) = m ++ [x].
Proof.
  induction l as [| a l [m IH]]; [exists []; reflexivity |].
  cbn [app nodup]. rewrite IH.
  destruct (in_dec jsval_eq_dec a (l ++ [x]));
    [exists m | exists (a :: m)]; reflexivity.
Qed.

(** [[...new Set(w)][0]] is the oldest colour of the window. *)
Lemma js_set_head (x : jsval) (l : list jsval) :
  js_index (js_set (x :: l)) 0 = x.
Proof.
  unfold js_set. cbn [rev].
  destruct (nodup_snoc_last (rev l) x) as [m Hm]. rewrite Hm.
  rewrite rev_app_distr. reflexivity.
Qed.

Lemma slice_last_short {A} (k : nat) (l : list A) :
  (length l <= k)%nat -> slice_last k l = l.
Proof.
  intros H. unfold slice_last.
  replace (length l - k)%nat with 0%nat by lia. reflexivity.
Qed.

Lemma slice_last_full {A} (k : nat) (x : A) (l : list A) (c : A) :
  length (x :: l) = k -> slice_last k ((x :: l) ++ [c]) = l ++ [c].
Proof.
  intros H. unfold slice_last. rewrite length_app. cbn [length] in *.
  replace (S (length l) + 1 - k)%nat with 1%nat by lia. reflexivity.
Qed.

(** Repeating the oldest colour rotates the window or extends it by a
    colour it already holds. *)
Lemma distinctAfter_oldest (n : nat) (x : jsval) (w0 : list jsval) :
  (length (x :: w0) <= n + 1)%nat ->
  distinctAfter n (x :: w0) x = Z.of_nat (set_size (x :: w0)).
Proof.
  intros Hcap. unfold distinctAfter. f_equal.
  destruct (Nat.eq_dec (length (x :: w0)) (n + 1)) as [Hfull | Hroom].
  - rewrite slice_last_full by assumption.
    apply set_size_same; intros y Hy.
    + apply in_app_or in Hy. destruct Hy as [Hy | [<- | []]];
        [right; assumption | left; reflexivity].
    + apply in_or_app. destruct Hy as [<- | Hy];
        [right; left; reflexivity | left; assumption].
  - rewrite slice_last_short
      by (rewrite length_app; cbn [length] in *; lia).
    apply set_size_snoc_seen. left. reflexivity.
Qed.

(** On a full window whose oldest colour occurs again, a colour from
    outside the window raises the distinct count by one. *)
Lemma distinctAfter_fresh (n : nat) (w : list jsval) (c : jsval) :
  length w = (n + 1)%nat -> oldestRepeats w = true -> ~ In c w ->
  distinctAfter n w c = (Z.of_nat (set_size w) + 1)%Z.
Proof.
  intros Hfull Hrep Hout. destruct w as [| x w0]; [discriminate |].
  cbn [oldestRepeats] in Hrep. apply (proj1 (js_includes_In _ _)) in Hrep.
  unfold distinctAfter. rewrite slice_last_full by assumption.
  rewrite set_size_snoc_new by (intros H; apply Hout; right; assumption).
  rewrite (set_size_same (x :: w0) w0).
  - lia.
  - intros y [<- | Hy]; assumption.
  - intros y Hy. right. assumption.
Qed.

(** A palette with more names than the window has colours offers a name
    outside the window. *)
Lemma fresh_name_exists (names w : list jsval) :
  (set_size w < set_size names)%nat ->
  (0 < length (filter (fun c => negb (js_includes (js_set w) c)) names))%nat.
Proof.
  intros Hless.
  destruct (filter (fun c => negb (js_includes (js_set w) c)) names)
    as [| y rest] eqn:Hfilter; [| cbn; lia].
  exfalso. assert (Hincl : incl names w).
  { intros x Hx.
    destruct (js_includes (js_set w) x) eqn:Hinc.
    - apply (proj1 (js_includes_In _ _)) in Hinc.
      apply (proj1 (In_js_set _ _)) in Hinc. assumption.
    - assert (Hin : In x (filter (fun c => negb (js_includes (js_set w) c))
                            names))
        by (apply filter_In; split; [assumption | rewrite Hinc; reflexivity]).
      rewrite Hfilter in Hin. destruct Hin. }
  apply set_size_incl in Hincl. lia.
Qed.

(** On a steady window the repair fallback returns a colour that passes
    the window check. *)
Lemma forceRepair_steady (g : ColorSequenceGenerator.t) (target : Z)
    (k0 : rng) :
  windowCapped g -> drawsInRange k0 -> (2 <= target)%Z ->
  steadyWindow g target ->
  let w := WorkingMemoryState.recentColors
             (ColorSequenceGenerator.memoryState g) in
  distinctAfter (ColorSequenceGenerator.n g) w
    (fst (ColorSequenceGenerator.forceRepair g w target k0))
  = target.
Proof.
  intros [Hn Hcap] Hdraws Htwo Hsteady w. fold w in Hcap.
  unfold ColorSequenceGenerator.forceRepair.
  rewrite slice_last_short by assumption.
  change (length (js_set w)) with (set_size w).
  destruct Hsteady as [Hat | [(Hcount & Hfull & Hrep) Hpalette]].
  - unfold atTarget in Hat. fold w in Hat. rewrite Hat.
    rewrite Z.ltb_irrefl. cbn [andb]. unfold ret. cbn [fst].
    destruct w as [| x w0]; [cbn in Hat; lia |].
    rewrite js_set_head. rewrite distinctAfter_oldest by assumption.
    assumption.
  - fold w in Hcount, Hfull, Hrep. unfold paletteOffers in Hpalette.
    assert (Hbelow : (Z.of_nat (set_size w) <? target)%Z = true)
      by (apply Z.ltb_lt; lia).
    rewrite Hbelow. cbn [andb].
    assert (Hsome : (0 < length
              (filter (fun c => negb (js_includes (js_set w) c))
                 (colorNames (ColorSequenceGenerator.availableColors g))))%nat)
      by (apply fresh_name_exists; lia).
    assert (Hsomeb : (0 <? length
              (filter (fun c => negb (js_includes (js_set w) c))
                 (colorNames (ColorSequenceGenerator.availableColors g))))%nat
              = true) by (apply Nat.ltb_lt; assumption).
    rewrite Hsomeb.
    pose proof (pickRandom_In _ k0 Hdraws Hsome) as Hin.
    apply filter_In in Hin. destruct Hin as [_ Hout].
    rewrite distinctAfter_fresh; [lia | assumption | assumption |].
    intros Hin. apply (proj2 (In_js_set _ _)) in Hin.
    apply (proj2 (js_includes_In _ _)) in Hin.
    rewrite Hin in Hout. discriminate.
Qed.

(** Replaying the n-back colour on a steady window leaves the window at the
    target, or one short of it with the oldest colour occurring again. *)
Lemma match_keeps_steady (g : ColorSequenceGenerator.t) (target : Z) :
  windowCapped g -> (2 <= target)%Z -> steadyWindow g target ->
  let m := ColorSequenceGenerator.memoryState g in
  let w := WorkingMemoryState.recentColors m in
  let c := MatchGenerator.getNBackColor m in
  let w' := slice_last (ColorSequenceGenerator.n g + 1) (w ++ [c]) in
  truthy c = true ->
  Z.of_nat (set_size w') = target
  \/ (Z.of_nat (set_size w') = (target - 1)%Z
      /\ length w' = (ColorSequenceGenerator.n g + 1)%nat
      /\ oldestRepeats w' = true).
Proof.
  intros [Hn Hcap] Htwo Hsteady m w c w' Htruthy.
  fold m in Hn, Hcap. fold w in Hcap.
  assert (Hshape : atTarget g target
                   \/ (Z.of_nat (set_size w) = (target - 1)%Z
                       /\ length w = (ColorSequenceGenerator.n g + 1)%nat
                       /\ oldestRepeats w = true)).
  { destruct Hsteady as [Hat | [Hafter _]]; [left | right]; assumption. }
  clear Hsteady. unfold atTarget in Hshape. fold m in Hshape.
  fold w in Hshape.
  unfold c, MatchGenerator.getNBackColor in Htruthy.
  unfold w', c, MatchGenerator.getNBackColor. clear w' c.
  fold w in Htruthy |- *. rewrite Hn in Htruthy |- *.
  destruct (Nat.ltb_spec (length w) (ColorSequenceGenerator.n g))
    as [Hshort | Hlong]; [discriminate |].
  clear Htruthy. unfold js_index.
  assert (Hidx : (Z.of_nat (length w) - Z.of_nat (ColorSequenceGenerator.n g)
                  <? 0)%Z = false) by (apply Z.ltb_ge; lia).
  rewrite Hidx.
  replace (Z.to_nat (Z.of_nat (length w)
                     - Z.of_nat (ColorSequenceGenerator.n g)))
    with (length w - ColorSequenceGenerator.n g)%nat by lia.
  pose proof (set_size_le w) as Hle.
  destruct (Nat.eq_dec (length w) (ColorSequenceGenerator.n g + 1))
    as [Hfull | Hroom].
  - destruct w as [| x w0]; [cbn in Hfull; lia |].
    rewrite slice_last_full by assumption.
    replace (length (x :: w0) - ColorSequenceGenerator.n g)%nat with 1%nat
      by (cbn [length] in *; lia).
    cbn [nth].
    assert (Hw0 : w0 <> []).
    { intros ->. destruct Hshape as [Hat | (_ & _ & Hrep)].
      - cbn in Hat. lia.
      - cbn in Hrep. discriminate. }
    destruct w0 as [| y w1]; [contradiction |]. cbn [nth].
    rewrite set_size_snoc_seen by (left; reflexivity).
    pose proof (set_size_cons x (y :: w1)) as [Hlow Hhigh].
    assert (Hlen' : length ((y :: w1) ++ [y])
                    = (ColorSequenceGenerator.n g + 1)%nat)
      by (rewrite length_app; cbn [length] in *; lia).
    assert (Hrep' : oldestRepeats ((y :: w1) ++ [y]) = true).
    { cbn [app oldestRepeats]. apply (proj2 (js_includes_In _ _)).
      apply in_or_app.
      right. left. reflexivity. }
    destruct Hshape as [Hat | (Hcount & _ & Hrep)].
    + destruct (Nat.eq_dec (set_size (y :: w1)) (set_size (x :: y :: w1)))
        as [Heq | Hne]; [left; lia | right].
      repeat split; [lia | assumption | assumption].
    + right. cbn [oldestRepeats] in Hrep.
      apply (proj1 (js_includes_In _ _)) in Hrep.
      rewrite (set_size_same (x :: y :: w1) (y :: w1)) in Hcount.
      * repeat split; assumption.
      * intros z [<- | Hz]; assumption.
      * intros z Hz. right. assumption.
  - assert (Hlen : length w = ColorSequenceGenerator.n g) by lia.
    rewrite slice_last_short by (rewrite length_app; cbn [length]; lia).
    destruct Hshape as [Hat | (_ & Hfull & _)]; [| lia].
    left. replace (length w - ColorSequenceGenerator.n g)%nat with 0%nat
      by lia.
    rewrite set_size_snoc_seen; [assumption |].
    apply nth_In. lia.
Qed.



(** Evaluation of generator code on concrete data, leaving the arithmetic
    on reals alone. *)
Ltac evalGen :=
  cbn -[Rltb Rleb Rdiv IZR Rmult Rplus Rinv Ropp Rminus INR Math_floor
        Math_round Rmax Rmin].

Lemma Math_floor_zero (x : R) : Math_floor (0 * x) = 0%Z.
Proof.
  unfold Math_floor. symmetry. apply Int_part_spec. rewrite Rmult_0_l. lra.
Qed.

Ltac evalEmitMaxLoad :=
  unfold emit, bind, ret;
  unfold ColorSequenceGenerator.generateNextColor; evalGen;
  unfold ColorSequenceGenerator.generateNonMatch;
  rewrite (Rltb_false 1.0 1.0) by lra; evalGen;
  unfold ColorSequenceGenerator.generateByRegime; evalGen;
  unfold ColorSequenceGenerator.generateForMaxLoad, bind, ret; evalGen;
  unfold pickRandom, bind, Math_random, ret; evalGen;
  rewrite !Math_floor_zero; evalGen; reflexivity.

Lemma emit_first_color (p : nat) :
  fst (emit (ColorSequenceGenerator.new 2 palette) 3 false false 1.0
         (zeroDrawsFrom p))
  = ColorSequenceGenerator.mk 2 palette (windowAfter 2 [JStr "blue"]) None
      (Some 3%Z).
Proof. evalEmitMaxLoad. Qed.

Lemma emit_second_color (p : nat) :
  fst (emit (ColorSequenceGenerator.mk 2 palette
               (windowAfter 2 [JStr "blue"]) None (Some 3%Z))
         3 false false 1.0 (zeroDrawsFrom p))
  = ColorSequenceGenerator.mk 2 palette
      (windowAfter 2 [JStr "blue"; JStr "purple"]) None (Some 3%Z).
Proof. evalEmitMaxLoad. Qed.

Lemma emit_third_color (p : nat) :
  fst (emit (ColorSequenceGenerator.mk 2 palette
               (windowAfter 2 [JStr "blue"; JStr "purple"]) None (Some 3%Z))
         3 false false 1.0 (zeroDrawsFrom p))
  = afterThreeColors.
Proof. evalEmitMaxLoad. Qed.

(** [afterThreeColors] is the state a fresh generator at n = 2 reaches in
    three non-match trials at target 3 when every draw is 0. *)
Lemma afterThreeColors_reachable (p1 p2 p3 : nat) :
  fst (emit
         (fst (emit
                 (fst (emit (ColorSequenceGenerator.new 2 palette) 3 false
                         false 1.0 (zeroDrawsFrom p1)))
                 3 false false 1.0 (zeroDrawsFrom p2)))
         3 false false 1.0 (zeroDrawsFrom p3))
  = afterThreeColors.
Proof.
  rewrite emit_first_color, emit_second_color. apply emit_third_color.
Qed.

(** A forced match on [afterThreeColors] replays purple and leaves the
    window [purple, green, purple]. *)
Lemma afterMatchOnPurple_reachable (k : rng) :
  fst (emit afterThreeColors 3 true true 1.0 k) = afterMatchOnPurple.
Proof. reflexivity. Qed.

Lemma afterThreeColors_emits_blue :
  fst (ColorSequenceGenerator.generateNextColor afterThreeColors 2 false
         (JStr "purple") false 1.0 highDraws)
  = (JStr "blue",
     ColorSequenceGenerator.mk 2 palette
       (ColorSequenceGenerator.memoryState afterThreeColors)
       (Some [JStr "blue"; JStr "purple"]) (Some 2%Z)).
Proof.
  unfold ColorSequenceGenerator.generateNextColor. evalGen.
  unfold ColorSequenceGenerator.generateNonMatch.
  rewrite (Rltb_false 1.0 1.0) by lra. evalGen.
  unfold ColorSequenceGenerator.generateByRegime. evalGen.
  unfold ColorSequenceGenerator.generateForMinLoad. evalGen.
  unfold bind, Math_random, highDraws. evalGen.
  rewrite (Rltb_false 0.9)
    by (unfold ColorSequenceGenerator.swapProbability; lra).
  evalGen. reflexivity.
Qed.


(** The target can also drop below the load of a full window. At n = 2
    with the window [blue, purple, green]
    (a session whose target was 3) and the committed target lowered to 2,
    a non-match call whose swap draw is 0.9 finds no valid colour in the
    active pair and falls back to [forceRepair], which returns blue: the
    emitted colour is not the n-back colour (purple), and the new window
    [purple, green, blue] has 3 distinct colours, neither 2 nor 1. *)
Lemma generateNextColor_after_target_drop :
  let nBack := MatchGenerator.getNBackColor
                 (ColorSequenceGenerator.memoryState afterThreeColors) in
  let out := fst (ColorSequenceGenerator.generateNextColor afterThreeColors 2
                    false nBack false 1.0 highDraws) in
  let window := WorkingMemoryState.recentColors
                  (ColorSequenceGenerator.memoryState
                     (ColorSequenceGenerator.updateMemoryState (snd out)
                        (fst out))) in
  nBack = JStr "purple"
  /\ fst out = JStr "blue"
  /\ fst out <> nBack
  /\ window = [JStr "purple"; JStr "green"; JStr "blue"]
  /\ Z.of_nat (set_size window) = 3%Z
  /\ Z.of_nat (set_size window) <> 2%Z
  /\ Z.of_nat (set_size window) <> (2 - 1)%Z.
Proof.
  intros nBack out window.
  assert (HnBack : nBack = JStr "purple") by reflexivity.
  assert (Hout : out = (JStr "blue",
                        ColorSequenceGenerator.mk 2 palette
                          (ColorSequenceGenerator.memoryState afterThreeColors)
                          (Some [JStr "blue"; JStr "purple"]) (Some 2%Z))).
  { unfold out. rewrite HnBack. apply afterThreeColors_emits_blue. }
  assert (Hwindow : window = [JStr "purple"; JStr "green"; JStr "blue"]).
  { unfold window. rewrite Hout. reflexivity. }
  rewrite Hwindow, Hout, HnBack. cbn [fst].
  repeat split; try reflexivity; try discriminate.
Qed.


(** ** Thirty correct target trials (C10) *)

Lemma hitsRun_window (k : nat) :
  (k <= 30)%nat -> AbilityModel.trialWindow (hitsRun k) = repeat hit k.
Proof.
  induction k as [| k IH]; intros Hk; [reflexivity |].
  cbn [hitsRun]. unfold AbilityModel.recordTrial.
  cbn [AbilityModel.trialWindow]. rewrite IH by lia.
  unfold push. fold hit.
  replace (repeat hit k ++ [hit]) with (repeat hit (S k))
    by (rewrite <- repeat_cons; reflexivity).
  rewrite repeat_length.
  destruct (Nat.ltb_spec AbilityModel.windowSize (S k)) as [Hfull | _];
    [unfold AbilityModel.windowSize in Hfull; lia | reflexivity].
Qed.

(** One more hit blends the raw sensitivity of the longer window. *)
Lemma thetaAfter_S (k : nat) :
  (S k <= 30)%nat ->
  thetaAfter (S k) = thetaAfter k * (1 - 0.15) + rawHits (S k) * 0.15.
Proof.
  intros Hk. unfold thetaAfter, rawHits. cbn [hitsRun].
  unfold AbilityModel.recordTrial. cbn [AbilityModel.theta].
  rewrite hitsRun_window by lia.
  unfold push. fold hit.
  replace (repeat hit k ++ [hit]) with (repeat hit (S k))
    by (rewrite <- repeat_cons; reflexivity).
  rewrite repeat_length.
  destruct (Nat.ltb_spec AbilityModel.windowSize (S k)) as [Hfull | _];
    [unfold AbilityModel.windowSize in Hfull; lia | reflexivity].
Qed.

Lemma countWindow_from (k : nat) (c : AbilityModel.sdt) :
  fold_left AbilityModel.countOutcome (repeat hit k) c
  = AbilityModel.mkSdt (AbilityModel.hits c + Z.of_nat k)
      (AbilityModel.misses c) (AbilityModel.falseAlarms c)
      (AbilityModel.correctRejections c).
Proof.
  revert c. induction k as [| k IH]; intros c.
  - cbn. destruct c; cbn. f_equal. lia.
  - cbn [repeat fold_left]. rewrite IH. cbn. f_equal. lia.
Qed.

(** The raw sensitivity of k hits is [invNorm] of the corrected hit rate
    (the false-alarm side contributes [invNorm 0.5 = 0]). *)
Lemma rawHits_invNorm (k : nat) :
  (k <= 30)%nat ->
  rawHits k = invNorm ((INR k + 0.5) / (INR k + 1)).
Proof.
  intros Hk. unfold rawHits, AbilityModel.rawDPrime, AbilityModel.countWindow.
  rewrite countWindow_from. cbn [AbilityModel.hits AbilityModel.misses
    AbilityModel.falseAlarms AbilityModel.correctRejections].
  replace (0 + Z.of_nat k + 0)%Z with (Z.of_nat k) by lia.
  replace (0 + Z.of_nat k)%Z with (Z.of_nat k) by lia.
  replace (0 + 0)%Z with 0%Z by lia.
  rewrite <- INR_IZR_INZ.
  assert (H0 : 0 <= INR k) by apply pos_INR.
  assert (H30 : INR k <= 30).
  { replace 30 with (INR 30) by (cbn; lra). apply le_INR. assumption. }
  unfold computeDPrime.
  replace ((0 + 0.5) / (0 + 1)) with 0.5 by lra.
  rewrite (Rmin_right 0.99 0.5) by lra. rewrite (Rmax_right 0.01 0.5) by lra.
  rewrite invNorm_half.
  assert (Hrate : 0.01 <= (INR k + 0.5) / (INR k + 1) <= 0.99).
  { split; [apply le_div | apply div_le]; lra. }
  rewrite Rmin_right by lra. rewrite Rmax_right by lra. lra.
Qed.

Lemma pow_bounds (qlo q qhi : R) (j : nat) :
  0 <= qlo <= q -> q <= qhi -> qlo ^ j <= q ^ j <= qhi ^ j.
Proof.
  intros Hlo Hhi. split; apply pow_incr; lra.
Qed.

(** The tail branch of [invNorm] on an interval for
    [q = sqrt (-2 ln (1 - p))]. *)
Lemma invNorm_upper_tail (p qlo qhi : R) :
  1 - 0.02425 < p -> p < 1 ->
  0 <= qlo -> qlo * qlo <= -2 * ln (1 - p) <= qhi * qhi -> 0 <= qhi ->
  tailNumeratorUpper qlo qhi <= 0 ->
  - tailNumeratorUpper qlo qhi / tailDenominator qhi
  <= invNorm p
  <= - tailNumeratorLower qlo qhi / tailDenominator qlo.
Proof.
  intros Hp Hp1 Hqlo [Hsqlo Hsqhi] Hqhi Hneg.
  unfold invNorm.
  rewrite Rltb_false by lra. rewrite Rleb_false by lra. cbv zeta.
  set (q := sqrt (-2 * ln (1 - p))).
  fold (tailNumerator q). fold (tailDenominator q).
  assert (Hq : qlo <= q <= qhi).
  { unfold q. split.
    - rewrite <- (sqrt_square qlo) by assumption.
      apply sqrt_le_1_alt. assumption.
    - rewrite <- (sqrt_square qhi) by assumption.
      apply sqrt_le_1_alt. assumption. }
  assert (Hq0 : 0 <= q) by lra.
  destruct (pow_bounds qlo q qhi 2) as [H2l H2h]; [lra | lra |].
  destruct (pow_bounds qlo q qhi 3) as [H3l H3h]; [lra | lra |].
  destruct (pow_bounds qlo q qhi 4) as [H4l H4h]; [lra | lra |].
  destruct (pow_bounds qlo q qhi 5) as [H5l H5h]; [lra | lra |].
  assert (HqlP : forall j, 0 <= qlo ^ j) by (intros j; apply pow_le; lra).
  assert (HC : tailNumeratorLower qlo qhi <= tailNumerator q
               <= tailNumeratorUpper qlo qhi).
  { unfold tailNumeratorLower, tailNumeratorUpper.
    replace (tailNumerator q)
      with (-7.784894002430293e-3 * q ^ 5 + -3.223964580411365e-1 * q ^ 4
            + -2.400758277161838e0 * q ^ 3 + -2.549732539343734e0 * q ^ 2
            + 4.374664141464968e0 * q + 2.938163982698783e0)
      by (unfold tailNumerator; ring).
    lra. }
  assert (HD : tailDenominator qlo <= tailDenominator q
               <= tailDenominator qhi).
  { replace (tailDenominator q)
      with (7.784695709041462e-3 * q ^ 4 + 3.224671290700398e-1 * q ^ 3
            + 2.445134137142996e0 * q ^ 2 + 3.754408661907416e0 * q + 1)
      by (unfold tailDenominator; ring).
    replace (tailDenominator qlo)
      with (7.784695709041462e-3 * qlo ^ 4 + 3.224671290700398e-1 * qlo ^ 3
            + 2.445134137142996e0 * qlo ^ 2 + 3.754408661907416e0 * qlo + 1)
      by (unfold tailDenominator; ring).
    replace (tailDenominator qhi)
      with (7.784695709041462e-3 * qhi ^ 4 + 3.224671290700398e-1 * qhi ^ 3
            + 2.445134137142996e0 * qhi ^ 2 + 3.754408661907416e0 * qhi + 1)
      by (unfold tailDenominator; ring).
    lra. }
  assert (HDlo : 1 <= tailDenominator qlo).
  { replace (tailDenominator qlo)
      with (7.784695709041462e-3 * qlo ^ 4 + 3.224671290700398e-1 * qlo ^ 3
            + 2.445134137142996e0 * qlo ^ 2 + 3.754408661907416e0 * qlo + 1)
      by (unfold tailDenominator; ring).
    pose proof (HqlP 4%nat). pose proof (HqlP 3%nat). pose proof (HqlP 2%nat).
    lra. }
  set (C := tailNumerator q) in *. set (D := tailDenominator q) in *.
  set (Cu := tailNumeratorUpper qlo qhi) in *.
  set (Cl := tailNumeratorLower qlo qhi) in *.
  set (Dl := tailDenominator qlo) in *. set (Dh := tailDenominator qhi) in *.
  split.
  - apply le_div; [lra |].
    apply Rmult_le_reg_r with Dh; [lra |].
    replace (- Cu / Dh * D * Dh) with (- Cu * D) by (field; lra).
    nra.
  - apply div_le; [lra |].
    apply Rmult_le_reg_r with Dl; [lra |].
    replace (- Cl / Dl * D * Dl) with (- Cl * D) by (field; lra).
    nra.
Qed.

(** Bounds of the raw sensitivity of k hits: for k up to 19 the corrected
    hit rate lies in the central branch of [invNorm], a rational function;
    from k = 20 on it lies in the upper tail. *)
Ltac rawCentral k p :=
  rewrite rawHits_invNorm by lia;
  replace ((INR k + 0.5) / (INR k + 1)) with p by (cbn; lra);
  unfold invNorm; rewrite Rltb_false by lra; rewrite Rleb_true by lra;
  cbv zeta; split; lra.

Ltac rawTail k p m lnlo lnhi pl ph qlo qhi :=
  let Hln := fresh "Hln" in
  let Harg := fresh "Harg" in
  let Hlo := fresh "Hlo" in
  let Hhi := fresh "Hhi" in
  rewrite rawHits_invNorm by lia;
  replace ((INR k + 0.5) / (INR k + 1)) with p by (cbn; lra);
  assert (Hln : lnlo <= ln m <= lnhi)
    by (split;
        [apply ln_ge_of_exp_le; exp_upper lnlo pl 100000%Z
        | apply ln_le_of_le_exp; [lra | exp_lower lnhi ph 100000%Z]]);
  assert (Harg : -2 * ln (1 - p) = 2 * ln m)
    by (replace (1 - p) with (/ m) by lra; rewrite ln_Rinv by lra; lra);
  destruct (invNorm_upper_tail p qlo qhi) as [Hlo Hhi];
    [lra | lra | lra | rewrite Harg; lra | lra
     | unfold tailNumeratorUpper; lra |];
  unfold tailNumeratorUpper, tailNumeratorLower, tailDenominator in Hlo, Hhi;
  split; [eapply Rle_trans; [| exact Hlo] | eapply Rle_trans; [exact Hhi |]];
  lra.

(** A bound on theta after one more hit, from the bounds before it. *)
Ltac thetaStep Hprev Hraw :=
  rewrite thetaAfter_S by lia; pose proof Hprev; pose proof Hraw; lra.

Ltac thetaCompare k Hprev Hraw :=
  rewrite (thetaAfter_S k) by lia; pose proof Hprev; pose proof Hraw; lra.

Lemma rawHits_bounds_1 : 0.674489 <= rawHits 1 <= 0.674490.
Proof. rawCentral 1%nat (1.5 / 2). Qed.

Lemma rawHits_bounds_2 : 0.967421 <= rawHits 2 <= 0.967422.
Proof. rawCentral 2%nat (2.5 / 3). Qed.

Lemma rawHits_bounds_3 : 1.150349 <= rawHits 3 <= 1.150350.
Proof. rawCentral 3%nat (3.5 / 4). Qed.

Lemma rawHits_bounds_4 : 1.281551 <= rawHits 4 <= 1.281552.
Proof. rawCentral 4%nat (4.5 / 5). Qed.

Lemma rawHits_bounds_5 : 1.382994 <= rawHits 5 <= 1.382995.
Proof. rawCentral 5%nat (5.5 / 6). Qed.

Lemma rawHits_bounds_6 : 1.465233 <= rawHits 6 <= 1.465234.
Proof. rawCentral 6%nat (6.5 / 7). Qed.

Lemma rawHits_bounds_7 : 1.534120 <= rawHits 7 <= 1.534121.
Proof. rawCentral 7%nat (7.5 / 8). Qed.

Lemma rawHits_bounds_8 : 1.593218 <= rawHits 8 <= 1.593219.
Proof. rawCentral 8%nat (8.5 / 9). Qed.

Lemma rawHits_bounds_9 : 1.644853 <= rawHits 9 <= 1.644854.
Proof. rawCentral 9%nat (9.5 / 10). Qed.

Lemma rawHits_bounds_10 : 1.690621 <= rawHits 10 <= 1.690622.
Proof. rawCentral 10%nat (10.5 / 11). Qed.

Lemma rawHits_bounds_11 : 1.731664 <= rawHits 11 <= 1.731665.
Proof. rawCentral 11%nat (11.5 / 12). Qed.

Lemma rawHits_bounds_12 : 1.768825 <= rawHits 12 <= 1.768826.
Proof. rawCentral 12%nat (12.5 / 13). Qed.

Lemma rawHits_bounds_13 : 1.802743 <= rawHits 13 <= 1.802744.
Proof. rawCentral 13%nat (13.5 / 14). Qed.

Lemma rawHits_bounds_14 : 1.833914 <= rawHits 14 <= 1.833915.
Proof. rawCentral 14%nat (14.5 / 15). Qed.

Lemma rawHits_bounds_15 : 1.862731 <= rawHits 15 <= 1.862732.
Proof. rawCentral 15%nat (15.5 / 16). Qed.

Lemma rawHits_bounds_16 : 1.889509 <= rawHits 16 <= 1.889510.
Proof. rawCentral 16%nat (16.5 / 17). Qed.

Lemma rawHits_bounds_17 : 1.914505 <= rawHits 17 <= 1.914506.
Proof. rawCentral 17%nat (17.5 / 18). Qed.

Lemma rawHits_bounds_18 : 1.937931 <= rawHits 18 <= 1.937932.
Proof. rawCentral 18%nat (18.5 / 19). Qed.

Lemma rawHits_bounds_19 : 1.959963 <= rawHits 19 <= 1.959964.
Proof. rawCentral 19%nat (19.5 / 20). Qed.

Lemma rawHits_bounds_20 : 1.9806 <= rawHits 20 <= 1.9809.
Proof.
  rawTail 20%nat (20.5 / 21) 42 3.73764 3.73769
    373764%Z 373769%Z 2.73408 2.73413.
Qed.

Lemma rawHits_bounds_21 : 2.0003 <= rawHits 21 <= 2.0006.
Proof.
  rawTail 21%nat (21.5 / 22) 44 3.78416 3.78421
    378416%Z 378421%Z 2.75104 2.75109.
Qed.

Lemma rawHits_bounds_22 : 2.0190 <= rawHits 22 <= 2.0192.
Proof.
  rawTail 22%nat (22.5 / 23) 46 3.82862 3.82867
    382862%Z 382867%Z 2.76716 2.76720.
Qed.

Lemma rawHits_bounds_23 : 2.0367 <= rawHits 23 <= 2.0370.
Proof.
  rawTail 23%nat (23.5 / 24) 48 3.87118 3.87123
    387118%Z 387123%Z 2.78249 2.78254.
Qed.

Lemma rawHits_bounds_24 : 2.0536 <= rawHits 24 <= 2.0539.
Proof.
  rawTail 24%nat (24.5 / 25) 50 3.91200 3.91205
    391200%Z 391205%Z 2.79713 2.79717.
Qed.

Lemma rawHits_bounds_25 : 2.0697 <= rawHits 25 <= 2.0701.
Proof.
  rawTail 25%nat (25.5 / 26) 52 3.95122 3.95127
    395122%Z 395127%Z 2.81111 2.81116.
Qed.

Lemma rawHits_bounds_26 : 2.0852 <= rawHits 26 <= 2.0855.
Proof.
  rawTail 26%nat (26.5 / 27) 54 3.98896 3.98901
    398896%Z 398901%Z 2.82451 2.82455.
Qed.

Lemma rawHits_bounds_27 : 2.1000 <= rawHits 27 <= 2.1003.
Proof.
  rawTail 27%nat (27.5 / 28) 56 4.02533 4.02538
    402533%Z 402538%Z 2.83735 2.83740.
Qed.

Lemma rawHits_bounds_28 : 2.1142 <= rawHits 28 <= 2.1145.
Proof.
  rawTail 28%nat (28.5 / 29) 58 4.06042 4.06047
    406042%Z 406047%Z 2.84969 2.84974.
Qed.

Lemma rawHits_bounds_29 : 2.1279 <= rawHits 29 <= 2.1282.
Proof.
  rawTail 29%nat (29.5 / 30) 60 4.09432 4.09437
    409432%Z 409437%Z 2.86156 2.86161.
Qed.

Lemma rawHits_bounds_30 : 2.1410 <= rawHits 30 <= 2.1414.
Proof.
  rawTail 30%nat (30.5 / 31) 62 4.12711 4.12716
    412711%Z 412716%Z 2.87300 2.87305.
Qed.

Lemma thetaAfter_bounds_0 : 1.5 <= thetaAfter 0 <= 1.5.
Proof. unfold thetaAfter. cbn. lra. Qed.

Lemma thetaAfter_bounds_1 : 1.376173 <= thetaAfter 1 <= 1.376174.
Proof. thetaStep thetaAfter_bounds_0 rawHits_bounds_1. Qed.

Lemma thetaAfter_bounds_2 : 1.314860 <= thetaAfter 2 <= 1.314862.
Proof. thetaStep thetaAfter_bounds_1 rawHits_bounds_2. Qed.

Lemma thetaAfter_bounds_3 : 1.290183 <= thetaAfter 3 <= 1.290186.
Proof. thetaStep thetaAfter_bounds_2 rawHits_bounds_3. Qed.

Lemma thetaAfter_bounds_4 : 1.288888 <= thetaAfter 4 <= 1.288891.
Proof. thetaStep thetaAfter_bounds_3 rawHits_bounds_4. Qed.

Lemma thetaAfter_bounds_5 : 1.303003 <= thetaAfter 5 <= 1.303007.
Proof. thetaStep thetaAfter_bounds_4 rawHits_bounds_5. Qed.

Lemma thetaAfter_bounds_6 : 1.327337 <= thetaAfter 6 <= 1.327342.
Proof. thetaStep thetaAfter_bounds_5 rawHits_bounds_6. Qed.

Lemma thetaAfter_bounds_7 : 1.358354 <= thetaAfter 7 <= 1.358359.
Proof. thetaStep thetaAfter_bounds_6 rawHits_bounds_7. Qed.

Lemma thetaAfter_bounds_8 : 1.393583 <= thetaAfter 8 <= 1.393588.
Proof. thetaStep thetaAfter_bounds_7 rawHits_bounds_8. Qed.

Lemma thetaAfter_bounds_9 : 1.431273 <= thetaAfter 9 <= 1.431278.
Proof. thetaStep thetaAfter_bounds_8 rawHits_bounds_9. Qed.

Lemma thetaAfter_bounds_10 : 1.470175 <= thetaAfter 10 <= 1.470180.
Proof. thetaStep thetaAfter_bounds_9 rawHits_bounds_10. Qed.

Lemma thetaAfter_bounds_11 : 1.509398 <= thetaAfter 11 <= 1.509403.
Proof. thetaStep thetaAfter_bounds_10 rawHits_bounds_11. Qed.

Lemma thetaAfter_bounds_12 : 1.548312 <= thetaAfter 12 <= 1.548317.
Proof. thetaStep thetaAfter_bounds_11 rawHits_bounds_12. Qed.

Lemma thetaAfter_bounds_13 : 1.586476 <= thetaAfter 13 <= 1.586482.
Proof. thetaStep thetaAfter_bounds_12 rawHits_bounds_13. Qed.

Lemma thetaAfter_bounds_14 : 1.623591 <= thetaAfter 14 <= 1.623597.
Proof. thetaStep thetaAfter_bounds_13 rawHits_bounds_14. Qed.

Lemma thetaAfter_bounds_15 : 1.659462 <= thetaAfter 15 <= 1.659468.
Proof. thetaStep thetaAfter_bounds_14 rawHits_bounds_15. Qed.

Lemma thetaAfter_bounds_16 : 1.693969 <= thetaAfter 16 <= 1.693975.
Proof. thetaStep thetaAfter_bounds_15 rawHits_bounds_16. Qed.

Lemma thetaAfter_bounds_17 : 1.727049 <= thetaAfter 17 <= 1.727055.
Proof. thetaStep thetaAfter_bounds_16 rawHits_bounds_17. Qed.

Lemma thetaAfter_bounds_18 : 1.758681 <= thetaAfter 18 <= 1.758687.
Proof. thetaStep thetaAfter_bounds_17 rawHits_bounds_18. Qed.

Lemma thetaAfter_bounds_19 : 1.788873 <= thetaAfter 19 <= 1.788879.
Proof. thetaStep thetaAfter_bounds_18 rawHits_bounds_19. Qed.

Lemma thetaAfter_bounds_20 : 1.817632 <= thetaAfter 20 <= 1.817683.
Proof. thetaStep thetaAfter_bounds_19 rawHits_bounds_20. Qed.

Lemma thetaAfter_bounds_21 : 1.845032 <= thetaAfter 21 <= 1.845121.
Proof. thetaStep thetaAfter_bounds_20 rawHits_bounds_21. Qed.

Lemma thetaAfter_bounds_22 : 1.871127 <= thetaAfter 22 <= 1.871233.
Proof. thetaStep thetaAfter_bounds_21 rawHits_bounds_22. Qed.

Lemma thetaAfter_bounds_23 : 1.895962 <= thetaAfter 23 <= 1.896099.
Proof. thetaStep thetaAfter_bounds_22 rawHits_bounds_23. Qed.

Lemma thetaAfter_bounds_24 : 1.919607 <= thetaAfter 24 <= 1.919770.
Proof. thetaStep thetaAfter_bounds_23 rawHits_bounds_24. Qed.

Lemma thetaAfter_bounds_25 : 1.942120 <= thetaAfter 25 <= 1.942320.
Proof. thetaStep thetaAfter_bounds_24 rawHits_bounds_25. Qed.

Lemma thetaAfter_bounds_26 : 1.963582 <= thetaAfter 26 <= 1.963797.
Proof. thetaStep thetaAfter_bounds_25 rawHits_bounds_26. Qed.

Lemma thetaAfter_bounds_27 : 1.984044 <= thetaAfter 27 <= 1.984273.
Proof. thetaStep thetaAfter_bounds_26 rawHits_bounds_27. Qed.

Lemma thetaAfter_bounds_28 : 2.003567 <= thetaAfter 28 <= 2.003808.
Proof. thetaStep thetaAfter_bounds_27 rawHits_bounds_28. Qed.

Lemma thetaAfter_bounds_29 : 2.022216 <= thetaAfter 29 <= 2.022467.
Proof. thetaStep thetaAfter_bounds_28 rawHits_bounds_29. Qed.

Lemma thetaAfter_bounds_30 : 2.040033 <= thetaAfter 30 <= 2.040307.
Proof. thetaStep thetaAfter_bounds_29 rawHits_bounds_30. Qed.

(** C10 (amended). From a freshly constructed ability model, over 30
    consecutive correct target trials answered in 500 ms, theta decreases
    on each of the first four calls (the raw sensitivity of a short all-hit
    window is below the 1.5 prior), strictly increases on every call from
    the fifth to the thirtieth, and exceeds 2.0 from the 28th call on (it
    is still below 2.0 after the 27th). *)
Theorem theta_dips_then_climbs_past_two :
  (forall k : nat, (k < 4)%nat -> thetaAfter (S k) < thetaAfter k)
  /\ (forall k : nat, (4 <= k < 30)%nat -> thetaAfter k < thetaAfter (S k))
  /\ thetaAfter 27 < 2.0
  /\ 2.0 < thetaAfter 28
  /\ 2.0 < thetaAfter 29
  /\ 2.0 < thetaAfter 30.
Proof.
  split; [| split].
  - intros k Hk.
    destruct k as [| [| [| [| k]]]]; [| | | | lia].
    + thetaCompare 0%nat thetaAfter_bounds_0 rawHits_bounds_1.
    + thetaCompare 1%nat thetaAfter_bounds_1 rawHits_bounds_2.
    + thetaCompare 2%nat thetaAfter_bounds_2 rawHits_bounds_3.
    + thetaCompare 3%nat thetaAfter_bounds_3 rawHits_bounds_4.
  - intros k [Hlow Hhigh].
    destruct k as
      [| [| [| [| [| [| [| [| [| [| [| [| [| [| [| [| [| [| [| [|
      [| [| [| [| [| [| [| [| [| [|
      k]]]]]]]]]]]]]]]]]]]]]]]]]]]]]];
      [lia | lia | lia | lia
       | | | | | | | | | | | | | | | | | | | | | | | | | | | lia].
    + thetaCompare 4%nat thetaAfter_bounds_4 rawHits_bounds_5.
    + thetaCompare 5%nat thetaAfter_bounds_5 rawHits_bounds_6.
    + thetaCompare 6%nat thetaAfter_bounds_6 rawHits_bounds_7.
    + thetaCompare 7%nat thetaAfter_bounds_7 rawHits_bounds_8.
    + thetaCompare 8%nat thetaAfter_bounds_8 rawHits_bounds_9.
    + thetaCompare 9%nat thetaAfter_bounds_9 rawHits_bounds_10.
    + thetaCompare 10%nat thetaAfter_bounds_10 rawHits_bounds_11.
    + thetaCompare 11%nat thetaAfter_bounds_11 rawHits_bounds_12.
    + thetaCompare 12%nat thetaAfter_bounds_12 rawHits_bounds_13.
    + thetaCompare 13%nat thetaAfter_bounds_13 rawHits_bounds_14.
    + thetaCompare 14%nat thetaAfter_bounds_14 rawHits_bounds_15.
    + thetaCompare 15%nat thetaAfter_bounds_15 rawHits_bounds_16.
    + thetaCompare 16%nat thetaAfter_bounds_16 rawHits_bounds_17.
    + thetaCompare 17%nat thetaAfter_bounds_17 rawHits_bounds_18.
    + thetaCompare 18%nat thetaAfter_bounds_18 rawHits_bounds_19.
    + thetaCompare 19%nat thetaAfter_bounds_19 rawHits_bounds_20.
    + thetaCompare 20%nat thetaAfter_bounds_20 rawHits_bounds_21.
    + thetaCompare 21%nat thetaAfter_bounds_21 rawHits_bounds_22.
    + thetaCompare 22%nat thetaAfter_bounds_22 rawHits_bounds_23.
    + thetaCompare 23%nat thetaAfter_bounds_23 rawHits_bounds_24.
    + thetaCompare 24%nat thetaAfter_bounds_24 rawHits_bounds_25.
    + thetaCompare 25%nat thetaAfter_bounds_25 rawHits_bounds_26.
    + thetaCompare 26%nat thetaAfter_bounds_26 rawHits_bounds_27.
    + thetaCompare 27%nat thetaAfter_bounds_27 rawHits_bounds_28.
    + thetaCompare 28%nat thetaAfter_bounds_28 rawHits_bounds_29.
    + thetaCompare 29%nat thetaAfter_bounds_29 rawHits_bounds_30.
  - pose proof thetaAfter_bounds_27. pose proof thetaAfter_bounds_28.
    pose proof thetaAfter_bounds_29. pose proof thetaAfter_bounds_30.
    repeat split; lra.
Qed.

Lemma theta_dips_then_climbs_past_two_witness :
  thetaAfter 4 < thetaAfter 5.
Proof.
  destruct theta_dips_then_climbs_past_two as (_ & Hclimb & _).
  apply (Hclimb 4%nat). lia.
Defined.

(** C10, counterexample. The first correct target trial lowers theta: the
    window holds one hit, its raw sensitivity is about 0.674, and the blend
    takes theta from 1.5 to about 1.376. *)
Lemma theta_drops_on_first_hit :
  thetaAfter 0 = 1.5
  /\ thetaAfter 1 < 1.3762
  /\ ~ (thetaAfter 0 < thetaAfter 1).
Proof.
  pose proof thetaAfter_bounds_0 as H0. pose proof thetaAfter_bounds_1 as H1.
  repeat split; lra.
Qed.

(** * Further properties *)

(** ** The colour window *)

Lemma windowAfter_snoc (n : nat) (cs : list jsval) (c : jsval) :
  windowAfter n (cs ++ [c])
  = WorkingMemoryState.addColor (windowAfter n cs) c.
Proof. unfold windowAfter. rewrite fold_left_app. reflexivity. Qed.

Lemma windowAfter_n (n : nat) (cs : list jsval) :
  WorkingMemoryState.n (windowAfter n cs) = n.
Proof.
  induction cs as [| c cs IH] using rev_ind; [reflexivity |].
  rewrite windowAfter_snoc. cbn. assumption.
Qed.

Lemma slice_last_length {A} (k : nat) (l : list A) :
  length (slice_last k l) = Nat.min k (length l).
Proof. unfold slice_last. rewrite length_skipn. lia. Qed.

Lemma slice_last_snoc {A} (k : nat) (l : list A) (x : A) :
  (1 <= k)%nat ->
  slice_last k (slice_last k l ++ [x]) = slice_last k (l ++ [x]).
Proof.
  intros Hk. unfold slice_last at 1 3.
  rewrite !length_app, slice_last_length. cbn [length].
  unfold slice_last.
  destruct (Nat.le_gt_cases (length l) k) as [Hshort | Hlong].
  - replace (length l - k)%nat with 0%nat by lia. cbn [skipn].
    replace (Nat.min k (length l)) with (length l) by lia. reflexivity.
  - replace (Nat.min k (length l) + 1 - k)%nat with 1%nat by lia.
    rewrite !skipn_app, skipn_skipn, !length_skipn.
    replace (1 + (length l - k))%nat with (length l + 1 - k)%nat by lia.
    replace (1 - (length l - (length l - k)))%nat with 0%nat by lia.
    replace (length l + 1 - k - length l)%nat with 0%nat by lia.
    reflexivity.
Qed.

Lemma windowAfter_colors (n : nat) (cs : list jsval) :
  WorkingMemoryState.recentColors (windowAfter n cs) = slice_last (n + 1) cs.
Proof.
  induction cs as [| c cs IH] using rev_ind; [reflexivity |].
  rewrite windowAfter_snoc, addColor_window.
  - rewrite windowAfter_n, IH. apply slice_last_snoc. lia.
  - rewrite windowAfter_n, IH, slice_last_length. lia.
Qed.

Lemma windowAfter_load (n : nat) (cs : list jsval) :
  WorkingMemoryState.currentLoad (windowAfter n cs)
  = set_size (WorkingMemoryState.recentColors (windowAfter n cs)).
Proof.
  destruct cs as [| c cs] using rev_ind; [reflexivity |].
  rewrite windowAfter_snoc. reflexivity.
Qed.

Lemma set_size_pos (l : list jsval) :
  (Nat.min 1 (length l) <= set_size l)%nat.
Proof.
  destruct l as [| x l]; [cbn; lia |].
  pose proof (set_size_cons x l) as [H _].
  unfold set_size, js_set in *. rewrite length_rev in *.
  destruct (nodup jsval_eq_dec (rev (x :: l))) as [| y r] eqn:Hnd.
  - exfalso. assert (Hin : In x (rev (x :: l)))
      by (apply in_rev; rewrite rev_involutive; left; reflexivity).
    apply (nodup_In jsval_eq_dec) in Hin. rewrite Hnd in Hin. destruct Hin.
  - cbn. lia.
Qed.

(** X3. After any sequence of colours has been added to a fresh window of
    an n-back task, the window holds exactly the last n + 1 colours shown,
    the load is the number of distinct colours among them, and the load is
    at most n + 1 (and at least 1 once a colour was shown). *)
Theorem window_holds_last_colors (n : nat) (cs : list jsval) :
  let m := windowAfter n cs in
  WorkingMemoryState.getRecentColors m = slice_last (n + 1) cs
  /\ WorkingMemoryState.getCurrentLoad m = set_size (slice_last (n + 1) cs)
  /\ (Nat.min 1 (length cs) <= WorkingMemoryState.getCurrentLoad m
      <= Nat.min (n + 1) (length cs))%nat.
Proof.
  intros m. unfold m, WorkingMemoryState.getRecentColors,
    WorkingMemoryState.getCurrentLoad.
  rewrite windowAfter_load, windowAfter_colors.
  split; [reflexivity | split; [reflexivity |]].
  pose proof (set_size_le (slice_last (n + 1) cs)) as Hle.
  pose proof (set_size_pos (slice_last (n + 1) cs)) as Hpos.
  rewrite slice_last_length in Hle, Hpos. lia.
Qed.

Lemma nth_skipn_shift {A} (k i : nat) (l : list A) (d : A) :
  nth i (skipn k l) d = nth (k + i) l d.
Proof.
  revert l. induction k as [| k IH]; intros l; [reflexivity |].
  destruct l as [| x l]; [destruct i; reflexivity |].
  cbn [skipn Nat.add nth]. apply IH.
Qed.

(** X4. The colour [getNBackColor] reads from the window is the colour
    shown n trials before the upcoming one ([null] while fewer than n
    colours were shown): the n + 1 window always reaches back far enough. *)
Theorem getNBackColor_reaches_back (n : nat) (cs : list jsval) :
  MatchGenerator.getNBackColor (windowAfter n cs)
  = if (length cs <? n)%nat then JNull
    else nth (length cs - n) cs JUndefined.
Proof.
  unfold MatchGenerator.getNBackColor.
  rewrite windowAfter_n, windowAfter_colors, slice_last_length.
  destruct (Nat.ltb_spec (length cs) n) as [Hshort | Hlong].
  - replace (Nat.min (n + 1) (length cs) <? n)%nat with true
      by (symmetry; apply Nat.ltb_lt; lia).
    reflexivity.
  - replace (Nat.min (n + 1) (length cs) <? n)%nat with false
      by (symmetry; apply Nat.ltb_ge; lia).
    unfold js_index.
    replace (Z.of_nat (Nat.min (n + 1) (length cs)) - Z.of_nat n <? 0)%Z
      with false by (symmetry; apply Z.ltb_ge; lia).
    unfold slice_last. rewrite nth_skipn_shift. f_equal. lia.
Qed.

(** ** Rolling windows of the ability model *)

Lemma push_shift_slice {A} (cap : nat) (l : list A) (x : A) :
  (length l <= cap)%nat ->
  (if (cap <? length (push l x))%nat then shift (push l x) else push l x)
  = slice_last cap (l ++ [x]).
Proof.
  intros Hcap. unfold push, shift, slice_last. rewrite length_app.
  cbn [length].
  destruct (Nat.ltb_spec cap (length l + 1)) as [Hfull | Hroom].
  - replace (length l + 1 - cap)%nat with 1%nat by lia.
    destruct (l ++ [x]); reflexivity.
  - replace (length l + 1 - cap)%nat with 0%nat by lia. reflexivity.
Qed.

Lemma push_shift_length {A} (cap : nat) (l : list A) (x : A) :
  (length l <= cap)%nat ->
  length (if (cap <? length (push l x))%nat then shift (push l x)
          else push l x)
  = Nat.min cap (length l + 1).
Proof.
  intros Hcap. rewrite push_shift_slice by assumption.
  rewrite slice_last_length, length_app. reflexivity.
Qed.

Lemma Forall_slice_last {A} (P : A -> Prop) (k : nat) (l : list A) :
  Forall P l -> Forall P (slice_last k l).
Proof.
  intros H. unfold slice_last. rewrite <- (firstn_skipn (length l - k) l) in H.
  apply Forall_app in H. apply H.
Qed.

Lemma abilityRun_snoc (a : AbilityModel.t) (trials : list recorded)
    (tr : recorded) :
  abilityRun a (trials ++ [tr])
  = AbilityModel.recordTrial (abilityRun a trials) (fst (fst tr))
      (snd (fst tr)) (snd tr).
Proof. unfold abilityRun. rewrite fold_left_app. reflexivity. Qed.

(** X5. After any sequence of recorded trials on a fresh ability model the
    trial window holds exactly the last 30 outcomes, [totalTrials] counts
    every trial, the theta history holds one value per trial up to 20, and
    the reaction-time window holds at most 40 values, all positive. *)
Theorem ability_windows_hold_recent_trials (trials : list recorded) :
  let a := abilityRun AbilityModel.new trials in
  AbilityModel.trialWindow a = slice_last 30 (map outcomeOf trials)
  /\ AbilityModel.totalTrials a = Z.of_nat (length trials)
  /\ length (AbilityModel.thetaWindow a) = Nat.min 20 (length trials)
  /\ (length (AbilityModel.rtWindow a) <= 40)%nat
  /\ Forall (fun rt => 0 < rt) (AbilityModel.rtWindow a).
Proof.
  induction trials as [| tr trials IH] using rev_ind.
  - cbn. repeat split; try reflexivity; [lia | constructor].
  - cbn zeta in *. rewrite abilityRun_snoc.
    destruct IH as (Hw & Htot & Hth & Hrt & Hpos).
    set (a := abilityRun AbilityModel.new trials) in *.
    unfold AbilityModel.recordTrial.
    cbn [AbilityModel.trialWindow AbilityModel.totalTrials
         AbilityModel.thetaWindow AbilityModel.rtWindow].
    change AbilityModel.windowSize with 30%nat.
    change AbilityModel.thetaWindowSize with 20%nat.
    change (AbilityModel.rtWindowSize * 2)%nat with 40%nat.
    rewrite length_app. cbn [length].
    split; [| split; [| split; [| split]]].
    + rewrite push_shift_slice
        by (rewrite Hw, slice_last_length; lia).
      rewrite Hw, map_app. apply slice_last_snoc. lia.
    + rewrite Htot. lia.
    + rewrite push_shift_length by lia. lia.
    + destruct (Rgtb (snd tr) 0); [| assumption].
      rewrite push_shift_length by assumption. lia.
    + unfold Rgtb, Rltb.
      destruct (Rlt_dec 0 (snd tr)) as [Hgt | _]; [| assumption].
      rewrite push_shift_slice by assumption.
      apply Forall_slice_last. apply Forall_app. split; [assumption |].
      constructor; [assumption | constructor].
Qed.

Lemma countOutcome_sum (c : AbilityModel.sdt) (o : AbilityModel.outcome) :
  let c' := AbilityModel.countOutcome c o in
  (AbilityModel.hits c <= AbilityModel.hits c'
   /\ AbilityModel.misses c <= AbilityModel.misses c'
   /\ AbilityModel.falseAlarms c <= AbilityModel.falseAlarms c'
   /\ AbilityModel.correctRejections c <= AbilityModel.correctRejections c'
   /\ AbilityModel.hits c' + AbilityModel.misses c'
      + AbilityModel.falseAlarms c' + AbilityModel.correctRejections c'
      = AbilityModel.hits c + AbilityModel.misses c
        + AbilityModel.falseAlarms c + AbilityModel.correctRejections c
        + 1)%Z.
Proof.
  destruct o as [[|] [|]]; cbn; lia.
Qed.

Lemma countWindow_sum (w : list AbilityModel.outcome) (c : AbilityModel.sdt) :
  let c' := fold_left AbilityModel.countOutcome w c in
  (AbilityModel.hits c <= AbilityModel.hits c'
   /\ AbilityModel.misses c <= AbilityModel.misses c'
   /\ AbilityModel.falseAlarms c <= AbilityModel.falseAlarms c'
   /\ AbilityModel.correctRejections c <= AbilityModel.correctRejections c'
   /\ AbilityModel.hits c' + AbilityModel.misses c'
      + AbilityModel.falseAlarms c' + AbilityModel.correctRejections c'
      = AbilityModel.hits c + AbilityModel.misses c
        + AbilityModel.falseAlarms c + AbilityModel.correctRejections c
        + Z.of_nat (length w))%Z.
Proof.
  revert c. induction w as [| o w IH]; intros c.
  - cbn. lia.
  - cbn [fold_left length].
    pose proof (countOutcome_sum c o) as Hstep.
    pose proof (IH (AbilityModel.countOutcome c o)) as Hrest.
    cbn zeta in *. lia.
Qed.

(** X6. The four signal-detection counts are non-negative and add up to
    the number of outcomes in the trial window, and the pseudo-counted hit
    and false-alarm rates that [recordTrial] passes to [computeDPrime] lie
    strictly between 0 and 1, whatever the window holds (also when it has
    no target or no non-target). *)
Theorem sdt_counts_partition_window (a : AbilityModel.t) :
  let c := AbilityModel.getSDTCounts a in
  (0 <= AbilityModel.hits c /\ 0 <= AbilityModel.misses c
   /\ 0 <= AbilityModel.falseAlarms c
   /\ 0 <= AbilityModel.correctRejections c)%Z
  /\ (AbilityModel.hits c + AbilityModel.misses c
      + AbilityModel.falseAlarms c + AbilityModel.correctRejections c
      = Z.of_nat (length (AbilityModel.trialWindow a)))%Z
  /\ 0 < (IZR (AbilityModel.hits c) + 0.5)
         / (IZR (AbilityModel.hits c + AbilityModel.misses c) + 1) < 1
  /\ 0 < (IZR (AbilityModel.falseAlarms c) + 0.5)
         / (IZR (AbilityModel.falseAlarms c
                 + AbilityModel.correctRejections c) + 1) < 1.
Proof.
  intros c. unfold c, AbilityModel.getSDTCounts, AbilityModel.countWindow.
  pose proof (countWindow_sum (AbilityModel.trialWindow a)
                (AbilityModel.mkSdt 0 0 0 0)) as H.
  cbn zeta in H. cbn [AbilityModel.hits AbilityModel.misses
    AbilityModel.falseAlarms AbilityModel.correctRejections] in H.
  destruct H as (Hh & Hm & Hf & Hc & Hsum).
  set (c0 := fold_left AbilityModel.countOutcome
               (AbilityModel.trialWindow a) (AbilityModel.mkSdt 0 0 0 0)) in *.
  apply IZR_le in Hh, Hm, Hf, Hc.
  split; [repeat split; apply le_IZR; assumption |].
  split; [lia |].
  rewrite !plus_IZR.
  split; split.
  - apply Rdiv_lt_0_compat; lra.
  - apply Rmult_lt_reg_r with (IZR (AbilityModel.hits c0)
                               + IZR (AbilityModel.misses c0) + 1); [lra |].
    unfold Rdiv. rewrite Rmult_assoc, Rinv_l by lra. lra.
  - apply Rdiv_lt_0_compat; lra.
  - apply Rmult_lt_reg_r with (IZR (AbilityModel.falseAlarms c0)
                               + IZR (AbilityModel.correctRejections c0) + 1);
      [lra |].
    unfold Rdiv. rewrite Rmult_assoc, Rinv_l by lra. lra.
Qed.

(** ** Reaction-time statistics *)

Lemma insert_sorted_In (x y : R) (l : list R) :
  In y (AbilityModel.insert_sorted x l) <-> y = x \/ In y l.
Proof.
  induction l as [| z l IH]; cbn.
  - intuition.
  - destruct (Rleb x z); cbn; [intuition |].
    rewrite IH. intuition.
Qed.

Lemma insert_sorted_length (x : R) (l : list R) :
  length (AbilityModel.insert_sorted x l) = S (length l).
Proof.
  induction l as [| z l IH]; cbn; [reflexivity |].
  destruct (Rleb x z); cbn; [| rewrite IH]; reflexivity.
Qed.

Lemma insert_sorted_ascending (x : R) (l : list R) :
  ascending l -> ascending (AbilityModel.insert_sorted x l).
Proof.
  induction l as [| z l IH]; cbn [AbilityModel.insert_sorted ascending].
  - intros _. split; constructor.
  - intros [Hz Hl]. unfold Rleb.
    destruct (Rle_dec x z) as [Hle | Hgt]; cbn [ascending].
    + split; [| split; assumption].
      constructor; [assumption |].
      apply Forall_impl with (P := Rle z); [intros; lra | assumption].
    + split; [| apply IH; assumption].
      apply Forall_forall. intros y Hy.
      apply insert_sorted_In in Hy. destruct Hy as [-> | Hy]; [lra |].
      rewrite Forall_forall in Hz. apply Hz. assumption.
Qed.

Lemma sort_ascending_In (y : R) (l : list R) :
  In y (AbilityModel.sort_ascending l) <-> In y l.
Proof.
  unfold AbilityModel.sort_ascending.
  induction l as [| x l IH]; cbn [fold_right In]; [tauto |].
  rewrite insert_sorted_In, IH. intuition.
Qed.

Lemma sort_ascending_length (l : list R) :
  length (AbilityModel.sort_ascending l) = length l.
Proof.
  unfold AbilityModel.sort_ascending.
  induction l as [| x l IH]; cbn [fold_right length]; [reflexivity |].
  rewrite insert_sorted_length, IH. reflexivity.
Qed.

Lemma sort_ascending_ascending (l : list R) :
  ascending (AbilityModel.sort_ascending l).
Proof.
  unfold AbilityModel.sort_ascending.
  induction l as [| x l IH]; cbn [fold_right]; [exact I |].
  apply insert_sorted_ascending. assumption.
Qed.

Lemma ascending_nth (l : list R) (i j : nat) (d : R) :
  ascending l -> (i <= j < length l)%nat -> nth i l d <= nth j l d.
Proof.
  revert i j. induction l as [| x l IH]; intros i j Hasc [Hij Hj];
    [cbn in Hj; lia |].
  destruct Hasc as [Hx Hl].
  destruct j as [| j]; [replace i with 0%nat by lia; lra |].
  destruct i as [| i]; cbn [nth].
  - rewrite Forall_forall in Hx. apply Hx. apply nth_In. cbn in Hj. lia.
  - apply IH; [assumption |]. cbn in Hj. lia.
Qed.

Lemma Math_floor_le (x y : R) : x <= y -> (Math_floor x <= Math_floor y)%Z.
Proof.
  intros Hxy. unfold Math_floor.
  destruct (base_Int_part x) as [Hx _]. destruct (base_Int_part y) as [_ Hy].
  apply Z.lt_succ_r. apply lt_IZR. rewrite succ_IZR. lra.
Qed.

(** X8. With three or more reaction times recorded, the median and the
    90th percentile that [getRTStats] reports are values of the last 20
    reaction times, the median is at most the 90th percentile, and the
    coefficient of variation is not negative. *)
Theorem getRTStats_order (a : AbilityModel.t) :
  (3 <= length (AbilityModel.rtWindow a))%nat ->
  let rts := slice_last 20 (AbilityModel.rtWindow a) in
  let st := AbilityModel.getRTStats a in
  In (AbilityModel.median st) rts
  /\ In (AbilityModel.p90 st) rts
  /\ AbilityModel.median st <= AbilityModel.p90 st
  /\ 0 <= AbilityModel.cv st.
Proof.
  intros Hlen rts st. unfold st, AbilityModel.getRTStats.
  change AbilityModel.rtWindowSize with 20%nat. fold rts.
  assert (Hrts : (3 <= length rts)%nat)
    by (unfold rts; rewrite slice_last_length; lia).
  replace (length rts <? 3)%nat with false
    by (symmetry; apply Nat.ltb_ge; assumption).
  cbn [AbilityModel.median AbilityModel.p90 AbilityModel.cv].
  rewrite sort_ascending_length.
  assert (Hpos : (0 < length rts)%nat) by lia.
  assert (Hhalf : 0 <= / 2 < 1) by lra.
  assert (Hnine : 0 <= 0.9 < 1) by lra.
  pose proof (Math_floor_index (/ 2) (length rts) Hhalf Hpos) as Hi1.
  pose proof (Math_floor_index 0.9 (length rts) Hnine Hpos) as Hi2.
  replace (/ 2 * INR (length rts)) with (INR (length rts) / 2) in Hi1
    by (unfold Rdiv; ring).
  rewrite (Rmult_comm 0.9) in Hi2.
  assert (Hle : (Math_floor (INR (length rts) / 2)
                 <= Math_floor (INR (length rts) * 0.9))%Z).
  { apply Math_floor_le. pose proof (pos_INR (length rts)). lra. }
  unfold AbilityModel.num_index.
  pose proof (sort_ascending_length rts) as Hsl.
  repeat split.
  - apply (sort_ascending_In _ rts). apply nth_In. lia.
  - apply (sort_ascending_In _ rts). apply nth_In. lia.
  - apply ascending_nth; [apply sort_ascending_ascending | lia].
  - unfold Rgtb, Rltb. destruct (Rlt_dec 0 _) as [Hmean | _]; [| lra].
    apply Rmult_le_pos; [apply sqrt_pos |].
    apply Rlt_le, Rinv_0_lt_compat. assumption.
Qed.

Lemma getRTStats_order_witness :
  let a := AbilityModel.mk [] 1.5 [] [700; 500; 600] 0 in
  AbilityModel.median (AbilityModel.getRTStats a)
  <= AbilityModel.p90 (AbilityModel.getRTStats a).
Proof.
  intros a.
  assert (Hlen : (3 <= length (AbilityModel.rtWindow a))%nat)
    by (cbn; lia).
  destruct (getRTStats_order a Hlen) as (_ & _ & Hle & _).
  exact Hle.
Defined.

(** ** The derived scores *)

(** X9. On an ability model whose reaction-time window holds times from
    150 ms to 5000 ms (the trainer records no others) and whose theta
    history holds values from -5 to 5, the fatigue index, the flow score
    and the normalized performance lie between 0 and 1. *)
Theorem ability_scores_in_unit_interval (a : AbilityModel.t) :
  Forall (fun rt => 150 <= rt <= 5000) (AbilityModel.rtWindow a) ->
  Forall (fun theta => -5 <= theta <= 5) (AbilityModel.thetaWindow a) ->
  0 <= AbilityModel.getFatigueIndex a <= 1
  /\ 0 <= AbilityModel.getFlowScore a <= 1
  /\ 0 <= AbilityModel.getNormalizedPerformance a <= 1.
Proof.
  intros _ _. split; [| split].
  - unfold AbilityModel.getFatigueIndex.
    set (tail := Rmax 0 _). set (cvc := Rmax 0 ((_ - 0.4) / 0.3)).
    set (trend := Rmax 0 (- _ * 10)).
    assert (0 <= tail) by apply Rmax_l.
    assert (0 <= cvc) by apply Rmax_l.
    assert (0 <= trend) by apply Rmax_l.
    unfold Rmin. destruct (Rle_dec _ _); lra.
  - unfold AbilityModel.getFlowScore.
    set (th := Rmax 0 (Rmin 1 (_ / 2.5))).
    set (cvb := Rmax 0 (Rmin 1 (1 - _))).
    set (tb := Rmax 0 (Rmin 1 (_ * 20))).
    assert (0 <= th <= 1) by (apply clamp_range; lra).
    assert (0 <= cvb <= 1) by (apply clamp_range; lra).
    assert (0 <= tb <= 1) by (apply clamp_range; lra).
    unfold Rmin. destruct (Rle_dec _ _); lra.
  - unfold AbilityModel.getNormalizedPerformance. apply clamp_range. lra.
Qed.

Lemma ability_scores_in_unit_interval_witness :
  let a := AbilityModel.mk [] 1.5 [1.5; 1.4; 1.6; 1.7; 1.9]
             [700; 500; 600] 5 in
  0 <= AbilityModel.getFlowScore a <= 1.
Proof.
  intros a.
  assert (Hrt : Forall (fun rt => 150 <= rt <= 5000)
                  (AbilityModel.rtWindow a))
    by (unfold a; cbn; repeat constructor; lra).
  assert (Htheta : Forall (fun theta => -5 <= theta <= 5)
                     (AbilityModel.thetaWindow a))
    by (unfold a; cbn; repeat constructor; lra).
  destruct (ability_scores_in_unit_interval a Hrt Htheta) as (_ & Hflow & _).
  exact Hflow.
Defined.

(** ** Invariants of the difficulty controller *)

Lemma Math_round_le (x y : R) : x <= y -> (Math_round x <= Math_round y)%Z.
Proof.
  intros Hxy. unfold Math_round. apply (Math_floor_le (x + / 2) (y + / 2)).
  lra.
Qed.

Lemma candidateOfEntropy_range (d : DifficultyController.t) (entropy : R) :
  (2 <= DifficultyController.candidateOfEntropy d entropy
   <= Z.max 2 (DifficultyController.maxUniqueColors d))%Z.
Proof.
  unfold DifficultyController.candidateOfEntropy.
  change (IZR DifficultyController.minUniqueColors) with 2.
  set (x := 2 + _). set (M := DifficultyController.maxUniqueColors d).
  assert (Hlo : 2 <= Rmax 2 (Rmin (IZR M) x)) by apply Rmax_l.
  assert (Hhi : Rmax 2 (Rmin (IZR M) x) <= IZR (Z.max 2 M)).
  { apply Rmax_lub.
    - apply (IZR_le 2). lia.
    - apply Rle_trans with (IZR M); [apply Rmin_l | apply IZR_le; lia]. }
  apply Math_round_le in Hlo, Hhi.
  rewrite Math_round_IZR in Hhi. rewrite (Math_round_IZR 2) in Hlo. lia.
Qed.

Lemma controllerInv_new (n : nat) : controllerInv (DifficultyController.new n).
Proof.
  unfold controllerInv. split; [apply knobsInRange_new |].
  cbn. repeat split; try lra; try lia.
  - apply Rmin_glb; [lra | apply Rmax_l].
  - apply Rmin_l.
Qed.

Lemma controllerInv_update (d : DifficultyController.t) (a : AbilityModel.t) :
  controllerInv d -> controllerInv (DifficultyController.update d a).
Proof.
  intros (_ & _ & Hcur & Hmax & Hcnt & _ & Hclimb & Hdrop).
  unfold controllerInv. split; [apply knobsInRange_update |].
  pose proof (update_gate d a) as Hgate.
  pose proof (candidateOfEntropy_range d
                (DifficultyController.nextEntropy d
                   (DifficultyController.piAdjustment d a))) as Hcand.
  fold (DifficultyController.candidateColors d a) in Hcand.
  rewrite Hmax in Hcand.
  assert (Hgated :
    (2 <= DifficultyController.currentUniqueColors
            (DifficultyController.update d a)
     <= Z.max 2 (Z.of_nat (DifficultyController.n d) + 1))%Z
    /\ (0 <= DifficultyController.stepHoldCounter
               (DifficultyController.update d a))%Z).
  { destruct (stepHold_cases d (DifficultyController.candidateColors d a))
      as [[_ Hsh] | [(_ & _ & _ & Hsh) | [_ Hsh]]];
      rewrite Hsh in Hgate; injection Hgate as Hc _ Hk; rewrite Hc, Hk;
      try (split; lia).
    split; [lia |].
    destruct (_ =? _)%Z; lia. }
  destruct Hgated as [Hcur' Hcnt'].
  unfold DifficultyController.update in *.
  destruct (DifficultyController.stepHold d _) as [[current pending] counter].
  cbn in *.
  assert (Hint : - (3.0) <= DifficultyController.piIntegral d a <= 3.0)
    by (unfold DifficultyController.piIntegral,
          DifficultyController.integralMax; apply clamp_range; lra).
  repeat split; try assumption; try lia; try lra.
  destruct (Rgtb _ 0.6 && Rltb _ 0.3); [left; reflexivity |].
    destruct (Rgtb _ 0.6); [right; right | right; left]; reflexivity.
Qed.

Lemma controllerInv_onSessionStopped (d : DifficultyController.t) :
  controllerInv d -> controllerInv (DifficultyController.onSessionStopped d).
Proof.
  intros (Hknobs & _ & Hcur & Hmax & _ & Hspeed & Hclimb & Hdrop).
  unfold controllerInv.
  split; [apply knobsInRange_onSessionStopped; assumption |].
  cbn. change DifficultyController.minUniqueColors with 2%Z.
  repeat split; try assumption; try lia; try lra;
    destruct (Z.gtb_spec (DifficultyController.currentUniqueColors d) 2); lia.
Qed.

(** X11. Whatever the history of [update] and [onSessionStopped] calls on
    a freshly constructed controller: the entropy target and TSE stay in
    [0, 1], the match rate in [0.25, 0.40], the PI integral in [-3, 3], the
    committed colour count between 2 and n + 1 (2 for n = 0), the hold
    counter is not negative and the speed multiplier is 0.95, 1.0 or
    1.05. *)
Theorem controller_invariants (n : nat) (ops : list dcOp) :
  let d := dcOps (DifficultyController.new n) ops in
  0 <= DifficultyController.targetEntropy d <= 1
  /\ 0 <= DifficultyController.tse d <= 1
  /\ 0.25 <= DifficultyController.matchRate d <= 0.40
  /\ -3 <= DifficultyController.integral d <= 3
  /\ (2 <= DifficultyController.currentUniqueColors d
      <= Z.max 2 (Z.of_nat n + 1))%Z
  /\ (0 <= DifficultyController.stepHoldCounter d)%Z
  /\ (DifficultyController.stimulusInterval d = 0.95
      \/ DifficultyController.stimulusInterval d = 1.0
      \/ DifficultyController.stimulusInterval d = 1.05).
Proof.
  intros d.
  assert (Hinv : controllerInv d /\ DifficultyController.n d = n).
  { unfold d, dcOps.
    induction ops as [| o ops IH] using rev_ind.
    - split; [apply controllerInv_new | reflexivity].
    - rewrite fold_left_app. cbn [fold_left].
      destruct IH as [IH Hn]. destruct o as [a |]; cbn [dcStep].
      + split; [apply controllerInv_update; assumption |].
        unfold DifficultyController.update.
        destruct (DifficultyController.stepHold _ _) as [[c p] k].
        assumption.
      + split; [apply controllerInv_onSessionStopped; assumption |].
        assumption. }
  destruct Hinv as [(Hknobs & Hint & Hcur & _ & Hcnt & Hspeed & _) Hn].
  destruct Hknobs as (He & Ht & Hm). rewrite Hn in Hcur.
  repeat split; try apply He; try apply Ht; try apply Hm; try apply Hint;
    try apply Hcur; assumption.
Qed.

Lemma clamp_up (lo hi x d : R) :
  lo <= x <= hi -> 0 <= d -> x <= Rmax lo (Rmin hi (x + d)).
Proof.
  intros Hx Hd. unfold Rmin. destruct (Rle_dec hi (x + d)); unfold Rmax;
    destruct (Rle_dec _ _); lra.
Qed.

Lemma clamp_down (lo hi x d : R) :
  lo <= x <= hi -> d <= 0 -> Rmax lo (Rmin hi (x + d)) <= x.
Proof.
  intros Hx Hd. unfold Rmin. destruct (Rle_dec hi (x + d)); unfold Rmax;
    destruct (Rle_dec _ _); lra.
Qed.

(** X12. Direction of an [update] on a controller with the invariants: a
    negative PI adjustment (player above the target zone) never lowers the
    entropy target or TSE and gives a match rate of at most 0.30; an
    adjustment that is not negative never raises the entropy target or TSE
    and gives a match rate of at least 0.30. *)
Theorem update_direction (d : DifficultyController.t) (a : AbilityModel.t) :
  controllerInv d ->
  let adjustment := DifficultyController.piAdjustment d a in
  let d' := DifficultyController.update d a in
  (adjustment < 0 ->
   DifficultyController.targetEntropy d
   <= DifficultyController.targetEntropy d'
   /\ DifficultyController.tse d <= DifficultyController.tse d'
   /\ DifficultyController.matchRate d' <= 0.30)
  /\ (0 <= adjustment ->
      DifficultyController.targetEntropy d'
      <= DifficultyController.targetEntropy d
      /\ DifficultyController.tse d' <= DifficultyController.tse d
      /\ 0.30 <= DifficultyController.matchRate d').
Proof.
  intros (((He0 & He1) & (Ht0 & Ht1) & _) & _ & _ & _ & _ & _ & Hclimb & Hdrop)
    adjustment d'.
  unfold d', DifficultyController.update. fold adjustment.
  destruct (DifficultyController.stepHold d _) as [[current pending] counter].
  cbn [DifficultyController.targetEntropy DifficultyController.tse
       DifficultyController.matchRate].
  unfold DifficultyController.nextEntropy, DifficultyController.tseClimbRate,
    DifficultyController.tseDropRate.
  split; intros Hadj.
  - rewrite !Rltb_true by assumption.
    assert (Hm : Rmax (-0.05) (Rmin 0.10 (adjustment * 0.05)) <= 0).
    { apply Rmax_lub; [lra |].
      apply Rle_trans with (adjustment * 0.05); [apply Rmin_r | lra]. }
    repeat split.
    + apply clamp_up; [lra | nra].
    + apply clamp_up; lra.
    + apply (clamp_down 0.25 0.40 0.30); lra.
  - rewrite !Rltb_false by assumption.
    assert (Hm : 0 <= Rmax (-0.05) (Rmin 0.10 (adjustment * 0.05))).
    { apply Rle_trans with (Rmin 0.10 (adjustment * 0.05)); [| apply Rmax_r].
      apply Rmin_glb; lra. }
    repeat split.
    + apply clamp_down; [lra | nra].
    + apply clamp_down; lra.
    + apply (clamp_up 0.25 0.40 0.30); lra.
Qed.

Lemma update_direction_witness :
  DifficultyController.targetEntropy (DifficultyController.new 3)
  <= DifficultyController.targetEntropy
       (DifficultyController.update (DifficultyController.new 3) strongInput).
Proof.
  pose proof (update_direction (DifficultyController.new 3) strongInput
                (controllerInv_new 3)) as [Hup _].
  apply Hup.
  unfold DifficultyController.piAdjustment, DifficultyController.piIntegral,
    strongInput, AbilityModel.getThetaTrend, Rgtb,
    DifficultyController.targetTheta, DifficultyController.Kp,
    DifficultyController.Ki, DifficultyController.integralMax.
  cbn [AbilityModel.theta AbilityModel.thetaWindow length Nat.ltb Nat.leb
       DifficultyController.integral DifficultyController.new].
  rewrite (Rltb_true 1.6 102) by lra.
  rewrite (Rltb_false 0.005 0) by lra.
  rewrite (Rltb_false 0 (-0.01)) by lra.
  cbn [andb].
  rewrite Rmin_right by lra. rewrite Rmax_left by lra. lra.
Defined.

(** ** Runs of the stopper *)

Lemma sprtRun_snoc (s : SPRTStopper.t) (trials : list (bool * bool))
    (correct wasMatch : bool) :
  sprtRun s (trials ++ [(correct, wasMatch)])
  = fst (SPRTStopper.recordTrial (sprtRun s trials) correct wasMatch).
Proof.
  revert s. induction trials as [| [c w] trials IH]; intros s;
    [reflexivity |].
  cbn [app sprtRun]. apply IH.
Qed.

(** The three outcomes of [recordTrial], with the whole new state. *)
Lemma recordTrial_states (s : SPRTStopper.t) (correct wasMatch : bool) :
  let acc := SPRTStopper.accumulate s correct wasMatch in
  let s' := fst (SPRTStopper.recordTrial s correct wasMatch) in
  (SPRTStopper.stopBound <= acc
   /\ s' = SPRTStopper.mk acc SPRTStopper.Stop
             (SPRTStopper.trialsRecorded s + 1))
  \/ (acc <= SPRTStopper.acceptBound
      /\ s' = SPRTStopper.mk 0 SPRTStopper.Continue
                (SPRTStopper.trialsRecorded s + 1))
  \/ (SPRTStopper.acceptBound < acc < SPRTStopper.stopBound
      /\ s' = SPRTStopper.mk acc (SPRTStopper.decision s)
                (SPRTStopper.trialsRecorded s + 1)).
Proof.
  intros acc s'. pose proof accept_below_stop as Hbounds.
  unfold s', SPRTStopper.recordTrial, Rgeb. fold acc. cbn [fst].
  destruct (Rle_lt_dec SPRTStopper.stopBound acc) as [Hstop | Hstop].
  - left. rewrite Rleb_true by assumption. split; [assumption | reflexivity].
  - rewrite Rleb_false by assumption.
    destruct (Rle_lt_dec acc SPRTStopper.acceptBound) as [Hacc | Hacc].
    + right; left. rewrite Rleb_true by assumption.
      split; [assumption | reflexivity].
    + right; right. rewrite Rleb_false by assumption.
      split; [lra | reflexivity].
Qed.

(** X13. After any run of trials on a fresh stopper, [logLR] is strictly
    above [acceptBound], it is strictly below [stopBound] whenever the
    decision is [continue], and [trialsRecorded] is the number of trials. *)
Theorem sprt_logLR_between_bounds (trials : list (bool * bool)) :
  let s := sprtRun SPRTStopper.new trials in
  SPRTStopper.acceptBound < SPRTStopper.logLR s
  /\ (SPRTStopper.decision s = SPRTStopper.Continue ->
      SPRTStopper.logLR s < SPRTStopper.stopBound)
  /\ SPRTStopper.trialsRecorded s = Z.of_nat (length trials).
Proof.
  pose proof acceptBound_approx as Hacc. pose proof stopBound_approx as Hstop.
  induction trials as [| [c w] trials IH] using rev_ind.
  - cbn. repeat split; try lra; reflexivity.
  - cbn zeta in *. rewrite sprtRun_snoc, length_app. cbn [length].
    destruct IH as (Hlow & Hcont & Hcount).
    destruct (recordTrial_states (sprtRun SPRTStopper.new trials) c w)
      as [[H ->] | [[H ->] | [H ->]]]; cbn;
      repeat split; try lra; try lia; try discriminate.
Qed.

(** X14. A run of correct answers never stops the session: from a fresh
    stopper the decision stays [continue], [logLR] is never positive and
    [shouldStop] is false, however long the run. *)
Theorem flawless_run_never_stops (trials : list (bool * bool)) :
  Forall (fun trial => fst trial = true) trials ->
  let s := sprtRun SPRTStopper.new trials in
  SPRTStopper.decision s = SPRTStopper.Continue
  /\ SPRTStopper.logLR s <= 0
  /\ SPRTStopper.shouldStop s = false.
Proof.
  pose proof stopBound_approx as Hstop.
  intros Hall.
  assert (Hinv : SPRTStopper.decision (sprtRun SPRTStopper.new trials)
                 = SPRTStopper.Continue
                 /\ SPRTStopper.logLR (sprtRun SPRTStopper.new trials) <= 0).
  { induction trials as [| [c w] trials IH] using rev_ind.
    - cbn. split; [reflexivity | lra].
    - apply Forall_app in Hall. destruct Hall as [Hall Hlast].
      inversion Hlast as [| x l Hc _]; subst. cbn in Hc. subst c.
      destruct (IH Hall) as [Hdec Hle]. rewrite sprtRun_snoc.
      destruct (accumulate_correct (sprtRun SPRTStopper.new trials) w)
        as [_ Hdown].
      destruct (recordTrial_states (sprtRun SPRTStopper.new trials) true w)
        as [[H _] | [[_ ->] | [_ ->]]]; cbn; [lra | split | split];
        try reflexivity; try assumption; lra. }
  destruct Hinv as [Hdec Hle]. cbn zeta.
  repeat split; try assumption.
  unfold SPRTStopper.shouldStop. rewrite Hdec.
  destruct (_ <? _)%Z; reflexivity.
Qed.

Lemma flawless_run_never_stops_witness :
  SPRTStopper.shouldStop
    (sprtRun SPRTStopper.new (repeat (true, false) 12)) = false.
Proof.
  assert (Hall : Forall (fun trial : bool * bool => fst trial = true)
                   (repeat (true, false) 12))
    by (repeat constructor).
  destruct (flawless_run_never_stops _ Hall) as (_ & _ & Hstop).
  exact Hstop.
Defined.

(** *** How fast errors stop a session *)

Lemma exp_m1950_bounds : 0.1422 <= exp (-1.95) <= 0.1423.
Proof.
  split; [exp_lower (-1.95) (-195)%Z 100%Z | exp_upper (-1.95) (-195)%Z 100%Z].
Qed.

Lemma exp_m0900_bounds : 0.4065 <= exp (-0.9) <= 0.4066.
Proof.
  split; [exp_lower (-0.9) (-9)%Z 10%Z | exp_upper (-0.9) (-9)%Z 10%Z].
Qed.

(** The step of [logLR] on a correct non-target trial is about -0.21. *)
Lemma correct_nontarget_step :
  -0.21 <= ln (SPRTStopper.thetaToAccuracy SPRTStopper.theta1 false
               / SPRTStopper.thetaToAccuracy SPRTStopper.theta0 false)
  <= -0.20.
Proof.
  rewrite !thetaToAccuracy_unfold.
  unfold SPRTStopper.theta0, SPRTStopper.theta1.
  replace (- (0.8 - 0.2) * 1.5) with (-0.9) by lra.
  replace (- (1.5 - 0.2) * 1.5) with (-1.95) by lra.
  pose proof exp_m1950_bounds as H0. pose proof exp_m0900_bounds as H1.
  replace (/ (1 + exp (-0.9)) / / (1 + exp (-1.95)))
    with ((1 + exp (-1.95)) / (1 + exp (-0.9))) by (field; lra).
  split.
  - apply ln_ge_of_exp_le.
    apply Rle_trans with 0.8110; [exp_upper (-0.21) (-21)%Z 100%Z |].
    apply le_div; lra.
  - apply ln_le_of_le_exp; [apply Rdiv_lt_0_compat; lra |].
    apply Rle_trans with 0.8186; [| exp_lower (-0.20) (-20)%Z 100%Z].
    apply div_le; lra.
Qed.

(** An error moves [logLR] by 1.05 more than a correct answer to the same
    kind of trial. *)
Lemma error_step_value (wasMatch : bool) :
  ln ((1 - SPRTStopper.thetaToAccuracy SPRTStopper.theta1 wasMatch)
      / (1 - SPRTStopper.thetaToAccuracy SPRTStopper.theta0 wasMatch))
  = 1.05 + ln (SPRTStopper.thetaToAccuracy SPRTStopper.theta1 wasMatch
               / SPRTStopper.thetaToAccuracy SPRTStopper.theta0 wasMatch).
Proof.
  rewrite !thetaToAccuracy_unfold.
  unfold SPRTStopper.theta0, SPRTStopper.theta1.
  set (off := if wasMatch then 0.5 else 0.2).
  set (x1 := - (0.8 - off) * 1.5). set (x0 := - (1.5 - off) * 1.5).
  pose proof (exp_pos x0) as H0. pose proof (exp_pos x1) as H1.
  replace ((1 - / (1 + exp x1)) / (1 - / (1 + exp x0)))
    with (exp x1 / exp x0 * (/ (1 + exp x1) / / (1 + exp x0)))
    by (field; lra).
  rewrite ln_mult.
  - f_equal. unfold Rdiv. rewrite <- exp_Ropp, <- exp_plus, ln_exp.
    unfold x1, x0. lra.
  - apply Rdiv_lt_0_compat; assumption.
  - apply Rdiv_lt_0_compat; apply Rinv_0_lt_compat; lra.
Qed.

Lemma error_step_bounds (wasMatch : bool) :
  0.75 <= ln ((1 - SPRTStopper.thetaToAccuracy SPRTStopper.theta1 wasMatch)
              / (1 - SPRTStopper.thetaToAccuracy SPRTStopper.theta0
                       wasMatch))
  <= 0.85.
Proof.
  rewrite error_step_value.
  pose proof correct_target_step. pose proof correct_nontarget_step.
  destruct wasMatch; lra.
Qed.

Lemma accumulate_error (s : SPRTStopper.t) (wasMatch : bool) :
  SPRTStopper.accumulate s false wasMatch
  = SPRTStopper.logLR s
    + ln ((1 - SPRTStopper.thetaToAccuracy SPRTStopper.theta1 wasMatch)
          / (1 - SPRTStopper.thetaToAccuracy SPRTStopper.theta0 wasMatch)).
Proof.
  pose proof (thetaToAccuracy_range SPRTStopper.theta0 wasMatch) as H0.
  pose proof (thetaToAccuracy_range SPRTStopper.theta1 wasMatch) as H1.
  unfold SPRTStopper.accumulate, Rgtb.
  rewrite !Rltb_true by lra. reflexivity.
Qed.

Lemma errorsRun_state (kinds : list bool) :
  let s := errorsRun kinds in
  let j := INR (length kinds) in
  SPRTStopper.trialsRecorded s = Z.of_nat (length kinds)
  /\ ((length kinds <= 3)%nat ->
      SPRTStopper.decision s = SPRTStopper.Continue
      /\ 0.75 * j <= SPRTStopper.logLR s <= 0.85 * j)
  /\ ((4 <= length kinds)%nat ->
      SPRTStopper.decision s = SPRTStopper.Stop
      /\ 3 <= SPRTStopper.logLR s).
Proof.
  pose proof acceptBound_approx as Hacc. pose proof stopBound_approx as Hstop.
  induction kinds as [| w kinds IH] using rev_ind.
  - cbn. repeat split; try lra; lia.
  - cbn zeta in *. unfold errorsRun in *.
    rewrite map_app, length_app. cbn [map length].
    rewrite sprtRun_snoc. rewrite Nat.add_1_r, S_INR.
    set (s := sprtRun SPRTStopper.new
                (map (fun wasMatch => (false, wasMatch)) kinds)) in *.
    destruct IH as (Hcount & Hfew & Hmany).
    pose proof (accumulate_error s w) as Hsum.
    pose proof (error_step_bounds w) as Hstep.
    set (step := ln _) in *. clearbody step.
    assert (Hj : ((length kinds <= 2)%nat /\ INR (length kinds) <= 2)
                 \/ (length kinds = 3)%nat
                 \/ (4 <= length kinds)%nat).
    { destruct (Nat.le_gt_cases (length kinds) 2) as [H | H].
      - left. split; [assumption |]. apply (le_INR _ 2) in H. exact H.
      - destruct (Nat.eq_dec (length kinds) 3); [right; left | right; right];
          lia. }
    pose proof (pos_INR (length kinds)) as Hpos.
    destruct Hj as [[Hj HjR] | [Hj | Hj]].
    + destruct (Hfew ltac:(lia)) as [Hdec Hlr].
      cbn in HjR.
      destruct (recordTrial_states s false w)
        as [[H _] | [[H _] | [_ ->]]]; [lra | lra |].
      cbn. repeat split; try lia; try lra. assumption.
    + destruct (Hfew ltac:(lia)) as [Hdec Hlr].
      rewrite Hj in Hlr. cbn in Hlr.
      destruct (recordTrial_states s false w)
        as [[_ ->] | [[H _] | [H _]]]; [| lra | lra].
      cbn. repeat split; try lia; try lra.
    + destruct (Hmany Hj) as [Hdec Hlr].
      destruct (recordTrial_states s false w)
        as [[_ ->] | [[H _] | [H _]]]; [| lra | lra].
      cbn. repeat split; try lia; try lra.
Qed.

(** X15. Consecutive errors on a fresh stopper, target or non-target in
    any mix: up to three errors leave the decision at [continue], the
    fourth commits [stop], and from the eighth on [shouldStop] is true. *)
Theorem consecutive_errors_stop (kinds : list bool) :
  let s := errorsRun kinds in
  ((length kinds <= 3)%nat -> SPRTStopper.decision s = SPRTStopper.Continue)
  /\ ((4 <= length kinds)%nat -> SPRTStopper.decision s = SPRTStopper.Stop)
  /\ ((8 <= length kinds)%nat -> SPRTStopper.shouldStop s = true).
Proof.
  intros s. destruct (errorsRun_state kinds) as (Hcount & Hfew & Hmany).
  fold s in Hcount, Hfew, Hmany.
  split; [| split].
  - intros H. apply Hfew. assumption.
  - intros H. apply Hmany. assumption.
  - intros H. unfold SPRTStopper.shouldStop. rewrite Hcount.
    replace (Z.of_nat (length kinds) <? 8)%Z with false
      by (symmetry; apply Z.ltb_ge; lia).
    destruct (Hmany ltac:(lia)) as [-> _]. reflexivity.
Qed.

(** ** The match generator *)

(** X16. [setTargetRate] keeps the target rate in [0.20, 0.45] and sets the
    longest tolerated gap between matches to an even number from 4 to 10;
    for the rates the difficulty controller produces (0.25 to 0.40) the gap
    is 6 to 8. *)
Theorem setTargetRate_bounds (m : MatchGenerator.t) (rate : R) :
  let m' := MatchGenerator.setTargetRate m rate in
  0.20 <= MatchGenerator.targetRate m' <= 0.45
  /\ (4 <= MatchGenerator.maxGap m' <= 10)%Z
  /\ Z.even (MatchGenerator.maxGap m') = true
  /\ (0.25 <= rate <= 0.40 -> (6 <= MatchGenerator.maxGap m' <= 8)%Z).
Proof.
  intros m'. unfold m', MatchGenerator.setTargetRate.
  cbn [MatchGenerator.targetRate MatchGenerator.maxGap].
  set (t := Rmax 0.20 (Rmin 0.45 rate)).
  assert (Ht : 0.20 <= t <= 0.45) by (apply clamp_range; lra).
  assert (Hinv : 2 <= 1 / t <= 5).
  { split; [apply le_div | apply div_le]; lra. }
  assert (Hround : (2 <= Math_round (1 / t) <= 5)%Z).
  { destruct Hinv as [Hlo Hhi]. apply Math_round_le in Hlo, Hhi.
    rewrite (Math_round_IZR 2) in Hlo. rewrite (Math_round_IZR 5) in Hhi.
    lia. }
  split; [assumption |]. split; [lia |].
  split; [rewrite Z.even_mul; apply orb_true_r |].
  intros Hrate.
  assert (Hrt : t = rate).
  { unfold t. rewrite Rmin_right by lra. rewrite Rmax_right by lra.
    reflexivity. }
  rewrite Hrt in *.
  assert (Hinv' : 2.5 <= 1 / rate <= 4).
  { split; [apply le_div | apply div_le]; lra. }
  destruct Hinv' as [Hlo Hhi]. apply Math_round_le in Hlo, Hhi.
  rewrite (Math_round_IZR 4) in Hhi.
  rewrite (Math_round_between 2.5 3) in Hlo by lra. lia.
Qed.

(** X17. Gap pressure end to end: when the trainer generates a trial
    while more trials than [maxGap] have passed since the last match, the
    window reaches n colours back and holds a colour at that place, the
    tile repeats that colour, is flagged as a match, and the gap counter
    restarts at 0. *)
Theorem drought_forces_match (tr : WorkingMemoryTrainer.t) (k : rng) :
  let mg := MatchGenerator.setTargetRate
              (WorkingMemoryTrainer.matchGenerator tr)
              (DifficultyController.getMatchRate
                 (WorkingMemoryTrainer.difficultyController tr)) in
  let memoryState := ColorSequenceGenerator.getMemoryState
                       (WorkingMemoryTrainer.colorGenerator tr) in
  let generated := fst (WorkingMemoryTrainer.generateNextTrial tr k) in
  drawsInRange k ->
  (MatchGenerator.maxGap mg
   < MatchGenerator.trialsSinceLastMatch
       (WorkingMemoryTrainer.matchGenerator tr))%Z ->
  (WorkingMemoryState.n memoryState
   <= length (WorkingMemoryState.recentColors memoryState))%nat ->
  truthy (MatchGenerator.getNBackColor memoryState) = true ->
  WorkingMemoryTrainer.tl_isMatch (fst generated) = true
  /\ WorkingMemoryTrainer.tl_color (fst generated)
     = MatchGenerator.getNBackColor memoryState
  /\ MatchGenerator.trialsSinceLastMatch
       (WorkingMemoryTrainer.matchGenerator (snd generated)) = 0%Z.
Proof.
  intros mg memoryState generated Hdraws Hgap Hlong Htruthy.
  unfold generated, WorkingMemoryTrainer.generateNextTrial, bind.
  fold mg. fold memoryState.
  assert (Hdecision :
    fst (MatchGenerator.shouldCreateMatch mg memoryState k)
    = MatchGenerator.mkDecision true true).
  { unfold MatchGenerator.shouldCreateMatch.
    replace (length (WorkingMemoryState.recentColors memoryState)
             <? WorkingMemoryState.n memoryState)%nat with false
      by (symmetry; apply Nat.ltb_ge; assumption).
    unfold MatchGenerator.matchProbability.
    replace (MatchGenerator.trialsSinceLastMatch mg
             >? MatchGenerator.maxGap mg)%Z with true
      by (symmetry; apply Z.gtb_lt; exact Hgap).
    unfold bind, Math_random, ret. cbn [fst].
    rewrite Rmax_left by lra. rewrite Rmin_right by lra.
    rewrite Rltb_true by apply Hdraws. reflexivity. }
  destruct (MatchGenerator.shouldCreateMatch mg memoryState k)
    as [decision k1].
  cbn [fst] in Hdecision. subst decision.
  cbn [MatchGenerator.shouldMatch MatchGenerator.isForced].
  assert (Hcolor :
    fst (fst (ColorSequenceGenerator.generateNextColor
                (WorkingMemoryTrainer.colorGenerator tr)
                (DifficultyController.getTargetUniqueColors
                   (WorkingMemoryTrainer.difficultyController tr))
                true (MatchGenerator.getNBackColor memoryState) true
                (DifficultyController.tse
                   (WorkingMemoryTrainer.difficultyController tr)) k1))
    = MatchGenerator.getNBackColor memoryState).
  { unfold ColorSequenceGenerator.generateNextColor.
    rewrite Htruthy. reflexivity. }
  destruct (ColorSequenceGenerator.generateNextColor _ _ _ _ _ _ k1)
    as [x k2].
  cbn [fst] in Hcolor.
  destruct (WorkingMemoryTrainer.generatePosition tr k2) as [position k3].
  unfold ret. cbn [fst snd WorkingMemoryTrainer.tl_isMatch
    WorkingMemoryTrainer.tl_color WorkingMemoryTrainer.matchGenerator].
  rewrite Hcolor, Htruthy. unfold js_eqb.
  destruct (jsval_eq_dec _ _) as [_ | Hne]; [| exfalso; apply Hne; reflexivity].
  repeat split.
Qed.

(** ** Tile positions *)

Lemma grid_cells (p : WorkingMemoryTrainer.position) :
  In p WorkingMemoryTrainer.grid <->
  (0 <= WorkingMemoryTrainer.row p <= 2
   /\ 0 <= WorkingMemoryTrainer.col p <= 2)%Z.
Proof.
  destruct p as [r c]. cbn. split.
  - intros H.
    repeat (destruct H as [H | H]; [injection H as <- <-; lia |]).
    destruct H.
  - intros [Hr Hc].
    assert (r = 0 \/ r = 1 \/ r = 2)%Z as [-> | [-> | ->]] by lia;
      assert (c = 0 \/ c = 1 \/ c = 2)%Z as [-> | [-> | ->]] by lia;
      tauto.
Qed.

Lemma excluded_iff (cells : list Z) (p : WorkingMemoryTrainer.position) :
  In p WorkingMemoryTrainer.grid ->
  existsb (fun e => (WorkingMemoryTrainer.row e =? WorkingMemoryTrainer.row p)%Z
                    && (WorkingMemoryTrainer.col e
                        =? WorkingMemoryTrainer.col p)%Z)
          (getExcludedPositions cells) = true
  <-> In (cellIndex p) cells.
Proof.
  intros Hgrid. apply grid_cells in Hgrid. destruct Hgrid as [Hr Hc].
  rewrite existsb_exists. unfold getExcludedPositions, cellIndex. split.
  - intros (e & He & Hmatch). apply in_map_iff in He.
    destruct He as (idx & <- & Hidx). cbn in Hmatch.
    apply andb_true_iff in Hmatch. destruct Hmatch as [Hrow Hcol].
    apply Z.eqb_eq in Hrow, Hcol.
    assert (Hnonneg : (0 <= idx)%Z) by (Z.div_mod_to_equations; lia).
    rewrite Z.rem_mod_nonneg in Hcol by lia.
    replace (WorkingMemoryTrainer.row p * 3 + WorkingMemoryTrainer.col p)%Z
      with idx; [assumption |].
    Z.div_mod_to_equations. lia.
  - intros Hin.
    exists (WorkingMemoryTrainer.mkPosition
              ((WorkingMemoryTrainer.row p * 3 + WorkingMemoryTrainer.col p) / 3)
              (Z.rem (WorkingMemoryTrainer.row p * 3
                      + WorkingMemoryTrainer.col p) 3)).
    split.
    + apply in_map_iff. eexists. split; [reflexivity | assumption].
    + cbn. rewrite Z.rem_mod_nonneg by lia.
      apply andb_true_iff. split; apply Z.eqb_eq;
        Z.div_mod_to_equations; lia.
Qed.

(** X18. With the application's deactivated cells passed to the trainer
    as excluded positions, the position drawn for a tile is a cell of the
    3 x 3 grid whose index is not deactivated; no position is returned
    only when all nine cells are deactivated. *)
Theorem generatePosition_avoids_deactivated
    (tr : WorkingMemoryTrainer.t) (cells : list Z) (k : rng) :
  drawsInRange k ->
  let tr' := WorkingMemoryTrainer.setExcludedPositions tr
               (Some (getExcludedPositions cells)) in
  match fst (WorkingMemoryTrainer.generatePosition tr' k) with
  | Some p =>
    In p WorkingMemoryTrainer.grid /\ (0 <= cellIndex p <= 8)%Z
    /\ ~ In (cellIndex p) cells
  | None => forall c : Z, (0 <= c <= 8)%Z -> In c cells
  end.
Proof.
  intros Hdraws tr'.
  unfold WorkingMemoryTrainer.generatePosition, bind, Math_random, ret.
  cbn [fst]. unfold tr', WorkingMemoryTrainer.setExcludedPositions.
  cbn [WorkingMemoryTrainer.excludedPositions orElse].
  set (positions := filter _ WorkingMemoryTrainer.grid).
  assert (Hpos : forall p, In p positions ->
                   In p WorkingMemoryTrainer.grid
                   /\ ~ In (cellIndex p) cells).
  { intros p Hp. apply filter_In in Hp. destruct Hp as [Hgrid Hfree].
    split; [assumption |]. intros Hin.
    apply (excluded_iff cells p Hgrid) in Hin.
    rewrite Hin in Hfree. discriminate. }
  destruct positions as [| p0 rest] eqn:Hpositions.
  - cbn [length INR]. rewrite Rmult_0_r.
    replace (Math_floor 0) with 0%Z
      by (unfold Math_floor; apply Int_part_spec; lra).
    cbn. intros c Hc.
    set (p := WorkingMemoryTrainer.mkPosition (c / 3) (c mod 3)).
    assert (Hgrid : In p WorkingMemoryTrainer.grid).
    { apply grid_cells. cbn. Z.div_mod_to_equations. lia. }
    assert (Hidx : cellIndex p = c).
    { unfold cellIndex, p. cbn. Z.div_mod_to_equations. lia. }
    rewrite <- Hidx. apply (excluded_iff cells p Hgrid).
    destruct (existsb _ _) eqn:Hex; [reflexivity |].
    assert (Hin : In p positions).
    { unfold positions. apply filter_In. split; [assumption |].
      rewrite Hex. reflexivity. }
    rewrite Hpositions in Hin. destruct Hin.
  - destruct (Math_floor_index (stream k (pos k)) (length (p0 :: rest))
                (Hdraws _) ltac:(cbn; lia)) as [H0 Hlt].
    replace (Math_floor (stream k (pos k) * INR (length (p0 :: rest))) <? 0)%Z
      with false by (symmetry; apply Z.ltb_ge; assumption).
    destruct (nth_error (p0 :: rest) _) as [p |] eqn:Hnth.
    + apply nth_error_In in Hnth.
      destruct (Hpos p Hnth) as [Hgrid Hfree].
      split; [assumption | split; [| assumption]].
      apply grid_cells in Hgrid. unfold cellIndex. lia.
    + apply nth_error_None in Hnth. lia.
Qed.

Lemma generatePosition_avoids_deactivated_witness :
  match fst (WorkingMemoryTrainer.generatePosition
               (WorkingMemoryTrainer.setExcludedPositions
                  (WorkingMemoryTrainer.new 2 palette)
                  (Some (getExcludedPositions [0; 4]%Z)))
               zeroDraws) with
  | Some p =>
    In p WorkingMemoryTrainer.grid /\ (0 <= cellIndex p <= 8)%Z
    /\ ~ In (cellIndex p) [0; 4]%Z
  | None => forall c : Z, (0 <= c <= 8)%Z -> In c [0; 4]%Z
  end.
Proof.
  apply (generatePosition_avoids_deactivated
           (WorkingMemoryTrainer.new 2 palette) [0; 4]%Z zeroDraws).
  intros i. cbn. lra.
Defined.

Lemma drought_forces_match_witness :
  WorkingMemoryTrainer.tl_isMatch
    (fst (fst (WorkingMemoryTrainer.generateNextTrial droughtTrainer
                 zeroDraws))) = true.
Proof.
  assert (Hdraws : drawsInRange zeroDraws) by (intros i; cbn; lra).
  assert (Hgap :
    (MatchGenerator.maxGap
       (MatchGenerator.setTargetRate
          (WorkingMemoryTrainer.matchGenerator droughtTrainer)
          (DifficultyController.getMatchRate
             (WorkingMemoryTrainer.difficultyController droughtTrainer)))
     < MatchGenerator.trialsSinceLastMatch
         (WorkingMemoryTrainer.matchGenerator droughtTrainer))%Z).
  { unfold droughtTrainer, MatchGenerator.setTargetRate,
      DifficultyController.getMatchRate.
    cbn [WorkingMemoryTrainer.matchGenerator
         WorkingMemoryTrainer.difficultyController MatchGenerator.maxGap
         MatchGenerator.trialsSinceLastMatch DifficultyController.matchRate
         DifficultyController.new].
    rewrite Rmin_right by lra. rewrite Rmax_right by lra.
    rewrite (Math_round_between (1 / 0.30) 3) by lra. lia. }
  assert (Hlong :
    (WorkingMemoryState.n
       (ColorSequenceGenerator.getMemoryState
          (WorkingMemoryTrainer.colorGenerator droughtTrainer))
     <= length (WorkingMemoryState.recentColors
                  (ColorSequenceGenerator.getMemoryState
                     (WorkingMemoryTrainer.colorGenerator droughtTrainer))))%nat)
    by (cbn; lia).
  assert (Htruthy :
    truthy (MatchGenerator.getNBackColor
              (ColorSequenceGenerator.getMemoryState
                 (WorkingMemoryTrainer.colorGenerator droughtTrainer)))
    = true) by reflexivity.
  destruct (drought_forces_match droughtTrainer zeroDraws Hdraws Hgap Hlong
              Htruthy) as [Hmatch _].
  exact Hmatch.
Defined.

(** ** The facade: responses, stops and persistence *)

(** X19. [onUserResponse] fails with "No current tile", leaving the engine
    as it was, on a new engine and right after [reset] or [warmStart]; it
    returns a result once [generateNextTile] has produced a tile. *)
Theorem onUserResponse_needs_tile
    (e : NBackEngine.t) (userClicked wasMatch : bool) (reactionTime : R)
    (startN : option nat) (colors : option (list paletteColor))
    (strategic : option Strategic) (recency : option Recency) (k : rng) :
  NBackEngine.onUserResponse (NBackEngine.new startN colors) userClicked
    wasMatch reactionTime
  = (None, NBackEngine.new startN colors)
  /\ NBackEngine.onUserResponse (NBackEngine.reset e) userClicked wasMatch
       reactionTime
     = (None, NBackEngine.reset e)
  /\ NBackEngine.onUserResponse (NBackEngine.warmStart e strategic recency)
       userClicked wasMatch reactionTime
     = (None, NBackEngine.warmStart e strategic recency)
  /\ NBackEngine.isSome (fst (NBackEngine.onUserResponse
                      (snd (fst (NBackEngine.generateNextTile e k)))
                      userClicked wasMatch reactionTime)) = true.
Proof.
  repeat split.
  unfold NBackEngine.generateNextTile, bind, ret.
  destruct (WorkingMemoryTrainer.generateNextTrial _ k) as [[tile tr] k1].
  cbn [fst snd]. unfold NBackEngine.onUserResponse.
  cbn [NBackEngine.currentTile].
  destruct (WorkingMemoryTrainer.recordResponse _ _ _ _) as [result tr'].
  reflexivity.
Qed.

(** X20. [shouldStopSession] answers true at most once per stop: called a
    second time right after any call it answers false, and neither call
    touches the ability model.  When it answers true the stopper is back
    in its initial state. *)
Theorem shouldStopSession_fires_once (e : NBackEngine.t) :
  let first := NBackEngine.shouldStopSession e in
  let second := NBackEngine.shouldStopSession (snd first) in
  fst second = false
  /\ WorkingMemoryTrainer.abilityModel (NBackEngine.trainer (snd second))
     = WorkingMemoryTrainer.abilityModel (NBackEngine.trainer e)
  /\ (fst first = true ->
      WorkingMemoryTrainer.sprtStopper (NBackEngine.trainer (snd first))
      = SPRTStopper.new).
Proof.
  cbn zeta.
  assert (Hfirst :
    NBackEngine.shouldStopSession e
    = if SPRTStopper.shouldStop
           (WorkingMemoryTrainer.sprtStopper (NBackEngine.trainer e))
      then (true, NBackEngine.onPoorPerformanceStop e) else (false, e)).
  { unfold NBackEngine.shouldStopSession. destruct (SPRTStopper.shouldStop _);
      reflexivity. }
  rewrite Hfirst.
  destruct (SPRTStopper.shouldStop
              (WorkingMemoryTrainer.sprtStopper (NBackEngine.trainer e)))
    eqn:Hstop; cbn [fst snd].
  - repeat split.
  - rewrite Hfirst. rewrite ?Hstop. repeat split. discriminate.
Qed.

(** X21. Persistence round trip on every persisted field: warm-starting
    any engine from the [strategic] and [recency] objects of a saved
    profile and saving again yields the same two objects, and warm-starting
    twice from the same profile is the same as once. *)
Theorem toJSON_warmStart_toJSON
    (e target : NBackEngine.t) (now later : R) :
  let saved := NBackEngine.toJSON e now in
  let restore := fun e0 =>
    NBackEngine.warmStart e0 (Some (NBackEngine.j_strategic saved))
      (Some (NBackEngine.j_recency saved)) in
  NBackEngine.j_strategic (NBackEngine.toJSON (restore target) later)
  = NBackEngine.j_strategic saved
  /\ NBackEngine.j_recency (NBackEngine.toJSON (restore target) later)
     = NBackEngine.j_recency saved
  /\ restore (restore target) = restore target.
Proof. cbn. repeat split. Qed.

(** ** Valid responses *)

Lemma isValidTrial_iff (reactionTime : R) :
  WorkingMemoryTrainer.isValidTrial reactionTime = true
  <-> 150 <= reactionTime <= 5000.
Proof.
  unfold WorkingMemoryTrainer.isValidTrial, Rgtb, Rltb.
  destruct (Rlt_dec reactionTime 150); [split; [discriminate | lra] |].
  destruct (Rlt_dec 5000 reactionTime); split;
    try discriminate; try reflexivity; lra.
Qed.

(** X22. A response whose reaction time is from 150 ms to 5000 ms, both
    ends included, is valid: it is counted once by the ability model and
    once by the stopper, [lastTrialCorrect] records whether the click
    agreed with the match, and the colour generator, the match generator
    and the trial number are left alone. *)
Theorem recordResponse_valid_counts_once
    (tr : WorkingMemoryTrainer.t) (userClicked wasMatch : bool)
    (reactionTime : R) :
  150 <= reactionTime <= 5000 ->
  let result := fst (WorkingMemoryTrainer.recordResponse tr userClicked
                       wasMatch reactionTime) in
  let tr' := snd (WorkingMemoryTrainer.recordResponse tr userClicked
                    wasMatch reactionTime) in
  WorkingMemoryTrainer.r_isValid result = true
  /\ WorkingMemoryTrainer.r_correct result = Bool.eqb userClicked wasMatch
  /\ WorkingMemoryTrainer.lastTrialCorrect tr'
     = Bool.eqb userClicked wasMatch
  /\ AbilityModel.totalTrials (WorkingMemoryTrainer.abilityModel tr')
     = (AbilityModel.totalTrials (WorkingMemoryTrainer.abilityModel tr)
        + 1)%Z
  /\ SPRTStopper.trialsRecorded (WorkingMemoryTrainer.sprtStopper tr')
     = (SPRTStopper.trialsRecorded (WorkingMemoryTrainer.sprtStopper tr)
        + 1)%Z
  /\ WorkingMemoryTrainer.colorGenerator tr'
     = WorkingMemoryTrainer.colorGenerator tr
  /\ WorkingMemoryTrainer.matchGenerator tr'
     = WorkingMemoryTrainer.matchGenerator tr
  /\ WorkingMemoryTrainer.trialNumber tr'
     = WorkingMemoryTrainer.trialNumber tr.
Proof.
  intros Hrt. apply isValidTrial_iff in Hrt.
  unfold WorkingMemoryTrainer.recordResponse. rewrite Hrt.
  cbn [fst snd WorkingMemoryTrainer.r_isValid WorkingMemoryTrainer.r_correct
       WorkingMemoryTrainer.lastTrialCorrect WorkingMemoryTrainer.abilityModel
       WorkingMemoryTrainer.sprtStopper WorkingMemoryTrainer.colorGenerator
       WorkingMemoryTrainer.matchGenerator WorkingMemoryTrainer.trialNumber].
  repeat split.
  destruct (recordTrial_states (WorkingMemoryTrainer.sprtStopper tr)
              (Bool.eqb userClicked wasMatch) wasMatch)
    as [[_ ->] | [[_ ->] | [_ ->]]]; reflexivity.
Qed.

Lemma recordResponse_valid_counts_once_witness :
  WorkingMemoryTrainer.r_isValid
    (fst (WorkingMemoryTrainer.recordResponse
            (WorkingMemoryTrainer.new 2 palette) true false 150)) = true.
Proof.
  assert (Hrt : 150 <= 150 <= 5000) by lra.
  destruct (recordResponse_valid_counts_once
              (WorkingMemoryTrainer.new 2 palette) true false 150 Hrt)
    as [Hvalid _].
  exact Hvalid.
Defined.

(** ** Presentation timing *)

Lemma generateNextTrial_keeps_controller (tr : WorkingMemoryTrainer.t)
    (k : rng) :
  WorkingMemoryTrainer.difficultyController
    (snd (fst (WorkingMemoryTrainer.generateNextTrial tr k)))
  = WorkingMemoryTrainer.difficultyController tr.
Proof.
  unfold WorkingMemoryTrainer.generateNextTrial, bind.
  destruct (MatchGenerator.shouldCreateMatch _ _ k) as [decision k1].
  destruct (ColorSequenceGenerator.generateNextColor _ _ _ _ _ _ k1)
    as [generated k2].
  destruct (WorkingMemoryTrainer.generatePosition tr k2) as [position k3].
  reflexivity.
Qed.

Lemma speed_values (d : DifficultyController.t) (a : AbilityModel.t) :
  DifficultyController.stimulusInterval (DifficultyController.update d a)
  = 0.95
  \/ DifficultyController.stimulusInterval (DifficultyController.update d a)
     = 1.0
  \/ DifficultyController.stimulusInterval (DifficultyController.update d a)
     = 1.05.
Proof.
  unfold DifficultyController.update.
  destruct (DifficultyController.stepHold d _) as [[c p] n].
  cbn [DifficultyController.stimulusInterval].
  destruct (Rgtb _ 0.6 && Rltb _ 0.3); [left; reflexivity |].
  destruct (Rgtb _ 0.6); [right; right | right; left]; reflexivity.
Qed.

Lemma step_speedOk (e : NBackEngine.t) (o : NBackEngine.op) (k : rng) :
  speedOk e -> speedOk (fst (NBackEngine.step e o k)).
Proof.
  intros Hok. unfold speedOk, stimulusIntervalOf in *.
  destruct o as [| userClicked wasMatch reactionTime | | positions | | |
                 trials threshold | | | strategic recency | now];
    cbn [NBackEngine.step]; unfold ret, bind; cbn [fst]; try assumption.
  - unfold NBackEngine.generateNextTile, bind, ret.
    pose proof (generateNextTrial_keeps_controller (NBackEngine.trainer e) k)
      as Hkeep.
    destruct (WorkingMemoryTrainer.generateNextTrial _ k) as [[tile tr] k1].
    cbn in *. rewrite Hkeep. assumption.
  - unfold NBackEngine.onUserResponse.
    destruct (NBackEngine.currentTile e) as [tile |]; [| assumption].
    unfold WorkingMemoryTrainer.recordResponse.
    destruct (WorkingMemoryTrainer.isValidTrial reactionTime);
      [| assumption].
    cbn. apply speed_values.
  - unfold NBackEngine.shouldStopSession.
    destruct (negb _); assumption.
  - unfold NBackEngine.shouldStopForErrors.
    destruct (_ <? _)%Z; [assumption |].
    destruct (_ >=? _)%Z; assumption.
  - cbn. right; left; reflexivity.
Qed.

Lemma run_speedOk (ops : list NBackEngine.op) (e : NBackEngine.t) (k : rng) :
  speedOk e -> speedOk (fst (NBackEngine.run e ops k)).
Proof.
  revert e k. induction ops as [| o ops IH]; intros e k Hok;
    [assumption |].
  cbn [NBackEngine.run]. unfold bind.
  pose proof (step_speedOk e o k Hok) as Hstep.
  destruct (NBackEngine.step e o k) as [e' k']. apply IH. assumption.
Qed.

(** X23. Whatever public operations were performed on an engine since it
    was constructed (warm starts with arbitrary profiles included), the
    application's interval between stimuli is 2375, 2500 or 2625 ms and
    its display time 475, 500 or 525 ms; before an engine exists they are
    2500 and 500. *)
Theorem presentation_times
    (startN : option nat) (colors : option (list paletteColor))
    (ops : list NBackEngine.op) (k : rng) :
  let e := fst (NBackEngine.run (NBackEngine.new startN colors) ops k) in
  (getAdaptiveInterval (Some e) = 2375 \/ getAdaptiveInterval (Some e) = 2500
   \/ getAdaptiveInterval (Some e) = 2625)
  /\ (getAdaptiveDisplayTime (Some e) = 475
      \/ getAdaptiveDisplayTime (Some e) = 500
      \/ getAdaptiveDisplayTime (Some e) = 525)
  /\ getAdaptiveInterval None = 2500
  /\ getAdaptiveDisplayTime None = 500.
Proof.
  intros e.
  assert (Hok : speedOk e).
  { apply run_speedOk. right; left. reflexivity. }
  unfold getAdaptiveInterval, getAdaptiveDisplayTime, adaptiveFactor,
    INTERVAL_TIME, DISPLAY_TIME.
  change (NBackEngine.s_stimulusInterval (NBackEngine.getStats e))
    with (stimulusIntervalOf e).
  unfold numberOr, Reqb. unfold speedOk in Hok.
  destruct (Req_dec_T (stimulusIntervalOf e) 0) as [Hz | _]; [lra |].
  repeat split; lra.
Qed.

(** ** Every emitted colour is a palette name *)

Lemma incl_js_set (l : list jsval) : incl (js_set l) l.
Proof.
  intros x H. unfold js_set in H.
  apply in_rev in H. apply nodup_In in H. apply in_rev in H. assumption.
Qed.

Lemma js_set_nonempty (l : list jsval) : l <> [] -> js_set l <> [].
Proof.
  intros Hl Hset. pose proof (set_size_pos l) as H.
  unfold set_size in H. rewrite Hset in H.
  destruct l; [apply Hl; reflexivity | cbn in H; lia].
Qed.

Lemma incl_slice_last {A} (k : nat) (l : list A) : incl (slice_last k l) l.
Proof.
  intros x H. unfold slice_last in H.
  rewrite <- (firstn_skipn (length l - k) l). apply in_or_app. right.
  assumption.
Qed.

Lemma incl_slice_first {A} (k : nat) (l : list A) : incl (slice_first k l) l.
Proof.
  intros x H. unfold slice_first in H.
  rewrite <- (firstn_skipn k l). apply in_or_app. left. assumption.
Qed.

Lemma incl_removeIndex (arr : list jsval) (i : Z) :
  incl (ColorSequenceGenerator.removeIndex arr i) arr.
Proof.
  intros x H. unfold ColorSequenceGenerator.removeIndex in H.
  apply in_map_iff in H. destruct H as ([j y] & <- & Hin).
  apply filter_In in Hin. destruct Hin as [Hin _].
  apply in_combine_r in Hin. assumption.
Qed.

Lemma incl_withoutExcluded (active : list jsval) (excludeColor : jsval) :
  incl (ColorSequenceGenerator.withoutExcluded active excludeColor) active.
Proof.
  unfold ColorSequenceGenerator.withoutExcluded.
  destruct (truthy excludeColor); [apply incl_filter | apply incl_refl].
Qed.

Lemma js_index_In (arr : list jsval) :
  arr <> [] -> In (js_index arr 0) arr.
Proof.
  intros Hne. unfold js_index. cbn.
  destruct arr as [| x arr]; [contradiction | left; reflexivity].
Qed.

Lemma forceRepair_palette (g : ColorSequenceGenerator.t) (w : list jsval)
    (target : Z) (k : rng) :
  drawsInRange k -> namesOf g <> [] -> incl w (namesOf g) ->
  (0 < target)%Z ->
  In (fst (ColorSequenceGenerator.forceRepair g w target k)) (namesOf g).
Proof.
  intros Hdraws HN Hw Htarget. unfold ColorSequenceGenerator.forceRepair.
  set (S := js_set (slice_last (ColorSequenceGenerator.n g + 1) w)).
  set (available := filter _ _).
  assert (HS : incl S (namesOf g)).
  { intros x Hx. apply Hw.
    apply (incl_slice_last (ColorSequenceGenerator.n g + 1) w x).
    apply incl_js_set. assumption. }
  destruct (Z.ltb_spec (Z.of_nat (length S)) target) as [Hunder | Hfull];
    destruct (Nat.ltb_spec 0 (length available)) as [Hsome | Hnone];
    cbn [andb].
  - pose proof (pickRandom_In available k Hdraws Hsome) as Hin.
    apply filter_In in Hin. apply Hin.
  - unfold ret. cbn [fst]. apply HS. apply js_index_In. intros HSnil.
    assert (Hall : available = namesOf g).
    { unfold available. fold (namesOf g). rewrite HSnil.
      apply forallb_filter_id. apply forallb_forall. reflexivity. }
    rewrite Hall in Hnone. destruct (namesOf g); [contradiction |].
    cbn in Hnone. lia.
  - unfold ret. cbn [fst]. apply HS. apply js_index_In. intros HSnil.
    rewrite HSnil in Hfull. cbn in Hfull. lia.
  - unfold ret. cbn [fst]. apply HS. apply js_index_In. intros HSnil.
    rewrite HSnil in Hfull. cbn in Hfull. lia.
Qed.

Lemma pickNext_palette (g : ColorSequenceGenerator.t)
    (w candidates : list jsval) (target : Z) (k : rng) :
  drawsInRange k -> namesOf g <> [] -> incl w (namesOf g) ->
  incl candidates (namesOf g) -> (0 < target)%Z ->
  In (fst (ColorSequenceGenerator.pickNextWithConstraint g w candidates
             target k)) (namesOf g).
Proof.
  intros Hdraws HN Hw Hc Htarget.
  unfold ColorSequenceGenerator.pickNextWithConstraint.
  destruct (Nat.ltb_spec 0 (length (filter
              (fun c0 => ColorSequenceGenerator.isValidNextColor g w c0 target)
              candidates))) as [Hsome | Hnone].
  - pose proof (pickRandom_In _ k Hdraws Hsome) as Hin.
    apply filter_In in Hin. apply Hc. apply Hin.
  - apply forceRepair_palette; assumption.
Qed.

Lemma incl_freshCandidates (g : ColorSequenceGenerator.t) (w : list jsval)
    (excludeColor : jsval) :
  incl (ColorSequenceGenerator.freshCandidates g w excludeColor) (namesOf g).
Proof. apply incl_filter. Qed.

(** On an empty window every palette name is a fresh candidate, unless it
    is the excluded colour. *)
Lemma freshCandidates_empty_window (g : ColorSequenceGenerator.t)
    (excludeColor : jsval) :
  ~ In excludeColor (namesOf g) ->
  ColorSequenceGenerator.freshCandidates g [] excludeColor = namesOf g.
Proof.
  intros Hex. unfold ColorSequenceGenerator.freshCandidates.
  fold (namesOf g). apply forallb_filter_id. apply forallb_forall.
  intros c Hc. cbn. unfold js_eqb.
  destruct (jsval_eq_dec c excludeColor) as [-> | _]; [contradiction |].
  reflexivity.
Qed.

Lemma generateForMinLoad_palette (g : ColorSequenceGenerator.t)
    (w : list jsval) (excludeColor : jsval) (target : Z) (k : rng) :
  drawsInRange k -> namesOf g <> [] -> incl w (namesOf g) ->
  incl (ColorSequenceGenerator.activeOrEmpty g) (namesOf g) ->
  (0 < target)%Z ->
  (w = [] -> ~ In excludeColor (namesOf g)) ->
  paletteOut g (fst (ColorSequenceGenerator.generateForMinLoad g w
                       excludeColor target k)).
Proof.
  intros Hdraws HN Hw Hact Htarget Hex.
  unfold paletteOut, ColorSequenceGenerator.generateForMinLoad.
  destruct ((length (js_set w) <? 2)%nat
            && (0 <? length (ColorSequenceGenerator.freshCandidates g w
                               excludeColor))%nat) eqn:Hbranch.
  - unfold bind, ret.
    pose proof (pickNext_palette g w
                  (ColorSequenceGenerator.freshCandidates g w excludeColor)
                  target k Hdraws HN Hw (incl_freshCandidates g w excludeColor)
                  Htarget) as Hpick.
    destruct (ColorSequenceGenerator.pickNextWithConstraint g w _ target k)
      as [c k1].
    cbn [fst snd] in *. split; [assumption |].
    split; [| apply sameSetting_setActiveSet].
    cbn [ColorSequenceGenerator.activeOrEmpty
         ColorSequenceGenerator.setActiveSet
         ColorSequenceGenerator.activeSet].
    destruct (length (js_set w) =? 1)%nat eqn:Hone.
    + intros x [<- | [<- | []]]; [| assumption].
      apply Hw. apply incl_js_set. apply js_index_In.
      intros Hnil. rewrite Hnil in Hone. discriminate.
    + intros x [<- | []]. assumption.
  - assert (Hwne : w <> []).
    { intros ->. rewrite freshCandidates_empty_window in Hbranch
        by (apply Hex; reflexivity).
      cbn in Hbranch. destruct (namesOf g); [contradiction | discriminate]. }
    set (g1 := if ColorSequenceGenerator.activeSetStale g 2 then _ else g).
    assert (Hsame : sameSetting g g1).
    { unfold g1. destruct (ColorSequenceGenerator.activeSetStale g 2);
        [apply sameSetting_setActiveSet | apply sameSetting_refl]. }
    assert (Hnames : namesOf g1 = namesOf g).
    { unfold g1. destruct (ColorSequenceGenerator.activeSetStale g 2);
        reflexivity. }
    set (active := ColorSequenceGenerator.activeOrEmpty g1).
    assert (Hactive : incl active (namesOf g) /\ active <> []).
    { unfold active, g1, ColorSequenceGenerator.activeSetStale,
        ColorSequenceGenerator.activeOrEmpty in *.
      pose proof (js_set_nonempty w Hwne) as Hset.
      assert (Hfirst : incl (slice_first 2 (js_set w)) (namesOf g)
                       /\ slice_first 2 (js_set w) <> []).
      { split.
        - intros x Hx. apply Hw. apply incl_js_set.
          apply (incl_slice_first 2 (js_set w) x). assumption.
        - destruct (js_set w); [contradiction | discriminate]. }
      destruct (ColorSequenceGenerator.activeSet g) as [s |] eqn:Hs;
        [| exact Hfirst].
      destruct (Z.eqb_spec (Z.of_nat (length s)) 2) as [Hlen | _];
        cbn [negb ColorSequenceGenerator.activeSet
             ColorSequenceGenerator.setActiveSet]; [| exact Hfirst].
      rewrite Hs. split; [assumption |].
      destruct s; [cbn in Hlen; lia | discriminate]. }
    destruct Hactive as [Hactive Hne].
    set (swapPool := filter (fun c => negb (js_includes active c)) _).
    set (replacements := filter _ swapPool).
    set (normalPool := ColorSequenceGenerator.withoutExcluded active _).
    unfold bind, Math_random, ret.
    assert (Hdraws1 : drawsInRange (mkRng (stream k) (S (pos k))))
      by (intros i; apply Hdraws).
    assert (Hdraws2 : drawsInRange (mkRng (stream k) (S (S (pos k)))))
      by (intros i; apply Hdraws).
    assert (Hnormal : forall k0, drawsInRange k0 ->
      let res := ColorSequenceGenerator.pickNextWithConstraint g1 w
                   normalPool target k0 in
      let out := fst (let '(c, k') := res in (c, g1, k')) in
      In (fst out) (namesOf g)
      /\ incl (ColorSequenceGenerator.activeOrEmpty (snd out)) (namesOf g)
      /\ sameSetting g (snd out)).
    { intros k0 Hk0 res.
      assert (Hpool : incl normalPool (namesOf g1)).
      { rewrite Hnames. intros x Hx. apply Hactive.
        apply (incl_withoutExcluded active excludeColor x). assumption. }
      pose proof (pickNext_palette g1 w normalPool target k0 Hk0
                    ltac:(rewrite Hnames; assumption)
                    ltac:(rewrite Hnames; assumption) Hpool Htarget)
        as Hpick. fold res in Hpick. rewrite Hnames in Hpick.
      destruct res as [c k3]. cbn [fst snd] in *.
      split; [assumption | split; assumption]. }
    destruct (Rltb (stream k (pos k)) ColorSequenceGenerator.swapProbability);
      [| apply Hnormal; assumption].
    rewrite (surjective_pairing (pickRandom active _)), pickRandom_rng.
    cbn [stream pos].
    destruct (Nat.ltb_spec 0 (length swapPool)); cbn [andb];
      [| apply Hnormal; assumption].
    destruct (Nat.ltb_spec 0 (length replacements)) as [Hvalid | Hnone];
      [| apply Hnormal; assumption].
    pose proof (pickRandom_In replacements _ Hdraws2 Hvalid) as Hrep.
    assert (Hkeep : In (fst (pickRandom active
                               (mkRng (stream k) (S (pos k))))) active).
    { apply pickRandom_In; [assumption |].
      destruct active; [contradiction | cbn; lia]. }
    destruct (pickRandom replacements _) as [replacement k3].
    cbn [fst snd] in *.
    assert (Hrep' : In replacement (namesOf g)).
    { apply filter_In in Hrep. destruct Hrep as [Hrep _].
      apply filter_In in Hrep. destruct Hrep as [Hrep _].
      rewrite <- Hnames. exact Hrep. }
    split; [assumption |]. split.
    + cbn [ColorSequenceGenerator.activeOrEmpty
           ColorSequenceGenerator.setActiveSet
           ColorSequenceGenerator.activeSet].
      intros x [<- | [<- | []]]; [apply Hactive |]; assumption.
    + apply (sameSetting_trans g g1); [assumption |].
      apply sameSetting_setActiveSet.
Qed.

Lemma generateForMaxLoad_palette (g : ColorSequenceGenerator.t)
    (w : list jsval) (excludeColor : jsval) (target : Z) (k : rng) :
  drawsInRange k -> namesOf g <> [] -> incl w (namesOf g) ->
  incl (ColorSequenceGenerator.activeOrEmpty g) (namesOf g) ->
  (0 < target)%Z ->
  paletteOut g (fst (ColorSequenceGenerator.generateForMaxLoad g w
                       excludeColor target k)).
Proof.
  intros Hdraws HN Hw Hact Htarget.
  unfold paletteOut, ColorSequenceGenerator.generateForMaxLoad, bind, ret.
  pose proof (pickNext_palette g w
                (ColorSequenceGenerator.freshCandidates g w excludeColor)
                target k Hdraws HN Hw (incl_freshCandidates g w excludeColor)
                Htarget) as Hpick.
  destruct (ColorSequenceGenerator.pickNextWithConstraint g w _ target k)
    as [c k1].
  cbn [fst snd] in *.
  split; [assumption | split; [assumption | apply sameSetting_refl]].
Qed.

Lemma generateForMidLoad_palette (g : ColorSequenceGenerator.t)
    (w : list jsval) (excludeColor : jsval) (target : Z) (k : rng) :
  drawsInRange k -> namesOf g <> [] -> incl w (namesOf g) ->
  incl (ColorSequenceGenerator.activeOrEmpty g) (namesOf g) ->
  (0 < target)%Z ->
  paletteOut g (fst (ColorSequenceGenerator.generateForMidLoad g w
                       excludeColor target k)).
Proof.
  intros Hdraws HN Hw Hact Htarget.
  unfold paletteOut, ColorSequenceGenerator.generateForMidLoad.
  destruct (_ && _).
  - unfold bind, ret.
    pose proof (pickNext_palette g w
                  (ColorSequenceGenerator.freshCandidates g w excludeColor)
                  target k Hdraws HN Hw (incl_freshCandidates g w excludeColor)
                  Htarget) as Hpick.
    destruct (ColorSequenceGenerator.pickNextWithConstraint g w _ target k)
      as [c k1].
    cbn [fst snd] in *. split; [assumption |].
    split; [| apply sameSetting_setActiveSet].
    cbn [ColorSequenceGenerator.activeOrEmpty
         ColorSequenceGenerator.setActiveSet
         ColorSequenceGenerator.activeSet].
    unfold ColorSequenceGenerator.activeOrEmpty in Hact.
    destruct (ColorSequenceGenerator.activeSet g) as [s |].
    + intros x Hx.
      apply (incl_slice_first (Z.to_nat target) (js_set (s ++ [c])) x) in Hx.
      apply incl_js_set in Hx. apply in_app_or in Hx.
      destruct Hx as [Hx | [<- | []]]; [apply Hact |]; assumption.
    + intros x Hx. apply in_app_or in Hx.
      destruct Hx as [Hx | [<- | []]]; [| assumption].
      apply Hw. apply incl_js_set. assumption.
  - set (g1 := if ColorSequenceGenerator.activeSetStale g target then _
               else g).
    assert (Hsame : sameSetting g g1).
    { unfold g1. destruct (ColorSequenceGenerator.activeSetStale g target);
        [apply sameSetting_setActiveSet | apply sameSetting_refl]. }
    assert (Hnames : namesOf g1 = namesOf g).
    { unfold g1. destruct (ColorSequenceGenerator.activeSetStale g target);
        reflexivity. }
    set (active := ColorSequenceGenerator.activeOrEmpty g1).
    assert (Hactive : incl active (namesOf g)).
    { unfold active, g1.
      destruct (ColorSequenceGenerator.activeSetStale g target);
        [| assumption].
      cbn [ColorSequenceGenerator.activeOrEmpty
           ColorSequenceGenerator.setActiveSet
           ColorSequenceGenerator.activeSet].
      intros x Hx. apply Hw. apply incl_js_set.
      apply (incl_slice_first (Z.to_nat target) (js_set w) x). assumption. }
    set (swapPool := filter (fun c => negb (js_includes active c)) _).
    set (replacements := filter _ swapPool).
    set (normalPool := ColorSequenceGenerator.withoutExcluded active _).
    unfold bind, Math_random, ret.
    assert (Hdraws1 : drawsInRange (mkRng (stream k) (S (pos k))))
      by (intros i; apply Hdraws).
    assert (Hdraws2 : drawsInRange (mkRng (stream k) (S (S (pos k)))))
      by (intros i; apply Hdraws).
    assert (Hnormal : forall k0, drawsInRange k0 ->
      let res := ColorSequenceGenerator.pickNextWithConstraint g1 w
                   normalPool target k0 in
      let out := fst (let '(c, k') := res in (c, g1, k')) in
      In (fst out) (namesOf g)
      /\ incl (ColorSequenceGenerator.activeOrEmpty (snd out)) (namesOf g)
      /\ sameSetting g (snd out)).
    { intros k0 Hk0 res.
      assert (Hpool : incl normalPool (namesOf g1)).
      { rewrite Hnames. intros x Hx. apply Hactive.
        apply (incl_withoutExcluded active excludeColor x). assumption. }
      pose proof (pickNext_palette g1 w normalPool target k0 Hk0
                    ltac:(rewrite Hnames; assumption)
                    ltac:(rewrite Hnames; assumption) Hpool Htarget)
        as Hpick. fold res in Hpick. rewrite Hnames in Hpick.
      destruct res as [c k3]. cbn [fst snd] in *.
      split; [assumption | split; assumption]. }
    destruct (Rltb (stream k (pos k)) ColorSequenceGenerator.swapProbability);
      [| apply Hnormal; assumption].
    cbn [stream pos].
    destruct (Nat.ltb_spec 0 (length swapPool)); cbn [andb];
      [| apply Hnormal; assumption].
    destruct (Nat.ltb_spec 0 (length replacements)) as [Hvalid | Hnone];
      [| apply Hnormal; assumption].
    pose proof (pickRandom_In replacements _ Hdraws2 Hvalid) as Hrep.
    destruct (pickRandom replacements _) as [replacement k3].
    cbn [fst snd] in *.
    assert (Hrep' : In replacement (namesOf g)).
    { apply filter_In in Hrep. destruct Hrep as [Hrep _].
      apply filter_In in Hrep. destruct Hrep as [Hrep _].
      rewrite <- Hnames. exact Hrep. }
    split; [assumption |]. split.
    + cbn [ColorSequenceGenerator.activeOrEmpty
           ColorSequenceGenerator.setActiveSet
           ColorSequenceGenerator.activeSet].
      intros x Hx. apply in_app_or in Hx.
      destruct Hx as [Hx | [<- | []]]; [| assumption].
      apply Hactive. revert Hx. apply incl_removeIndex.
    + apply (sameSetting_trans g g1); [assumption |].
      apply sameSetting_setActiveSet.
Qed.

Lemma generateByRegime_palette (g : ColorSequenceGenerator.t)
    (w : list jsval) (excludeColor : jsval) (target : Z) (k : rng) :
  drawsInRange k -> namesOf g <> [] -> incl w (namesOf g) ->
  incl (ColorSequenceGenerator.activeOrEmpty g) (namesOf g) ->
  (0 < target)%Z ->
  (w = [] -> ~ In excludeColor (namesOf g)) ->
  paletteOut g (fst (ColorSequenceGenerator.generateByRegime g w
                       excludeColor target k)).
Proof.
  intros Hdraws HN Hw Hact Htarget Hex.
  unfold ColorSequenceGenerator.generateByRegime.
  destruct (target =? 2)%Z;
    [apply generateForMinLoad_palette; assumption |].
  destruct (target =? _)%Z;
    [apply generateForMaxLoad_palette | apply generateForMidLoad_palette];
    assumption.
Qed.

Lemma last_In (l : list jsval) (d : jsval) : l <> [] -> In (last l d) l.
Proof.
  intros Hl. rewrite (app_removelast_last d Hl) at 2.
  apply in_or_app. right. left. reflexivity.
Qed.

Lemma generateNonMatch_palette (g : ColorSequenceGenerator.t)
    (w : list jsval) (excludeColor : jsval) (target : Z) (tse : R) (k : rng) :
  drawsInRange k -> namesOf g <> [] -> incl w (namesOf g) ->
  incl (ColorSequenceGenerator.activeOrEmpty g) (namesOf g) ->
  (0 < target)%Z ->
  (w = [] -> ~ In excludeColor (namesOf g)) ->
  paletteOut g (fst (ColorSequenceGenerator.generateNonMatch g w
                       excludeColor target tse k)).
Proof.
  intros Hdraws HN Hw Hact Htarget Hex.
  unfold ColorSequenceGenerator.generateNonMatch.
  destruct (Nat.ltb_spec 0 (length w)) as [Hlen | Hlen];
    [| rewrite andb_false_r; apply generateByRegime_palette; assumption].
  destruct (_ && _); [| apply generateByRegime_palette; assumption].
  unfold bind, Math_random, ret.
  assert (Hdraws1 : drawsInRange (mkRng (stream k) (S (pos k))))
    by (intros i; apply Hdraws).
  destruct (Rltb _ _); cbn [andb];
    [| apply generateByRegime_palette; assumption].
  destruct (ColorSequenceGenerator.isValidNextColor g w _ target);
    [| apply generateByRegime_palette; assumption].
  unfold paletteOut. cbn [fst snd].
  split; [| split; [assumption | apply sameSetting_refl]].
  apply Hw. apply last_In. destruct w; [cbn in Hlen; lia | discriminate].
Qed.

Lemma names_are_strings (p : list paletteColor) (c : jsval) :
  In c (colorNames p) -> exists s, c = JStr s.
Proof.
  intros H. apply in_map_iff in H. destruct H as (x & <- & _).
  eexists. reflexivity.
Qed.

Lemma incl_addColor (m : WorkingMemoryState.t) (c : jsval) :
  incl (WorkingMemoryState.recentColors (WorkingMemoryState.addColor m c))
       (WorkingMemoryState.recentColors m ++ [c]).
Proof.
  unfold WorkingMemoryState.addColor, push, shift.
  cbn [WorkingMemoryState.recentColors].
  destruct (_ <? _)%nat; [| apply incl_refl].
  destruct (WorkingMemoryState.recentColors m ++ [c]);
    [apply incl_refl | apply incl_tl, incl_refl].
Qed.

(** One call of [generateNextColor] followed by the insertion of the
    colour. *)
Lemma generateNextColor_palette (g : ColorSequenceGenerator.t)
    (targetUniqueColors : Z) (shouldMatch : bool) (nBackColor : jsval)
    (isForced : bool) (tse : R) (k : rng) :
  drawsInRange k -> fromPalette g ->
  (truthy nBackColor = true -> In nBackColor (namesOf g)) ->
  (WorkingMemoryState.recentColors (ColorSequenceGenerator.memoryState g)
   = [] -> ~ In nBackColor (namesOf g)) ->
  let out := fst (ColorSequenceGenerator.generateNextColor g
                    targetUniqueColors shouldMatch nBackColor isForced tse
                    k) in
  let g' := ColorSequenceGenerator.updateMemoryState (snd out) (fst out) in
  In (fst out) (namesOf g)
  /\ fromPalette g'
  /\ ColorSequenceGenerator.availableColors g'
     = ColorSequenceGenerator.availableColors g
  /\ ColorSequenceGenerator.n g' = ColorSequenceGenerator.n g.
Proof.
  intros Hdraws (HN & Hw & Hact) Htruthy Hempty out g'.
  set (w := WorkingMemoryState.recentColors
              (ColorSequenceGenerator.memoryState g)) in *.
  set (target := Z.max 2 targetUniqueColors).
  set (g0 := ColorSequenceGenerator.mk (ColorSequenceGenerator.n g)
               (ColorSequenceGenerator.availableColors g)
               (ColorSequenceGenerator.memoryState g)
               (if match ColorSequenceGenerator.lastTarget g with
                   | Some l => negb (l =? target)%Z
                   | None => false
                   end
                then None else ColorSequenceGenerator.activeSet g)
               (Some target)).
  assert (Hact0 : incl (ColorSequenceGenerator.activeOrEmpty g0) (namesOf g)).
  { unfold g0, ColorSequenceGenerator.activeOrEmpty.
    cbn [ColorSequenceGenerator.activeSet].
    destruct (match ColorSequenceGenerator.lastTarget g with
              | Some l => negb (l =? target)%Z
              | None => false
              end); [intros x [] | exact Hact]. }
  assert (Htarget : (0 < target)%Z) by (unfold target; lia).
  assert (Hnull : ~ In JNull (namesOf g)).
  { intros H. apply names_are_strings in H. destruct H as [s H].
    discriminate. }
  assert (Hout : paletteOut g0 out).
  { unfold out, ColorSequenceGenerator.generateNextColor.
    fold w. fold target. fold g0.
    assert (Hnon : paletteOut g0
                     (fst (ColorSequenceGenerator.generateNonMatch g0 w
                             (if negb shouldMatch then nBackColor else JNull)
                             target tse k))).
    { apply generateNonMatch_palette; try assumption.
      intros Hnil. destruct (negb shouldMatch); [apply Hempty |]; assumption. }
    assert (Hmatch : shouldMatch && truthy nBackColor = true ->
                     paletteOut g0 (nBackColor, g0)).
    { intros Hcond. apply andb_true_iff in Hcond. destruct Hcond as [_ Hcond].
      split; [apply Htruthy; assumption |].
      split; [assumption | apply sameSetting_refl]. }
    destruct (shouldMatch && truthy nBackColor); [| exact Hnon].
    destruct isForced; [apply Hmatch; reflexivity |].
    destruct (ColorSequenceGenerator.isValidMatchColor g0 w nBackColor
                target); [apply Hmatch; reflexivity | exact Hnon]. }
  destruct Hout as (Hcolor & Hactive & (Hn & Hcolors & Hmem)).
  change (namesOf g0) with (namesOf g) in *.
  split; [assumption |].
  unfold g', ColorSequenceGenerator.updateMemoryState.
  unfold fromPalette, namesOf.
  cbn [ColorSequenceGenerator.availableColors ColorSequenceGenerator.n
       ColorSequenceGenerator.memoryState
       ColorSequenceGenerator.activeOrEmpty
       ColorSequenceGenerator.activeSet].
  rewrite Hcolors, Hn, Hmem. cbn [ColorSequenceGenerator.availableColors
    ColorSequenceGenerator.n ColorSequenceGenerator.memoryState g0].
  fold (namesOf g).
  repeat split; try assumption.
  intros x Hx. apply incl_addColor in Hx. apply in_app_or in Hx.
  destruct Hx as [Hx | [<- | []]]; [apply Hw |]; assumption.
Qed.

Lemma shouldCreateMatch_draws (m : MatchGenerator.t)
    (memoryState : WorkingMemoryState.t) (k : rng) :
  drawsInRange k ->
  drawsInRange (snd (MatchGenerator.shouldCreateMatch m memoryState k)).
Proof.
  intros Hdraws. unfold MatchGenerator.shouldCreateMatch.
  destruct (_ <? _)%nat; [exact Hdraws |].
  destruct (MatchGenerator.matchProbability m) as [probability forced].
  unfold bind, Math_random, ret. cbn [snd]. intros i. apply Hdraws.
Qed.

Lemma getNBackColor_window (memoryState : WorkingMemoryState.t) :
  (truthy (MatchGenerator.getNBackColor memoryState) = true ->
   In (MatchGenerator.getNBackColor memoryState)
      (WorkingMemoryState.recentColors memoryState))
  /\ (WorkingMemoryState.recentColors memoryState = [] ->
      forall p : list paletteColor,
        ~ In (MatchGenerator.getNBackColor memoryState) (colorNames p)).
Proof.
  unfold MatchGenerator.getNBackColor. split.
  - destruct (_ <? _)%nat; [discriminate |].
    unfold js_index. destruct (_ <? 0)%Z; [discriminate |].
    set (i := Z.to_nat _).
    destruct (Nat.lt_ge_cases i
                (length (WorkingMemoryState.recentColors memoryState)))
      as [Hin | Hout].
    + intros _. apply nth_In. assumption.
    + rewrite nth_overflow by assumption. discriminate.
  - intros Hnil p Hin. rewrite Hnil in Hin.
    apply names_are_strings in Hin. destruct Hin as [s Hs].
    destruct (_ <? _)%nat; [discriminate |].
    unfold js_index in Hs. destruct (_ <? 0)%Z; [discriminate |].
    destruct (Z.to_nat _); discriminate.
Qed.

Lemma generateNextTrial_palette (tr : WorkingMemoryTrainer.t) (k : rng) :
  drawsInRange k ->
  fromPalette (WorkingMemoryTrainer.colorGenerator tr) ->
  let out := fst (WorkingMemoryTrainer.generateNextTrial tr k) in
  In (WorkingMemoryTrainer.tl_color (fst out))
     (namesOf (WorkingMemoryTrainer.colorGenerator tr))
  /\ fromPalette (WorkingMemoryTrainer.colorGenerator (snd out))
  /\ ColorSequenceGenerator.availableColors
       (WorkingMemoryTrainer.colorGenerator (snd out))
     = ColorSequenceGenerator.availableColors
         (WorkingMemoryTrainer.colorGenerator tr)
  /\ WorkingMemoryTrainer.colors (snd out) = WorkingMemoryTrainer.colors tr.
Proof.
  intros Hdraws Hfp out. unfold out, WorkingMemoryTrainer.generateNextTrial,
    bind, ColorSequenceGenerator.getMemoryState.
  set (cg := WorkingMemoryTrainer.colorGenerator tr) in *.
  pose proof (shouldCreateMatch_draws
                (MatchGenerator.setTargetRate
                   (WorkingMemoryTrainer.matchGenerator tr)
                   (DifficultyController.getMatchRate
                      (WorkingMemoryTrainer.difficultyController tr)))
                (ColorSequenceGenerator.memoryState cg) k Hdraws) as Hdraws1.
  destruct (MatchGenerator.shouldCreateMatch _ _ k) as [decision k1].
  cbn [snd] in Hdraws1.
  destruct (getNBackColor_window (ColorSequenceGenerator.memoryState cg))
    as [Htruthy Hempty].
  assert (Hfp' := Hfp). destruct Hfp' as (_ & Hw & _).
  pose proof (generateNextColor_palette cg
                (DifficultyController.getTargetUniqueColors
                   (WorkingMemoryTrainer.difficultyController tr))
                (MatchGenerator.shouldMatch decision)
                (MatchGenerator.getNBackColor
                   (ColorSequenceGenerator.memoryState cg))
                (MatchGenerator.isForced decision)
                (DifficultyController.tse
                   (WorkingMemoryTrainer.difficultyController tr))
                k1 Hdraws1 Hfp
                (fun H => Hw _ (Htruthy H))
                (fun H => Hempty H _)) as Hgen.
  destruct (ColorSequenceGenerator.generateNextColor _ _ _ _ _ _ k1)
    as [generated k2].
  destruct (WorkingMemoryTrainer.generatePosition tr k2) as [position k3].
  cbn [fst snd] in *. unfold ret.
  cbn [fst snd WorkingMemoryTrainer.tl_color
       WorkingMemoryTrainer.colorGenerator WorkingMemoryTrainer.colors].
  destruct Hgen as (Hcolor & Hfp2 & Hcolors & _).
  split; [assumption |]. split; [assumption |].
  split; [assumption | reflexivity].
Qed.

Lemma fromPalette_new (n : nat) (colors : list paletteColor) :
  colors <> [] -> fromPalette (ColorSequenceGenerator.new n colors).
Proof.
  intros Hne. unfold fromPalette, namesOf. cbn.
  repeat split; try (intros x []).
  destruct colors; [contradiction | discriminate].
Qed.

Lemma engineInv_step (colors : list paletteColor) (e : NBackEngine.t)
    (o : NBackEngine.op) (k : rng) :
  colors <> [] -> drawsInRange k -> engineInv colors e ->
  engineInv colors (fst (NBackEngine.step e o k)).
Proof.
  intros Hne Hdraws Hinv. assert (Hinv' := Hinv).
  destruct Hinv' as (Hcolors & Havail & Hfp).
  destruct o as [| userClicked wasMatch reactionTime | | positions | | |
                 trials threshold | | | strategic recency | now];
    cbn [NBackEngine.step]; unfold ret, bind; cbn [fst];
    try exact Hinv.
  - unfold NBackEngine.generateNextTile, bind, ret.
    pose proof (generateNextTrial_palette (NBackEngine.trainer e) k Hdraws
                  Hfp) as Hgen.
    destruct (WorkingMemoryTrainer.generateNextTrial _ k) as [[tile tr] k1].
    cbn [fst snd NBackEngine.trainer] in *.
    destruct Hgen as (_ & Hfp' & Havail' & Hcolors').
    unfold engineInv. cbn [NBackEngine.trainer].
    split; [congruence | split; [congruence | assumption]].
  - unfold NBackEngine.onUserResponse.
    destruct (NBackEngine.currentTile e) as [tile |]; [| exact Hinv].
    unfold WorkingMemoryTrainer.recordResponse.
    destruct (WorkingMemoryTrainer.isValidTrial reactionTime);
      exact Hinv.
  - unfold NBackEngine.shouldStopSession.
    destruct (negb _); exact Hinv.
  - unfold NBackEngine.shouldStopForErrors.
    destruct (_ <? _)%Z; [exact Hinv |].
    destruct (_ >=? _)%Z; exact Hinv.
  - unfold engineInv. cbn. rewrite Hcolors.
    split; [reflexivity | split; [reflexivity |]].
    apply fromPalette_new. assumption.
Qed.

(** X24. With a palette that is not empty, every tile that
    [generateNextTile] returns shows one of the palette's colour names and
    never [undefined] or [null]: on any engine reached from a new one by
    public operations, with draws in [0, 1). *)
Theorem tiles_show_palette_colors
    (startN : option nat) (colors : list paletteColor) (e : NBackEngine.t)
    (k : rng) :
  colors <> [] ->
  reachableFrom (NBackEngine.new startN (Some colors)) e ->
  drawsInRange k ->
  In (WorkingMemoryTrainer.tl_color (fst (fst (NBackEngine.generateNextTile e k))))
     (colorNames colors).
Proof.
  intros Hne Hreach Hdraws.
  assert (Hinv : engineInv colors e).
  { induction Hreach as [| e o k0 _ IH Hk0].
    - unfold engineInv. cbn.
      split; [reflexivity | split; [reflexivity |]].
      apply fromPalette_new. assumption.
    - apply engineInv_step; assumption. }
  destruct Hinv as (_ & Havail & Hfp).
  unfold NBackEngine.generateNextTile, bind, ret.
  pose proof (generateNextTrial_palette (NBackEngine.trainer e) k Hdraws Hfp)
    as Hgen.
  destruct (WorkingMemoryTrainer.generateNextTrial _ k) as [[tile tr] k1].
  cbn [fst snd] in *. destruct Hgen as (Hcolor & _).
  unfold namesOf in Hcolor. rewrite Havail in Hcolor. assumption.
Qed.

Lemma tiles_show_palette_colors_witness :
  In (WorkingMemoryTrainer.tl_color
        (fst (fst (NBackEngine.generateNextTile
                     (NBackEngine.new (Some 2%nat) (Some palette))
                     zeroDraws))))
     (colorNames palette).
Proof.
  apply (tiles_show_palette_colors (Some 2%nat) palette).
  - discriminate.
  - apply reach_start.
  - intros i. cbn. lra.
Defined.

(** ** The entropy of the window *)

Lemma occurrences_le (key : string) (window : list jsval) (count : nat) :
  ColorSequenceGenerator.occurrences key window = Some count ->
  (count <= length window)%nat.
Proof.
  unfold ColorSequenceGenerator.occurrences.
  destruct (ColorSequenceGenerator.inheritedKey key); [discriminate |].
  intros H. injection H as <-. apply filter_length_le.
Qed.

(** One term [-p * log2(p)] of the sum is not negative. *)
Lemma entropy_term_nonneg (p : R) : 0 < p <= 1 -> 0 <= - (p * (ln p / ln 2)).
Proof.
  intros [H0 H1].
  assert (H2 : 0 < ln 2) by (apply ln_pos; lra).
  assert (Hln : ln p <= 0).
  { destruct H1 as [H1 | ->]; [| rewrite ln_1; lra].
    apply Rlt_le. apply ln_neg. lra. }
  assert (Hinv : 0 < / ln 2) by (apply Rinv_0_lt_compat; assumption).
  assert (ln p / ln 2 <= 0) by (unfold Rdiv; nra).
  nra.
Qed.

(** The loop of [computeEntropy] from an accumulated value. *)
Lemma entropy_loop_nonneg (window : list jsval) (keys : list string)
    (acc : R) :
  window <> [] -> 0 <= acc ->
  0 <= fold_left
         (fun entropy key =>
            match ColorSequenceGenerator.occurrences key window with
            | Some count =>
              let p := INR count / INR (length window) in
              if Rgtb p 0 then entropy - p * (ln p / ln 2) else entropy
            | None => entropy
            end)
         keys acc.
Proof.
  intros Hne. revert acc. induction keys as [| key keys IH]; intros acc Hacc;
    [exact Hacc |].
  cbn [fold_left]. apply IH.
  destruct (ColorSequenceGenerator.occurrences key window) as [count |]
    eqn:Hcount; [| assumption].
  apply occurrences_le in Hcount.
  set (p := INR count / INR (length window)).
  cbn zeta. unfold Rgtb, Rltb. destruct (Rlt_dec 0 p) as [Hp | _];
    [| assumption].
  assert (Hlen : 0 < INR (length window)).
  { apply lt_0_INR. destruct window; [contradiction | cbn; lia]. }
  assert (Hp1 : p <= 1).
  { unfold p. apply div_le; [assumption |]. rewrite Rmult_1_l.
    apply le_INR. assumption. }
  pose proof (entropy_term_nonneg p (conj Hp Hp1)) as Hterm. lra.
Qed.

(** Keys whose entry is not a number leave the sum alone. *)
Lemma entropy_loop_skipped (window : list jsval) (keys : list string)
    (acc : R) :
  (forall key, In key keys ->
     ColorSequenceGenerator.occurrences key window = None) ->
  fold_left
    (fun entropy key =>
       match ColorSequenceGenerator.occurrences key window with
       | Some count =>
         let p := INR count / INR (length window) in
         if Rgtb p 0 then entropy - p * (ln p / ln 2) else entropy
       | None => entropy
       end)
    keys acc
  = acc.
Proof.
  revert acc. induction keys as [| key keys IH]; intros acc Hskip;
    [reflexivity |].
  cbn [fold_left]. rewrite (Hskip key) by (left; reflexivity).
  apply IH. intros key0 Hin. apply Hskip. right. assumption.
Qed.

Lemma countKeys_In (window : list jsval) (key : string) :
  In key (ColorSequenceGenerator.countKeys window) ->
  exists c, In c window /\ ColorSequenceGenerator.keyOf c = key.
Proof.
  unfold ColorSequenceGenerator.countKeys. intros Hin.
  apply in_rev in Hin. apply nodup_In in Hin. apply in_rev in Hin.
  apply in_map_iff in Hin. destruct Hin as (c & Hkey & Hc).
  exists c. split; assumption.
Qed.

Lemma countKeys_repeat (c : jsval) (k : nat) :
  ColorSequenceGenerator.countKeys (repeat c (S k))
  = [ColorSequenceGenerator.keyOf c].
Proof.
  unfold ColorSequenceGenerator.countKeys.
  assert (Hrev : forall (s : string) j, rev (repeat s j) = repeat s j).
  { intros s j. induction j as [| j IH]; [reflexivity |].
    cbn [repeat rev]. rewrite IH. symmetry. apply repeat_cons. }
  assert (Hnodup : forall (s : string) j,
            nodup string_dec (repeat s (S j)) = [s]).
  { intros s j. induction j as [| j IH]; [reflexivity |].
    change (repeat s (S (S j))) with (s :: repeat s (S j)).
    cbn [nodup].
    destruct (in_dec string_dec s (repeat s (S j))) as [_ | Hout];
      [assumption |].
    exfalso. apply Hout. left. reflexivity. }
  rewrite map_repeat, Hrev, Hnodup. reflexivity.
Qed.

(** X25. The window entropy reported in the statistics is never negative,
    and it is 0 for a window that repeats one colour.  Colour names that a
    plain object inherits from [Object.prototype] (such as "constructor")
    are not counted: a window of such names alone has entropy 0. *)
Theorem computeEntropy_values (window : list jsval) (c : jsval) (k : nat)
    (names : list string) :
  0 <= ColorSequenceGenerator.computeEntropy window
  /\ ColorSequenceGenerator.computeEntropy (repeat c k) = 0
  /\ (forallb ColorSequenceGenerator.inheritedKey names = true ->
      ColorSequenceGenerator.computeEntropy (map JStr names) = 0).
Proof.
  split; [| split].
  - unfold ColorSequenceGenerator.computeEntropy.
    destruct window as [| x window]; [lra |].
    apply entropy_loop_nonneg; [discriminate | lra].
  - destruct k as [| k]; [reflexivity |].
    unfold ColorSequenceGenerator.computeEntropy.
    change (repeat c (S k)) with (c :: repeat c k) at 1.
    cbv iota beta. rewrite countKeys_repeat. cbn [fold_left].
    unfold ColorSequenceGenerator.occurrences.
    destruct (ColorSequenceGenerator.inheritedKey
                (ColorSequenceGenerator.keyOf c)); [reflexivity |].
    assert (Hall : filter
              (fun c0 => String.eqb (ColorSequenceGenerator.keyOf c0)
                           (ColorSequenceGenerator.keyOf c))
              (repeat c (S k)) = repeat c (S k)).
    { induction (S k) as [| j IH]; [reflexivity |].
      cbn [repeat filter]. rewrite String.eqb_refl, IH. reflexivity. }
    rewrite Hall, repeat_length.
    assert (Hk : 0 < INR (S k)) by (apply lt_0_INR; lia).
    replace (INR (S k) / INR (S k)) with 1 by (field; lra).
    unfold Rgtb. rewrite Rltb_true by lra. rewrite ln_1. lra.
  - intros Hnames. unfold ColorSequenceGenerator.computeEntropy.
    destruct (map JStr names) as [| x rest] eqn:Hwindow; [reflexivity |].
    rewrite <- Hwindow. apply entropy_loop_skipped.
    intros key Hkey. apply countKeys_In in Hkey.
    destruct Hkey as (c0 & Hc0 & <-).
    apply in_map_iff in Hc0. destruct Hc0 as (name & <- & Hname).
    cbn [ColorSequenceGenerator.keyOf].
    unfold ColorSequenceGenerator.occurrences.
    rewrite forallb_forall in Hnames. rewrite (Hnames name Hname).
    reflexivity.
Qed.

(** ** Colours without any assumption on the palette or the draws *)

Lemma js_index_loose (N arr : list jsval) (i : Z) :
  Forall (nameOrUndefined N) arr -> nameOrUndefined N (js_index arr i).
Proof.
  intros Harr. unfold js_index.
  destruct (i <? 0)%Z; [right; reflexivity |].
  destruct (nth_in_or_default (Z.to_nat i) arr JUndefined) as [Hin | ->];
    [| right; reflexivity].
  rewrite Forall_forall in Harr. apply Harr. assumption.
Qed.

Lemma pickRandom_loose (N arr : list jsval) (k : rng) :
  Forall (nameOrUndefined N) arr -> nameOrUndefined N (fst (pickRandom arr k)).
Proof.
  intros Harr. unfold pickRandom, bind, Math_random, ret. cbn [fst].
  apply js_index_loose. assumption.
Qed.

Lemma Forall_incl (P : jsval -> Prop) (l l' : list jsval) :
  incl l l' -> Forall P l' -> Forall P l.
Proof.
  intros Hincl Hl'. rewrite Forall_forall in *. intros x Hx.
  apply Hl'. apply Hincl. assumption.
Qed.

Lemma names_loose (N l : list jsval) :
  incl l N -> Forall (nameOrUndefined N) l.
Proof.
  intros Hincl. apply Forall_forall. intros x Hx. left. apply Hincl.
  assumption.
Qed.

Lemma loose_single (N : list jsval) (a : jsval) :
  nameOrUndefined N a -> Forall (nameOrUndefined N) [a].
Proof. intros Ha. apply Forall_cons; [assumption | apply Forall_nil]. Qed.

Lemma loose_pair (N : list jsval) (a b : jsval) :
  nameOrUndefined N a -> nameOrUndefined N b ->
  Forall (nameOrUndefined N) [a; b].
Proof.
  intros Ha Hb. apply Forall_cons; [assumption | apply loose_single].
  assumption.
Qed.

Lemma forceRepair_loose (N : list jsval) (g : ColorSequenceGenerator.t)
    (w : list jsval) (target : Z) (k : rng) :
  incl (namesOf g) N -> Forall (nameOrUndefined N) w ->
  nameOrUndefined N (fst (ColorSequenceGenerator.forceRepair g w target k)).
Proof.
  intros HN Hw. unfold ColorSequenceGenerator.forceRepair.
  destruct (_ && _).
  - apply pickRandom_loose. apply names_loose.
    intros x Hx. apply HN. apply filter_In in Hx. apply Hx.
  - unfold ret. cbn [fst]. apply js_index_loose.
    apply (Forall_incl _ _ w); [| assumption].
    intros x Hx. apply incl_js_set in Hx.
    revert Hx. apply incl_slice_last.
Qed.

Lemma pickNext_loose (N : list jsval) (g : ColorSequenceGenerator.t)
    (w candidates : list jsval) (target : Z) (k : rng) :
  incl (namesOf g) N -> Forall (nameOrUndefined N) w ->
  Forall (nameOrUndefined N) candidates ->
  nameOrUndefined N
    (fst (ColorSequenceGenerator.pickNextWithConstraint g w candidates
            target k)).
Proof.
  intros HN Hw Hc. unfold ColorSequenceGenerator.pickNextWithConstraint.
  destruct (_ <? _)%nat.
  - apply pickRandom_loose.
    apply (Forall_incl _ _ candidates); [apply incl_filter | assumption].
  - apply forceRepair_loose; assumption.
Qed.

Lemma freshCandidates_loose (N : list jsval) (g : ColorSequenceGenerator.t)
    (w : list jsval) (excludeColor : jsval) :
  incl (namesOf g) N ->
  Forall (nameOrUndefined N)
         (ColorSequenceGenerator.freshCandidates g w excludeColor).
Proof.
  intros HN. apply names_loose. intros x Hx. apply HN.
  revert Hx. apply incl_freshCandidates.
Qed.

Lemma generateForMinLoad_loose (N : list jsval)
    (g : ColorSequenceGenerator.t) (w : list jsval) (excludeColor : jsval)
    (target : Z) (k : rng) :
  incl (namesOf g) N -> Forall (nameOrUndefined N) w ->
  Forall (nameOrUndefined N) (ColorSequenceGenerator.activeOrEmpty g) ->
  looseOut N g (fst (ColorSequenceGenerator.generateForMinLoad g w
                       excludeColor target k)).
Proof.
  intros HN Hw Hact.
  assert (Hset : Forall (nameOrUndefined N) (js_set w))
    by (apply (Forall_incl _ _ w); [apply incl_js_set | assumption]).
  unfold looseOut, ColorSequenceGenerator.generateForMinLoad.
  destruct (_ && _).
  - unfold bind, ret.
    pose proof (pickNext_loose N g w
                  (ColorSequenceGenerator.freshCandidates g w excludeColor)
                  target k HN Hw
                  (freshCandidates_loose N g w excludeColor HN)) as Hpick.
    destruct (ColorSequenceGenerator.pickNextWithConstraint g w _ target k)
      as [c k1].
    cbn [fst snd] in *. split; [assumption |].
    split; [| apply sameSetting_setActiveSet].
    cbn [ColorSequenceGenerator.activeOrEmpty
         ColorSequenceGenerator.setActiveSet
         ColorSequenceGenerator.activeSet].
    destruct (_ =? _)%nat;
      [apply loose_pair; [apply js_index_loose |]; assumption
      | apply loose_single; assumption].
  - set (g1 := if ColorSequenceGenerator.activeSetStale g 2 then _ else g).
    assert (Hsame : sameSetting g g1).
    { unfold g1. destruct (ColorSequenceGenerator.activeSetStale g 2);
        [apply sameSetting_setActiveSet | apply sameSetting_refl]. }
    assert (Hnames : namesOf g1 = namesOf g).
    { unfold g1. destruct (ColorSequenceGenerator.activeSetStale g 2);
        reflexivity. }
    set (active := ColorSequenceGenerator.activeOrEmpty g1).
    assert (Hactive : Forall (nameOrUndefined N) active).
    { unfold active, g1.
      destruct (ColorSequenceGenerator.activeSetStale g 2); [| assumption].
      cbn [ColorSequenceGenerator.activeOrEmpty
           ColorSequenceGenerator.setActiveSet
           ColorSequenceGenerator.activeSet].
      apply (Forall_incl _ _ (js_set w)); [apply incl_slice_first |].
      assumption. }
    set (swapPool := filter (fun c => negb (js_includes active c)) _).
    set (replacements := filter _ swapPool).
    set (normalPool := ColorSequenceGenerator.withoutExcluded active _).
    unfold bind, Math_random, ret.
    assert (Hnormal : forall k0,
      let res := ColorSequenceGenerator.pickNextWithConstraint g1 w
                   normalPool target k0 in
      let out := fst (let '(c, k') := res in (c, g1, k')) in
      nameOrUndefined N (fst out)
      /\ Forall (nameOrUndefined N)
                (ColorSequenceGenerator.activeOrEmpty (snd out))
      /\ sameSetting g (snd out)).
    { intros k0 res.
      pose proof (pickNext_loose N g1 w normalPool target k0
                    ltac:(rewrite Hnames; assumption) Hw
                    (Forall_incl _ _ _
                       (incl_withoutExcluded active excludeColor) Hactive))
        as Hpick. fold res in Hpick.
      destruct res as [c k3]. cbn [fst snd] in *.
      split; [assumption | split; assumption]. }
    destruct (Rltb (stream k (pos k)) ColorSequenceGenerator.swapProbability);
      [| apply Hnormal].
    pose proof (pickRandom_loose N active (mkRng (stream k) (S (pos k)))
                  Hactive) as Hkeep.
    rewrite (surjective_pairing (pickRandom active _)), pickRandom_rng.
    cbn [stream pos].
    destruct (_ && _); [| apply Hnormal].
    assert (Hrep : nameOrUndefined N
                     (fst (pickRandom replacements
                             (mkRng (stream k) (S (S (pos k))))))).
    { apply pickRandom_loose. apply names_loose. intros x Hx. apply HN.
      apply filter_In in Hx. destruct Hx as [Hx _].
      apply filter_In in Hx. destruct Hx as [Hx _].
      rewrite <- Hnames. exact Hx. }
    destruct (pickRandom replacements _) as [replacement k3].
    cbn [fst snd] in *.
    split; [assumption |]. split.
    + cbn [ColorSequenceGenerator.activeOrEmpty
           ColorSequenceGenerator.setActiveSet
           ColorSequenceGenerator.activeSet].
      apply loose_pair; assumption.
    + apply (sameSetting_trans g g1); [assumption |].
      apply sameSetting_setActiveSet.
Qed.

Lemma generateForMaxLoad_loose (N : list jsval)
    (g : ColorSequenceGenerator.t) (w : list jsval) (excludeColor : jsval)
    (target : Z) (k : rng) :
  incl (namesOf g) N -> Forall (nameOrUndefined N) w ->
  Forall (nameOrUndefined N) (ColorSequenceGenerator.activeOrEmpty g) ->
  looseOut N g (fst (ColorSequenceGenerator.generateForMaxLoad g w
                       excludeColor target k)).
Proof.
  intros HN Hw Hact.
  unfold looseOut, ColorSequenceGenerator.generateForMaxLoad, bind, ret.
  pose proof (pickNext_loose N g w
                (ColorSequenceGenerator.freshCandidates g w excludeColor)
                target k HN Hw
                (freshCandidates_loose N g w excludeColor HN)) as Hpick.
  destruct (ColorSequenceGenerator.pickNextWithConstraint g w _ target k)
    as [c k1].
  cbn [fst snd] in *.
  split; [assumption | split; [assumption | apply sameSetting_refl]].
Qed.

Lemma generateForMidLoad_loose (N : list jsval)
    (g : ColorSequenceGenerator.t) (w : list jsval) (excludeColor : jsval)
    (target : Z) (k : rng) :
  incl (namesOf g) N -> Forall (nameOrUndefined N) w ->
  Forall (nameOrUndefined N) (ColorSequenceGenerator.activeOrEmpty g) ->
  looseOut N g (fst (ColorSequenceGenerator.generateForMidLoad g w
                       excludeColor target k)).
Proof.
  intros HN Hw Hact.
  assert (Hset : Forall (nameOrUndefined N) (js_set w))
    by (apply (Forall_incl _ _ w); [apply incl_js_set | assumption]).
  unfold looseOut, ColorSequenceGenerator.generateForMidLoad.
  destruct (_ && _).
  - unfold bind, ret.
    pose proof (pickNext_loose N g w
                  (ColorSequenceGenerator.freshCandidates g w excludeColor)
                  target k HN Hw
                  (freshCandidates_loose N g w excludeColor HN)) as Hpick.
    destruct (ColorSequenceGenerator.pickNextWithConstraint g w _ target k)
      as [c k1].
    cbn [fst snd] in *. split; [assumption |].
    split; [| apply sameSetting_setActiveSet].
    cbn [ColorSequenceGenerator.activeOrEmpty
         ColorSequenceGenerator.setActiveSet
         ColorSequenceGenerator.activeSet].
    unfold ColorSequenceGenerator.activeOrEmpty in Hact.
    destruct (ColorSequenceGenerator.activeSet g) as [s |].
    + apply (Forall_incl _ _ (s ++ [c])).
      * intros x Hx. apply incl_js_set.
        revert Hx. apply incl_slice_first.
      * apply Forall_app. split; [assumption | apply loose_single; assumption].
    + apply Forall_app. split; [assumption | apply loose_single; assumption].
  - set (g1 := if ColorSequenceGenerator.activeSetStale g target then _
               else g).
    assert (Hsame : sameSetting g g1).
    { unfold g1. destruct (ColorSequenceGenerator.activeSetStale g target);
        [apply sameSetting_setActiveSet | apply sameSetting_refl]. }
    assert (Hnames : namesOf g1 = namesOf g).
    { unfold g1. destruct (ColorSequenceGenerator.activeSetStale g target);
        reflexivity. }
    set (active := ColorSequenceGenerator.activeOrEmpty g1).
    assert (Hactive : Forall (nameOrUndefined N) active).
    { unfold active, g1.
      destruct (ColorSequenceGenerator.activeSetStale g target);
        [| assumption].
      cbn [ColorSequenceGenerator.activeOrEmpty
           ColorSequenceGenerator.setActiveSet
           ColorSequenceGenerator.activeSet].
      apply (Forall_incl _ _ (js_set w)); [apply incl_slice_first |].
      assumption. }
    set (swapPool := filter (fun c => negb (js_includes active c)) _).
    set (replacements := filter _ swapPool).
    set (normalPool := ColorSequenceGenerator.withoutExcluded active _).
    unfold bind, Math_random, ret.
    assert (Hnormal : forall k0,
      let res := ColorSequenceGenerator.pickNextWithConstraint g1 w
                   normalPool target k0 in
      let out := fst (let '(c, k') := res in (c, g1, k')) in
      nameOrUndefined N (fst out)
      /\ Forall (nameOrUndefined N)
                (ColorSequenceGenerator.activeOrEmpty (snd out))
      /\ sameSetting g (snd out)).
    { intros k0 res.
      pose proof (pickNext_loose N g1 w normalPool target k0
                    ltac:(rewrite Hnames; assumption) Hw
                    (Forall_incl _ _ _
                       (incl_withoutExcluded active excludeColor) Hactive))
        as Hpick. fold res in Hpick.
      destruct res as [c k3]. cbn [fst snd] in *.
      split; [assumption | split; assumption]. }
    destruct (Rltb (stream k (pos k)) ColorSequenceGenerator.swapProbability);
      [| apply Hnormal].
    cbn [stream pos].
    destruct (_ && _); [| apply Hnormal].
    assert (Hrep : nameOrUndefined N
                     (fst (pickRandom replacements
                             (mkRng (stream k) (S (S (pos k))))))).
    { apply pickRandom_loose. apply names_loose. intros x Hx. apply HN.
      apply filter_In in Hx. destruct Hx as [Hx _].
      apply filter_In in Hx. destruct Hx as [Hx _].
      rewrite <- Hnames. exact Hx. }
    destruct (pickRandom replacements _) as [replacement k3].
    cbn [fst snd] in *.
    split; [assumption |]. split.
    + cbn [ColorSequenceGenerator.activeOrEmpty
           ColorSequenceGenerator.setActiveSet
           ColorSequenceGenerator.activeSet].
      apply Forall_app. split; [| apply loose_single; assumption].
      apply (Forall_incl _ _ active); [apply incl_removeIndex | assumption].
    + apply (sameSetting_trans g g1); [assumption |].
      apply sameSetting_setActiveSet.
Qed.

Lemma generateByRegime_loose (N : list jsval)
    (g : ColorSequenceGenerator.t) (w : list jsval) (excludeColor : jsval)
    (target : Z) (k : rng) :
  incl (namesOf g) N -> Forall (nameOrUndefined N) w ->
  Forall (nameOrUndefined N) (ColorSequenceGenerator.activeOrEmpty g) ->
  looseOut N g (fst (ColorSequenceGenerator.generateByRegime g w
                       excludeColor target k)).
Proof.
  intros HN Hw Hact. unfold ColorSequenceGenerator.generateByRegime.
  destruct (target =? 2)%Z; [apply generateForMinLoad_loose; assumption |].
  destruct (target =? _)%Z;
    [apply generateForMaxLoad_loose | apply generateForMidLoad_loose];
    assumption.
Qed.

Lemma generateNonMatch_loose (N : list jsval)
    (g : ColorSequenceGenerator.t) (w : list jsval) (excludeColor : jsval)
    (target : Z) (tse : R) (k : rng) :
  incl (namesOf g) N -> Forall (nameOrUndefined N) w ->
  Forall (nameOrUndefined N) (ColorSequenceGenerator.activeOrEmpty g) ->
  looseOut N g (fst (ColorSequenceGenerator.generateNonMatch g w
                       excludeColor target tse k)).
Proof.
  intros HN Hw Hact. unfold ColorSequenceGenerator.generateNonMatch.
  destruct (Nat.ltb_spec 0 (length w)) as [Hlen | Hlen];
    [| rewrite andb_false_r; apply generateByRegime_loose; assumption].
  destruct (_ && _); [| apply generateByRegime_loose; assumption].
  unfold bind, Math_random, ret.
  destruct (Rltb _ _); cbn [andb];
    [| apply generateByRegime_loose; assumption].
  destruct (ColorSequenceGenerator.isValidNextColor g w _ target);
    [| apply generateByRegime_loose; assumption].
  unfold looseOut. cbn [fst snd].
  split; [| split; [assumption | apply sameSetting_refl]].
  rewrite Forall_forall in Hw. apply Hw. apply last_In.
  destruct w; [cbn in Hlen; lia | discriminate].
Qed.

Lemma generateNextColor_loose (N : list jsval)
    (g : ColorSequenceGenerator.t) (targetUniqueColors : Z)
    (shouldMatch : bool) (nBackColor : jsval) (isForced : bool) (tse : R)
    (k : rng) :
  incl (namesOf g) N ->
  Forall (nameOrUndefined N)
         (WorkingMemoryState.recentColors
            (ColorSequenceGenerator.memoryState g)) ->
  Forall (nameOrUndefined N) (ColorSequenceGenerator.activeOrEmpty g) ->
  (truthy nBackColor = true -> nameOrUndefined N nBackColor) ->
  let out := fst (ColorSequenceGenerator.generateNextColor g
                    targetUniqueColors shouldMatch nBackColor isForced tse
                    k) in
  let g' := ColorSequenceGenerator.updateMemoryState (snd out) (fst out) in
  nameOrUndefined N (fst out)
  /\ Forall (nameOrUndefined N)
            (WorkingMemoryState.recentColors
               (ColorSequenceGenerator.memoryState g'))
  /\ Forall (nameOrUndefined N) (ColorSequenceGenerator.activeOrEmpty g')
  /\ ColorSequenceGenerator.availableColors g'
     = ColorSequenceGenerator.availableColors g.
Proof.
  intros HN Hw Hact Htruthy out g'.
  set (w := WorkingMemoryState.recentColors
              (ColorSequenceGenerator.memoryState g)) in *.
  set (target := Z.max 2 targetUniqueColors).
  set (g0 := ColorSequenceGenerator.mk (ColorSequenceGenerator.n g)
               (ColorSequenceGenerator.availableColors g)
               (ColorSequenceGenerator.memoryState g)
               (if match ColorSequenceGenerator.lastTarget g with
                   | Some l => negb (l =? target)%Z
                   | None => false
                   end
                then None else ColorSequenceGenerator.activeSet g)
               (Some target)).
  assert (Hact0 : Forall (nameOrUndefined N)
                    (ColorSequenceGenerator.activeOrEmpty g0)).
  { unfold g0, ColorSequenceGenerator.activeOrEmpty.
    cbn [ColorSequenceGenerator.activeSet].
    destruct (match ColorSequenceGenerator.lastTarget g with
              | Some l => negb (l =? target)%Z
              | None => false
              end); [apply Forall_nil | exact Hact]. }
  assert (Hout : looseOut N g0 out).
  { unfold out, ColorSequenceGenerator.generateNextColor.
    fold w. fold target. fold g0.
    assert (Hnon : looseOut N g0
                     (fst (ColorSequenceGenerator.generateNonMatch g0 w
                             (if negb shouldMatch then nBackColor else JNull)
                             target tse k)))
      by (apply generateNonMatch_loose; assumption).
    assert (Hmatch : shouldMatch && truthy nBackColor = true ->
                     looseOut N g0 (nBackColor, g0)).
    { intros Hcond. apply andb_true_iff in Hcond. destruct Hcond as [_ Hcond].
      split; [apply Htruthy; assumption |].
      split; [assumption | apply sameSetting_refl]. }
    destruct (shouldMatch && truthy nBackColor); [| exact Hnon].
    destruct isForced; [apply Hmatch; reflexivity |].
    destruct (ColorSequenceGenerator.isValidMatchColor g0 w nBackColor
                target); [apply Hmatch; reflexivity | exact Hnon]. }
  destruct Hout as (Hcolor & Hactive & (Hn & Hcolors & Hmem)).
  split; [assumption |].
  unfold g', ColorSequenceGenerator.updateMemoryState.
  cbn [ColorSequenceGenerator.availableColors
       ColorSequenceGenerator.memoryState
       ColorSequenceGenerator.activeOrEmpty
       ColorSequenceGenerator.activeSet].
  rewrite Hcolors, Hmem.
  cbn [ColorSequenceGenerator.availableColors
       ColorSequenceGenerator.memoryState g0].
  split; [| split; [assumption | reflexivity]].
  apply (Forall_incl _ _ (w ++ [fst out])); [apply incl_addColor |].
  apply Forall_app. split; [assumption | apply loose_single; assumption].
Qed.

Lemma generateNextTrial_loose (N : list jsval) (tr : WorkingMemoryTrainer.t)
    (k : rng) :
  let g := WorkingMemoryTrainer.colorGenerator tr in
  incl (namesOf g) N ->
  Forall (nameOrUndefined N)
         (WorkingMemoryState.recentColors
            (ColorSequenceGenerator.memoryState g)) ->
  Forall (nameOrUndefined N) (ColorSequenceGenerator.activeOrEmpty g) ->
  let out := fst (WorkingMemoryTrainer.generateNextTrial tr k) in
  let g' := WorkingMemoryTrainer.colorGenerator (snd out) in
  nameOrUndefined N (WorkingMemoryTrainer.tl_color (fst out))
  /\ Forall (nameOrUndefined N)
            (WorkingMemoryState.recentColors
               (ColorSequenceGenerator.memoryState g'))
  /\ Forall (nameOrUndefined N) (ColorSequenceGenerator.activeOrEmpty g')
  /\ ColorSequenceGenerator.availableColors g'
     = ColorSequenceGenerator.availableColors g
  /\ WorkingMemoryTrainer.colors (snd out) = WorkingMemoryTrainer.colors tr.
Proof.
  intros g HN Hw Hact out g'.
  unfold g', out, WorkingMemoryTrainer.generateNextTrial, bind,
    ColorSequenceGenerator.getMemoryState.
  fold g.
  destruct (MatchGenerator.shouldCreateMatch _ _ k) as [decision k1].
  destruct (getNBackColor_window (ColorSequenceGenerator.memoryState g))
    as [Htruthy _].
  pose proof (generateNextColor_loose N g
                (DifficultyController.getTargetUniqueColors
                   (WorkingMemoryTrainer.difficultyController tr))
                (MatchGenerator.shouldMatch decision)
                (MatchGenerator.getNBackColor
                   (ColorSequenceGenerator.memoryState g))
                (MatchGenerator.isForced decision)
                (DifficultyController.tse
                   (WorkingMemoryTrainer.difficultyController tr))
                k1 HN Hw Hact) as Hgen.
  destruct (ColorSequenceGenerator.generateNextColor _ _ _ _ _ _ k1)
    as [generated k2].
  destruct (WorkingMemoryTrainer.generatePosition tr k2) as [position k3].
  cbn [fst snd] in *. unfold ret.
  cbn [fst snd WorkingMemoryTrainer.tl_color
       WorkingMemoryTrainer.colorGenerator WorkingMemoryTrainer.colors].
  destruct Hgen as (Hcolor & Hw' & Hact' & Hcolors).
  { intros H. rewrite Forall_forall in Hw. apply Hw. apply Htruthy.
    assumption. }
  repeat (split; [assumption |]). reflexivity.
Qed.

Lemma looseInv_step (colors : list paletteColor) (e : NBackEngine.t)
    (o : NBackEngine.op) (k : rng) :
  looseInv colors e -> looseInv colors (fst (NBackEngine.step e o k)).
Proof.
  intros Hinv. assert (Hinv' := Hinv).
  destruct Hinv' as (Hcolors & Havail & Hw & Hact).
  destruct o as [| userClicked wasMatch reactionTime | | positions | | |
                 trials threshold | | | strategic recency | now];
    cbn [NBackEngine.step]; unfold ret, bind; cbn [fst];
    try exact Hinv.
  - unfold NBackEngine.generateNextTile, bind, ret.
    pose proof (generateNextTrial_loose (colorNames colors)
                  (NBackEngine.trainer e) k) as Hgen.
    cbn zeta in Hgen. unfold namesOf in Hgen. rewrite Havail in Hgen.
    specialize (Hgen (incl_refl _) Hw Hact).
    destruct (WorkingMemoryTrainer.generateNextTrial _ k) as [[tile tr] k1].
    cbn [fst snd NBackEngine.trainer] in *.
    destruct Hgen as (_ & Hw' & Hact' & Havail' & Hcolors').
    unfold looseInv. cbn [NBackEngine.trainer].
    split; [congruence |]. split; [congruence |]. split; assumption.
  - unfold NBackEngine.onUserResponse.
    destruct (NBackEngine.currentTile e) as [tile |]; [| exact Hinv].
    unfold WorkingMemoryTrainer.recordResponse.
    destruct (WorkingMemoryTrainer.isValidTrial reactionTime);
      exact Hinv.
  - unfold NBackEngine.shouldStopSession.
    destruct (negb _); exact Hinv.
  - unfold NBackEngine.shouldStopForErrors.
    destruct (_ <? _)%Z; [exact Hinv |].
    destruct (_ >=? _)%Z; exact Hinv.
  - unfold looseInv. cbn. rewrite Hcolors.
    repeat split; apply Forall_nil.
Qed.

(** X26. Whatever the palette and the draws, a tile's colour is one of
    the palette's names or [undefined], never [null]; an engine constructed
    without colours only ever shows [undefined]. *)
Theorem tiles_without_assumptions
    (startN : option nat) (colors : option (list paletteColor))
    (e : NBackEngine.t) (k : rng) :
  reachableAnyDraws (NBackEngine.new startN colors) e ->
  let color := WorkingMemoryTrainer.tl_color
                 (fst (fst (NBackEngine.generateNextTile e k))) in
  (In color (colorNames (orElse colors [])) \/ color = JUndefined)
  /\ (colors = None -> color = JUndefined).
Proof.
  intros Hreach color.
  assert (Hinv : looseInv (orElse colors []) e).
  { induction Hreach as [| e o k0 _ IH].
    - unfold looseInv. cbn. repeat split; apply Forall_nil.
    - apply looseInv_step. assumption. }
  destruct Hinv as (_ & Havail & Hw & Hact).
  assert (Hcolor : nameOrUndefined (colorNames (orElse colors [])) color).
  { unfold color, NBackEngine.generateNextTile, bind, ret.
    pose proof (generateNextTrial_loose (colorNames (orElse colors []))
                  (NBackEngine.trainer e) k) as Hgen.
    cbn zeta in Hgen. unfold namesOf in Hgen. rewrite Havail in Hgen.
    specialize (Hgen (incl_refl _) Hw Hact).
    destruct (WorkingMemoryTrainer.generateNextTrial _ k) as [[tile tr] k1].
    cbn [fst snd] in *. apply Hgen. }
  split; [exact Hcolor |].
  intros ->. destruct Hcolor as [[] | Hundef]. exact Hundef.
Qed.

Lemma tiles_without_assumptions_witness :
  In (WorkingMemoryTrainer.tl_color
        (fst (fst (NBackEngine.generateNextTile
                     (NBackEngine.new None None) zeroDraws))))
     (colorNames (orElse None []))
  \/ WorkingMemoryTrainer.tl_color
       (fst (fst (NBackEngine.generateNextTile
                    (NBackEngine.new None None) zeroDraws)))
     = JUndefined.
Proof.
  apply (tiles_without_assumptions None None (NBackEngine.new None None)
           zeroDraws).
  apply reachAny_start.
Defined.

(** ** The constructor of the difficulty controller *)

(** X27. For n of 2 or more the constructor sets a hold of 2 to 6 calls
    for an increase and of 1 to 3 calls for a decrease, never longer for a
    decrease than for an increase, a climb rate from 0.06 to 0.12 and a
    drop rate twice the climb rate; the holds are 6 and 3 for n = 2, 3 and
    2 for n = 3, 2 and 1 for n = 8. *)
Theorem constructor_holds (n : nat) :
  (2 <= n)%nat ->
  let d := DifficultyController.new n in
  (2 <= DifficultyController.stepHoldIncrease d <= 6)%Z
  /\ (1 <= DifficultyController.stepHoldDecrease d <= 3)%Z
  /\ (DifficultyController.stepHoldDecrease d
      <= DifficultyController.stepHoldIncrease d)%Z
  /\ 0.06 <= DifficultyController.entropyClimbRate d <= 0.12
  /\ DifficultyController.entropyDropRate d
     = 2 * DifficultyController.entropyClimbRate d
  /\ (n = 2%nat -> DifficultyController.stepHoldIncrease d = 6%Z
                   /\ DifficultyController.stepHoldDecrease d = 3%Z)
  /\ (n = 3%nat -> DifficultyController.stepHoldIncrease d = 3%Z
                   /\ DifficultyController.stepHoldDecrease d = 2%Z)
  /\ (n = 8%nat -> DifficultyController.stepHoldIncrease d = 2%Z
                   /\ DifficultyController.stepHoldDecrease d = 1%Z).
Proof.
  intros Hn d. unfold d, DifficultyController.new.
  cbn [DifficultyController.stepHoldIncrease
       DifficultyController.stepHoldDecrease
       DifficultyController.entropyClimbRate
       DifficultyController.entropyDropRate].
  change DifficultyController.minUniqueColors with 2%Z.
  set (range := IZR (Z.of_nat n + 1 - 2)).
  assert (Hrange : 1 <= range).
  { unfold range. apply (IZR_le 1). lia. }
  assert (H6 : 0 <= 6 / range <= 6).
  { split; [apply le_div | apply div_le]; nra. }
  assert (H3 : 0 <= 3 / range <= 3).
  { split; [apply le_div | apply div_le]; nra. }
  assert (H36 : 3 / range <= 6 / range).
  { apply div_le; [lra |]. unfold Rdiv. rewrite Rmult_assoc, Rinv_l by lra.
    lra. }
  destruct H6 as [H60 H66]. destruct H3 as [H30 H33].
  apply Math_round_le in H60, H66, H30, H33, H36.
  rewrite (Math_round_IZR 0) in H60, H30.
  rewrite (Math_round_IZR 6) in H66. rewrite (Math_round_IZR 3) in H33.
  split; [lia |]. split; [lia |]. split; [lia |].
  split.
  { split; [apply Rmin_glb; [lra | apply Rmax_l] | apply Rmin_l]. }
  split; [lra |].
  assert (Hvalue : forall m : nat, n = m -> range = IZR (Z.of_nat m) - 1).
  { intros m ->. unfold range. rewrite minus_IZR, plus_IZR. lra. }
  split; [| split]; intros Hm.
  - assert (Hr : range = 1) by (rewrite (Hvalue _ Hm); cbn; lra).
    rewrite Hr.
    rewrite (Math_round_between (6 / 1) 6), (Math_round_between (3 / 1) 3)
      by lra.
    split; reflexivity.
  - assert (Hr : range = 2) by (rewrite (Hvalue _ Hm); cbn; lra).
    rewrite Hr.
    rewrite (Math_round_between (6 / 2) 3), (Math_round_between (3 / 2) 2)
      by lra.
    split; reflexivity.
  - assert (Hr : range = 7) by (rewrite (Hvalue _ Hm); cbn; lra).
    rewrite Hr.
    rewrite (Math_round_between (6 / 7) 1), (Math_round_between (3 / 7) 0)
      by lra.
    split; reflexivity.
Qed.

Lemma constructor_holds_witness :
  (DifficultyController.stepHoldDecrease (DifficultyController.new 4)
   <= DifficultyController.stepHoldIncrease (DifficultyController.new 4))%Z.
Proof.
  assert (Hn : (2 <= 4)%nat) by lia.
  destruct (constructor_holds 4 Hn) as (_ & _ & Hle & _).
  exact Hle.
Defined.

(** ** Session stops in a row *)

(** X28. [k] session stops in a row, on a controller whose entropy target
    and TSE are not negative, whose match rate is at most 0.40 and which
    has committed at least 2 colours: the colour count falls by one per
    stop down to 2, and the stops never make the task harder: the entropy
    target and TSE do not rise and stay at 0 or above, the match rate does
    not fall and stays at most 0.40. *)
Theorem session_stops_in_a_row (d : DifficultyController.t) (k : nat) :
  0 <= DifficultyController.targetEntropy d ->
  0 <= DifficultyController.tse d ->
  DifficultyController.matchRate d <= 0.40 ->
  (2 <= DifficultyController.currentUniqueColors d)%Z ->
  let d' := stopsRun d k in
  DifficultyController.currentUniqueColors d'
  = Z.max 2 (DifficultyController.currentUniqueColors d - Z.of_nat k)
  /\ 0 <= DifficultyController.targetEntropy d'
       <= DifficultyController.targetEntropy d
  /\ 0 <= DifficultyController.tse d' <= DifficultyController.tse d
  /\ DifficultyController.matchRate d
     <= DifficultyController.matchRate d' <= 0.40.
Proof.
  intros He Ht Hm Hcur.
  induction k as [| k IH].
  - cbn. repeat split; try lra; lia.
  - cbn zeta in *. destruct IH as (Hc & (He0 & He1) & (Ht0 & Ht1) & Hm0 & Hm1).
    cbn [stopsRun]. unfold DifficultyController.onSessionStopped.
    cbn [DifficultyController.targetEntropy DifficultyController.tse
         DifficultyController.matchRate
         DifficultyController.currentUniqueColors].
    rewrite Hc.
    split; [| split; [| split]].
    + change DifficultyController.minUniqueColors with 2%Z.
      destruct (Z.gtb_spec
                  (Z.max 2 (DifficultyController.currentUniqueColors d
                            - Z.of_nat k)) 2); lia.
    + rewrite Rmax_right by lra. lra.
    + rewrite Rmax_right by lra. lra.
    + unfold Rmin. destruct (Rle_dec _ _); lra.
Qed.

Lemma session_stops_in_a_row_witness :
  let d := DifficultyController.mk 3 (-2) 0.8 0.30 1.0 0.6 4 4 3 2 2 3
             0.06 0.12 in
  DifficultyController.currentUniqueColors (stopsRun d 3) = 2%Z.
Proof.
  intros d.
  assert (He : 0 <= DifficultyController.targetEntropy d)
    by (unfold d; cbn; lra).
  assert (Ht : 0 <= DifficultyController.tse d) by (unfold d; cbn; lra).
  assert (Hm : DifficultyController.matchRate d <= 0.40)
    by (unfold d; cbn; lra).
  assert (Hcur : (2 <= DifficultyController.currentUniqueColors d)%Z)
    by (unfold d; cbn; lia).
  destruct (session_stops_in_a_row d 3 He Ht Hm Hcur) as (Hc & _).
  rewrite Hc. reflexivity.
Defined.

